(** * Schedura: the planning heuristics of the smart scheduler

    A shallow embedding of the heuristics in [utils/data_manager.py]
    (habit check-ins and streaks) and [utils/task_classifier.py]
    (parameter estimation, time-slot suggestion, task ranking), with the
    properties that the specification states about them.

    The Python standard library is embedded only as far as these functions
    use it: [datetime.date] and naive [datetime.datetime] values with their
    ISO-8601 text form, [str.lower] and the substring test on ASCII text,
    [re.search] for the four date patterns, and the stable [sorted]. *)

From Stdlib Require Import ZArith Lia Ascii String List Bool.
From stdpp Require Import base option list sorting gmap strings.

Local Open Scope Z_scope.

(** ** The proleptic Gregorian calendar of [datetime] *)

Module Calendar.

(** [datetime.date]: the three fields of the class. *)
Record date := mk_date { year : Z; month : Z; day : Z }.

(** Naive [datetime.datetime]: a date and a time of day. Strings carrying a
    UTC offset are outside the embedded fragment. *)
Record datetime := mk_datetime {
  dt_date : date;
  hour : Z;
  minute : Z;
  second : Z;
  microsecond : Z
}.

Definition is_leap (y : Z) : bool :=
  (y mod 4 =? 0) && (negb (y mod 100 =? 0) || (y mod 400 =? 0)).

Definition days_before_year (y : Z) : Z :=
  let y := y - 1 in y * 365 + y / 4 - y / 100 + y / 400.

(** The table [_DAYS_IN_MONTH]. *)
Definition DAYS_IN_MONTH (m : Z) : Z :=
  match m with
  | 1 => 31 | 2 => 28 | 3 => 31 | 4 => 30 | 5 => 31 | 6 => 30
  | 7 => 31 | 8 => 31 | 9 => 30 | 10 => 31 | 11 => 30 | 12 => 31
  | _ => -1
  end.

(** The table [_DAYS_BEFORE_MONTH]. *)
Definition DAYS_BEFORE_MONTH (m : Z) : Z :=
  match m with
  | 1 => 0 | 2 => 31 | 3 => 59 | 4 => 90 | 5 => 120 | 6 => 151
  | 7 => 181 | 8 => 212 | 9 => 243 | 10 => 273 | 11 => 304 | 12 => 334
  | _ => -1
  end.

Definition days_in_month (y m : Z) : Z :=
  if (m =? 2) && is_leap y then 29 else DAYS_IN_MONTH m.

Definition days_before_month (y m : Z) : Z :=
  DAYS_BEFORE_MONTH m + (if (2 <? m) && is_leap y then 1 else 0).

Definition ymd2ord (y m d : Z) : Z :=
  days_before_year y + days_before_month y m + d.

Definition toordinal (d : date) : Z := ymd2ord (year d) (month d) (day d).

Definition DI400Y : Z := 146097.
Definition DI100Y : Z := 36524.
Definition DI4Y : Z := 1461.

(** [_ord2ymd], the inverse of [ymd2ord]. *)
Definition fromordinal (n : Z) : date :=
  let n := n - 1 in
  let n400 := n / DI400Y in
  let n := n mod DI400Y in
  let y := n400 * 400 + 1 in
  let n100 := n / DI100Y in
  let n := n mod DI100Y in
  let n4 := n / DI4Y in
  let n := n mod DI4Y in
  let n1 := n / 365 in
  let n := n mod 365 in
  let y := y + n100 * 100 + n4 * 4 + n1 in
  if (n1 =? 4) || (n100 =? 4) then mk_date (y - 1) 12 31
  else
    let leapyear := (n1 =? 3) && (negb (n4 =? 24) || (n100 =? 3)) in
    let m := Z.shiftr (n + 50) 5 in
    let preceding :=
      DAYS_BEFORE_MONTH m + (if (2 <? m) && leapyear then 1 else 0) in
    let '(m, preceding) :=
      if n <? preceding
      then (m - 1,
            preceding
            - (DAYS_IN_MONTH (m - 1)
               + (if (m - 1 =? 2) && leapyear then 1 else 0)))
      else (m, preceding) in
    mk_date y m (n - preceding + 1).

(** The constructor's range check ([MINYEAR = 1], [MAXYEAR = 9999]). *)
Definition date_ok (d : date) : bool :=
  (1 <=? year d) && (year d <=? 9999)
  && (1 <=? month d) && (month d <=? 12)
  && (1 <=? day d) && (day d <=? days_in_month (year d) (month d)).

Definition time_ok (h mi s us : Z) : bool :=
  (0 <=? h) && (h <? 24) && (0 <=? mi) && (mi <? 60)
  && (0 <=? s) && (s <? 60) && (0 <=? us) && (us <? 1000000).

(** [date + timedelta(days=k)]. The embedding leaves out the
    [OverflowError] past year 9999. *)
Definition date_add_days (d : date) (k : Z) : date :=
  fromordinal (toordinal d + k).

(** [(a - b).days] *)
Definition date_sub_days (a b : date) : Z := toordinal a - toordinal b.

(** [datetime.combine(d, datetime.min.time())] *)
Definition midnight (d : date) : datetime := mk_datetime d 0 0 0 0.

(** [dt + timedelta(...)], the duration given in microseconds: as in
    [datetime.__add__], through the ordinal of the day. *)
Definition datetime_add_us (dt : datetime) (delta : Z) : datetime :=
  let us :=
    ((hour dt * 60 + minute dt) * 60 + second dt) * 1000000
    + microsecond dt + delta in
  let days := toordinal (dt_date dt) + us / 86400000000 in
  let us := us mod 86400000000 in
  let secs := us / 1000000 in
  mk_datetime (fromordinal days)
    (secs / 3600) (secs mod 3600 / 60) (secs mod 60) (us mod 1000000).

Definition add_hours (dt : datetime) (h : Z) : datetime :=
  datetime_add_us dt (h * 3600000000).

Definition add_minutes (dt : datetime) (m : Z) : datetime :=
  datetime_add_us dt (m * 60000000).

(** Comparison is that of the tuples of fields ([_cmp]). *)
Fixpoint lex_compare (a b : list Z) : comparison :=
  match a, b with
  | [], [] => Eq
  | [], _ :: _ => Lt
  | _ :: _, [] => Gt
  | x :: a', y :: b' =>
      match x ?= y with
      | Eq => lex_compare a' b'
      | c => c
      end
  end.

Definition date_key (d : date) : list Z := [year d; month d; day d].

Definition datetime_key (dt : datetime) : list Z :=
  date_key (dt_date dt) ++ [hour dt; minute dt; second dt; microsecond dt].

Definition date_compare (a b : date) : comparison :=
  lex_compare (date_key a) (date_key b).

Definition datetime_compare (a b : datetime) : comparison :=
  lex_compare (datetime_key a) (datetime_key b).

Definition date_eqb (a b : date) : bool :=
  match date_compare a b with Eq => true | _ => false end.

Definition datetime_ltb (a b : datetime) : bool :=
  match datetime_compare a b with Lt => true | _ => false end.

Definition datetime_leb (a b : datetime) : bool :=
  match datetime_compare a b with Gt => false | _ => true end.

End Calendar.

(** ** ISO-8601 text of dates and datetimes *)

Module IsoText.
Import Calendar.

Definition digit (n : Z) : ascii := ascii_of_nat (Z.to_nat (48 + n)).

Definition digit_of (c : ascii) : option Z :=
  let n := Z.of_nat (nat_of_ascii c) in
  if (48 <=? n) && (n <=? 57) then Some (n - 48) else None.

(** ["%02d" % n] and ["%04d" % n] for a field in range. *)
Definition fmt02 (n : Z) : string :=
  String (digit (n / 10)) (String (digit (n mod 10)) EmptyString).

Definition fmt04 (n : Z) : string :=
  String (digit (n / 1000))
    (String (digit (n / 100 mod 10))
       (String (digit (n / 10 mod 10))
          (String (digit (n mod 10)) EmptyString))).

(** [date.isoformat()]: ["%04d-%02d-%02d"]. *)
Definition isoformat (d : date) : string :=
  (fmt04 (year d) ++ "-" ++ fmt02 (month d) ++ "-" ++ fmt02 (day d))%string.

Definition number2 (a b : ascii) : option Z :=
  x ← digit_of a; y ← digit_of b; Some (10 * x + y).

Definition number4 (a b c d : ascii) : option Z :=
  x ← number2 a b; y ← number2 c d; Some (100 * x + y).

Fixpoint number (cs : string) (acc : Z) : option Z :=
  match cs with
  | EmptyString => Some acc
  | String c cs' => x ← digit_of c; number cs' (10 * acc + x)
  end.

Definition is_char (c expected : ascii) : bool := Ascii.eqb c expected.

(** The date part, [YYYY-MM-DD], and what follows it. *)
Definition parse_isoformat_date (s : string) : option (date * string) :=
  match s with
  | String y1 (String y2 (String y3 (String y4 (String s1
      (String m1 (String m2 (String s2 (String d1 (String d2 rest))))))))) =>
      y ← number4 y1 y2 y3 y4;
      m ← number2 m1 m2;
      d ← number2 d1 d2;
      if is_char s1 "-" && is_char s2 "-" && date_ok (mk_date y m d)
      then Some (mk_date y m d, rest)
      else None
  | _ => None
  end.

(** The fraction of a second: three or six digits. *)
Definition parse_fraction (s : string) : option Z :=
  match String.length s with
  | 3%nat => x ← number s 0; Some (x * 1000)
  | 6%nat => number s 0
  | _ => None
  end.

(** The time part, [HH[:MM[:SS[.fff[fff]]]]]. *)
Definition parse_isoformat_time (s : string) : option (Z * Z * Z * Z) :=
  match s with
  | String h1 (String h2 rest) =>
      h ← number2 h1 h2;
      match rest with
      | EmptyString => Some (h, 0, 0, 0)
      | String c1 (String m1 (String m2 rest)) =>
          mi ← number2 m1 m2;
          if negb (is_char c1 ":") then None else
          match rest with
          | EmptyString => Some (h, mi, 0, 0)
          | String c2 (String s1 (String s2 rest)) =>
              sec ← number2 s1 s2;
              if negb (is_char c2 ":") then None else
              match rest with
              | EmptyString => Some (h, mi, sec, 0)
              | String c3 frac =>
                  us ← parse_fraction frac;
                  if is_char c3 "." then Some (h, mi, sec, us) else None
              end
          | _ => None
          end
      | _ => None
      end
  | _ => None
  end.

(** [datetime.fromisoformat(s)] on the texts that [isoformat] writes for
    dates and naive datetimes; [None] is its [ValueError]. The date may
    stand alone; otherwise one separator character and a time follow. *)
Definition fromisoformat (s : string) : option datetime :=
  '(d, rest) ← parse_isoformat_date s;
  match rest with
  | EmptyString => Some (midnight d)
  | String _ tstr =>
      '(h, mi, sec, us) ← parse_isoformat_time tstr;
      if time_ok h mi sec us then Some (mk_datetime d h mi sec us) else None
  end.

End IsoText.

(** ** Python values and control *)

Module Py.

(** The exceptions of the embedded code. [ReferenceError] is how the
    embedding ends on a reference without an object, which no Python list
    holds. *)
Inductive exn := IndexError | ValueError | ReferenceError | TypeError.

(** How a call ends: it returns a value or raises. *)
Inductive outcome (A : Type) :=
  | Return (a : A)
  | Raise (e : exn).
Arguments Return {A} a.
Arguments Raise {A} e.

(** [range(a, b)] *)
Definition range (a b : Z) : list Z :=
  map (fun k => a + Z.of_nat k) (seq 0 (Z.to_nat (b - a))).

(** The position that the index [k] denotes in a list of length [n]:
    negative indices count from the end. *)
Definition position (n : nat) (k : Z) : option nat :=
  let k' := if k <? 0 then k + Z.of_nat n else k in
  if (0 <=? k') && (k' <? Z.of_nat n) then Some (Z.to_nat k') else None.

(** [l[k]]; [None] is the [IndexError]. *)
Definition index {A} (l : list A) (k : Z) : option A :=
  p ← position (length l) k; l !! p.

(** [l[k] = x]; [None] is the [IndexError]. *)
Definition assign {A} (l : list A) (k : Z) (x : A) : option (list A) :=
  p ← position (length l) k; Some (<[p:=x]> l).

(** [l[:n]] *)
Definition slice_to {A} (l : list A) (n : Z) : list A :=
  if n <? 0 then take (Z.to_nat (Z.of_nat (length l) + n)) l
  else take (Z.to_nat n) l.

(** [sorted(l)]: stable, and it only asks [<] of the elements. An element
    is put before the first one that is not less than it. *)
Fixpoint insert_sorted {A} (lt : A -> A -> bool) (x : A) (l : list A)
  : list A :=
  match l with
  | [] => [x]
  | y :: l' => if lt y x then y :: insert_sorted lt x l' else x :: l
  end.

Definition sorted {A} (lt : A -> A -> bool) (l : list A) : list A :=
  foldr (insert_sorted lt) [] l.

(** The order that an integer key gives. *)
Definition key_lt {A} (key : A -> Z) (a b : A) : bool := key a <? key b.

(** [sorted(l, key=key, reverse=True)]: the list is reversed, sorted and
    reversed again, which keeps equal keys in their original order. *)
Definition sorted_reverse {A} (key : A -> Z) (l : list A) : list A :=
  rev (sorted (key_lt key) (rev l)).

End Py.

(** ** [utils/data_manager.py]: habits and their streaks *)

Module DataManager.
Import Calendar IsoText Py.

(** A habit dictionary. [check_ins], [current_streak] and [best_streak]
    are read with [.get] or tested with [in]: the keys may be missing.
    The check-in reads and writes no other key than these and [id]. *)
Record habit := mk_habit {
  id : string;
  title : string;
  frequency : string;
  check_ins : option (list string);
  current_streak : option Z;
  best_streak : option Z
}.

Definition set_check_ins (h : habit) (v : list string) : habit :=
  mk_habit (id h) (title h) (frequency h) (Some v)
    (current_streak h) (best_streak h).

Definition set_current_streak (h : habit) (v : Z) : habit :=
  mk_habit (id h) (title h) (frequency h) (check_ins h)
    (Some v) (best_streak h).

Definition set_best_streak (h : habit) (v : Z) : habit :=
  mk_habit (id h) (title h) (frequency h) (check_ins h)
    (current_streak h) (Some v).

(** Dictionaries are objects: the list [st.session_state["habits"]] holds
    references, and two entries may be the same object. *)
Definition ref := nat.

(** The part of [st.session_state] that a check-in reads and writes. The
    file written by [save_user_data] and the rewards that [award_points]
    may unlock are not part of it. *)
Record session_state := mk_session {
  objects : gmap ref habit;
  habits : option (list ref);
  points : option Z
}.

Definition set_object (st : session_state) (r : ref) (h : habit)
  : session_state :=
  mk_session (<[r:=h]> (objects st)) (habits st) (points st).

Definition set_habits (st : session_state) (hs : list ref) : session_state :=
  mk_session (objects st) (Some hs) (points st).

(** [award_points(points)], without the rewards. *)
Definition award_points (n : Z) (st : session_state) : session_state :=
  mk_session (objects st) (habits st) (Some (default 0 (points st) + n)).

(** The loop [for i in range(1, len(sorted_check_ins))] that walks back
    from the most recent check-in. It yields the loop variable [i] as the
    loop leaves it, and the streak. *)
Fixpoint streak_loop (sorted_check_ins : list datetime) (rng : list Z)
    (i : Z) (current_streak : Z) : option (Z * Z) :=
  match rng with
  | [] => Some (i, current_streak)
  | j :: rng' =>
      prev ← index sorted_check_ins (- j - 1);
      curr ← index sorted_check_ins (- j);
      if date_sub_days (dt_date curr) (dt_date prev) =? 1
      then streak_loop sorted_check_ins rng' j (current_streak + 1)
      else Some (j, current_streak)
  end.

Definition raise_with {A} (e : exn) (st : session_state)
  : outcome A * session_state := (Raise e, st).

(** The guarded walk: [if most_recent == check_in_date: for i in ...].
    Without the loop, [i] and the streak keep their values. *)
Definition walk_back (check_in_date : date)
    (sorted_check_ins : list datetime) (most_recent : date)
    (i : Z) (current_streak : Z) : option (Z * Z) :=
  if date_eqb most_recent check_in_date
  then streak_loop sorted_check_ins
         (range 1 (Z.of_nat (length sorted_check_ins))) i current_streak
  else Some (i, current_streak).

(** The body of the outer loop for the habit [h] at reference [r], found
    at position [i] of the list. The inner loop reuses the variable [i],
    and the final [st.session_state["habits"][i] = habit] reads it. *)
Definition check_in_found (check_in_date : date) (st : session_state)
    (r : ref) (h : habit) (i : Z) : outcome bool * session_state :=
  let check_in_str := isoformat check_in_date in
  if bool_decide (check_in_str ∈ default [] (check_ins h))
  then (Return false, st)
  else
    let h := set_check_ins h (default [] (check_ins h) ++ [check_in_str]) in
    let st := set_object st r h in
    match mapM fromisoformat (default [] (check_ins h)) with
    | None => raise_with ValueError st
    | Some parsed =>
        let sorted_check_ins := sorted datetime_ltb parsed in
        let current_streak := 1 in
        let best_streak := Z.max (default 0 (best_streak h)) 1 in
        match index sorted_check_ins (-1) with
        | None => raise_with IndexError st
        | Some last =>
            let most_recent := dt_date last in
            match walk_back check_in_date sorted_check_ins most_recent
                    i current_streak with
            | None => raise_with IndexError st
            | Some (i, current_streak) =>
                let h := set_current_streak h current_streak in
                let h :=
                  set_best_streak h (Z.max best_streak current_streak) in
                let st := set_object st r h in
                match assign (default [] (habits st)) i r with
                | None => raise_with IndexError st
                | Some hs =>
                    let st := set_habits st hs in
                    (Return true, award_points 5 st)
                end
            end
        end
    end.

(** The outer loop [for i, habit in enumerate(...)]: it stops at the first
    habit with the given id. *)
Fixpoint check_in_scan (habit_id : string) (check_in_date : date)
    (st : session_state) (rest : list ref) (i : Z)
  : outcome bool * session_state :=
  match rest with
  | [] => (Return false, st)
  | r :: rest' =>
      match objects st !! r with
      | None => raise_with ReferenceError st
      | Some h =>
          if String.eqb (id h) habit_id
          then check_in_found check_in_date st r h i
          else check_in_scan habit_id check_in_date st rest' (i + 1)
      end
  end.

(** [check_in_habit(habit_id, date=None)]; [today] is
    [datetime.now().date()]. *)
Definition check_in_habit (today : date) (habit_id : string)
    (date : option date) (st : session_state)
  : outcome bool * session_state :=
  match habits st with
  | None => (Return false, st)
  | Some hs =>
      let check_in_date := default today date in
      check_in_scan habit_id check_in_date st hs 0
  end.

(** The habit that [habit_id] identifies in the list: the first entry
    whose dictionary carries the id, with its position and reference. *)
Fixpoint find_habit (objs : gmap ref habit) (habit_id : string)
    (hs : list ref) (i : Z) : option (Z * ref * habit) :=
  match hs with
  | [] => None
  | r :: hs' =>
      h ← objs !! r;
      if String.eqb (id h) habit_id then Some (i, r, h)
      else find_habit objs habit_id hs' (i + 1)
  end.

(** The habit as a check-in on a new date leaves it, [cur] being the
    streak that the walk counted. *)
Definition checked_in (h : habit) (check_in_str : string) (cur : Z) : habit :=
  mk_habit (id h) (title h) (frequency h)
    (Some (default [] (check_ins h) ++ [check_in_str]))
    (Some cur)
    (Some (Z.max (Z.max (default 0 (best_streak h)) 1) cur)).

(** A sequence of calls for one habit, one date after the other; the
    session is passed on whether a call returns or raises. *)
Definition check_in_each (today : date) (habit_id : string)
    (dates : list date) (st : session_state) : session_state :=
  foldl (fun st d => snd (check_in_habit today habit_id (Some d) st))
    st dates.

End DataManager.

(** ** Text: [str.lower], [in] and [re.search] on ASCII strings *)

Module Text.

Definition lower_char (c : ascii) : ascii :=
  let n := nat_of_ascii c in
  if (65 <=? n)%nat && (n <=? 90)%nat then ascii_of_nat (n + 32) else c.

Fixpoint lower (s : string) : string :=
  match s with
  | EmptyString => EmptyString
  | String c s' => String (lower_char c) (lower s')
  end.

(** [k in s] *)
Fixpoint contains (k s : string) : bool :=
  String.prefix k s
  || match s with
     | EmptyString => false
     | String _ s' => contains k s'
     end.

(** [len(s)] *)
Definition len (s : string) : Z := Z.of_nat (String.length s).

(** Regular expressions, as far as the date patterns need them. [Any] is
    used by [search] only, for the text around a match. *)
Inductive regex :=
  | Void
  | Eps
  | Chr (c : ascii)
  | Digit
  | Any
  | Alt (r1 r2 : regex)
  | Cat (r1 r2 : regex)
  | Star (r : regex).

Fixpoint nullable (r : regex) : bool :=
  match r with
  | Void | Chr _ | Digit | Any => false
  | Eps | Star _ => true
  | Alt r1 r2 => nullable r1 || nullable r2
  | Cat r1 r2 => nullable r1 && nullable r2
  end.

Definition is_digit (c : ascii) : bool :=
  let n := nat_of_ascii c in (48 <=? n)%nat && (n <=? 57)%nat.

(** The derivative of [r] by the character [c]. *)
Fixpoint deriv (c : ascii) (r : regex) : regex :=
  match r with
  | Void | Eps => Void
  | Chr c' => if Ascii.eqb c c' then Eps else Void
  | Digit => if is_digit c then Eps else Void
  | Any => Eps
  | Alt r1 r2 => Alt (deriv c r1) (deriv c r2)
  | Cat r1 r2 =>
      if nullable r1
      then Alt (Cat (deriv c r1) r2) (deriv c r2)
      else Cat (deriv c r1) r2
  | Star r' => Cat (deriv c r') (Star r')
  end.

Fixpoint fullmatch (r : regex) (s : string) : bool :=
  match s with
  | EmptyString => nullable r
  | String c s' => fullmatch (deriv c r) s'
  end.

(** [re.search(r, s)] as a truth value: some part of [s] matches [r]. *)
Definition search (r : regex) (s : string) : bool :=
  fullmatch (Cat (Star Any) (Cat r (Star Any))) s.

Fixpoint lit (s : string) : regex :=
  match s with
  | EmptyString => Eps
  | String c s' => Cat (Chr c) (lit s')
  end.

Definition opt (r : regex) : regex := Alt Eps r.

Definition one_of (ws : list string) : regex :=
  foldr (fun w r => Alt (lit w) r) Void ws.

Definition seq_of (rs : list regex) : regex := foldr Cat Eps rs.

End Text.

(** ** [utils/task_classifier.py]: estimation, suggestion, ranking *)

Module TaskClassifier.
Import Calendar IsoText Py Text.

(** *** [estimate_task_parameters] *)

(** The dictionaries of keywords, in the order of their keys. *)
Definition importance_keywords : list (string * list string) :=
  [("high", ["important"; "critical"; "crucial"; "essential"; "key";
             "major"; "significant"; "vital"; "priority"]);
   ("medium", ["necessary"; "needed"; "required"; "should"; "useful"]);
   ("low", ["optional"; "minor"; "trivial"; "if time"; "sometime";
            "eventually"; "when possible"])]%string.

Definition urgency_keywords : list (string * list string) :=
  [("high", ["urgent"; "asap"; "immediately"; "now"; "today"; "tonight";
             "deadline"; "due"; "overdue"; "soon"; "quickly"; "fast"]);
   ("medium", ["this week"; "next few days"; "tomorrow"; "upcoming"]);
   ("low", ["when convenient"; "sometime"; "later"; "eventually";
            "no rush"; "take time"; "next month"])]%string.

(** What the branches on [level] assign. *)
Definition level_score (level : string) : Z :=
  if String.eqb level "high" then 5
  else if String.eqb level "medium" then 3
  else 1.

(** The inner loop [for keyword in keywords]: the first keyword found in
    the text sets the score and ends the loop. *)
Fixpoint scan_keywords (level : string) (keywords : list string)
    (text : string) (score : Z) : Z :=
  match keywords with
  | [] => score
  | keyword :: keywords' =>
      if contains keyword text then level_score level
      else scan_keywords level keywords' text score
  end.

(** The outer loop [for level, keywords in ....items()]: it ends once the
    score differs from 3. *)
Fixpoint scan_levels (levels : list (string * list string)) (text : string)
    (score : Z) : Z :=
  match levels with
  | [] => score
  | (level, keywords) :: levels' =>
      let score := scan_keywords level keywords text score in
      if negb (score =? 3) then score else scan_levels levels' text score
  end.

Definition months : list string :=
  ["jan"; "feb"; "mar"; "apr"; "may"; "jun";
   "jul"; "aug"; "sep"; "oct"; "nov"; "dec"]%string.

Definition weekdays : list string :=
  ["monday"; "tuesday"; "wednesday"; "thursday"; "friday"; "saturday";
   "sunday"]%string.

Definition date_patterns : list regex :=
  [ (* due (?:on|by)? (\d{1,2}(?:st|nd|rd|th)? (?:jan|...|dec)) *)
    seq_of [lit "due "; opt (one_of ["on"; "by"]%string); lit " ";
            Digit; opt Digit; opt (one_of ["st"; "nd"; "rd"; "th"]%string);
            lit " "; one_of months];
    (* due (?:on|by)? (\d{1,2}/\d{1,2}(?:/\d{2,4})?) *)
    seq_of [lit "due "; opt (one_of ["on"; "by"]%string); lit " ";
            Digit; opt Digit; lit "/"; Digit; opt Digit;
            opt (seq_of [lit "/"; Digit; Digit; opt Digit; opt Digit])];
    (* by (?:this|next) (monday|...|sunday) *)
    seq_of [lit "by "; one_of ["this"; "next"]%string; lit " ";
            one_of weekdays];
    (* (?:this|next) (week|month) *)
    seq_of [one_of ["this"; "next"]%string; lit " ";
            one_of ["week"; "month"]%string] ].

(** [estimate_task_parameters(task_title, task_description)] *)
Definition estimate_task_parameters (task_title task_description : string)
  : Z * Z :=
  let text := lower (task_title ++ " " ++ task_description)%string in
  let importance := scan_levels importance_keywords text 3 in
  let urgency := scan_levels urgency_keywords text 3 in
  let urgency :=
    if existsb (fun pattern => search pattern text) date_patterns
    then Z.max urgency 4
    else urgency in
  (importance, urgency).

(** *** Tasks *)

(** A task dictionary; every key that the heuristics read is read with
    [.get], so it may be missing. *)
Record task := mk_task {
  title : option string;
  description : option string;
  completed : option bool;
  importance : option Z;
  urgency : option Z;
  priority_score : option Z
}.

Definition set_priority_score (t : task) (v : Z) : task :=
  mk_task (title t) (description t) (completed t) (importance t)
    (urgency t) (Some v).

(** [estimate_task_duration(task)] *)
Definition estimate_task_duration (t : task) : Z :=
  let duration := 60 in
  let importance := default 3 (importance t) in
  let urgency := default 3 (urgency t) in
  let duration :=
    if (4 <=? importance) || (4 <=? urgency) then 90
    else if (importance <=? 2) && (urgency <=? 2) then 30
    else duration in
  let title_length := len (default EmptyString (title t)) in
  let duration :=
    if 50 <? title_length then duration + 30
    else if title_length <? 20 then duration - 15
    else duration in
  let description_length := len (default EmptyString (description t)) in
  let duration :=
    if 200 <? description_length then duration + 30 else duration in
  Z.max 15 duration.

(** *** [get_next_tasks] *)

(** [not task.get("completed", False)] *)
Definition incomplete (t : task) : bool := negb (default false (completed t)).

(** The body of [for task in incomplete_tasks]. *)
Definition score (t : task) : task :=
  set_priority_score t (default 3 (importance t) * default 3 (urgency t)).

(** [get_next_tasks(tasks, top_n=3)]. The loop over the incomplete tasks
    writes into the dictionaries of the caller's list, so the function
    yields that list as the call leaves it, and the returned list. A
    dictionary that occurs twice receives the same value twice. *)
Definition get_next_tasks (tasks : list task) (top_n : Z)
  : list task * list task :=
  match tasks with
  | [] => (tasks, [])
  | _ =>
      let incomplete_tasks :=
        map score (filter (fun t => incomplete t) tasks) in
      let tasks := map (fun t => if incomplete t then score t else t) tasks in
      let sorted_tasks :=
        sorted_reverse (fun x => default 0 (priority_score x))
          incomplete_tasks in
      (tasks, slice_to sorted_tasks top_n)
  end.

(** *** [suggest_time_slot] *)

(** A calendar event with its two times, as [add_calendar_event] stores
    it; a time that is no string (a null of the saved file, a number) is
    [None]. *)
Record event := mk_event {
  start_time : option string;
  end_time : option string
}.

(** The first component of the result: the branch for a missing profile
    yields a bare hour, the others a datetime. *)
Inductive start :=
  | StartHour (h : Z)
  | StartAt (dt : datetime).

(** What [datetime.fromisoformat] yields: a naive datetime, or an aware
    one, which carries its offset from UTC (in microseconds). *)
Inductive stamp :=
  | Naive (dt : datetime)
  | Aware (dt : datetime) (utcoffset : Z).

(** [datetime.fromisoformat] on a string; [None] is its [ValueError].
    Which texts it reads depends on the version of Python (3.11 reads
    more of ISO 8601 than 3.10), so [suggest_time_slot] takes it as a
    parameter. *)
Definition reader := string -> option stamp.

(** [peak_hours.get(productivity_peak, range(9, 17))] *)
Definition peak_hours (productivity_peak : string) : list Z :=
  if String.eqb productivity_peak "Morning" then range 8 12
  else if String.eqb productivity_peak "Afternoon" then range 12 17
  else if String.eqb productivity_peak "Evening" then range 17 22
  else if String.eqb productivity_peak "Night" then range 20 24
  else range 9 17.

(** The [try] block: the event is skipped when one of its times is no
    string ([TypeError]) or is not read ([ValueError]). *)
Definition parse_event (fromisoformat : reader) (e : event)
  : option (stamp * stamp) :=
  s ← start_time e ≫= fromisoformat;
  e ← end_time e ≫= fromisoformat;
  Some (s, e).

Definition event_periods (fromisoformat : reader)
    (existing_events : list event) : list (stamp * stamp) :=
  omap (parse_event fromisoformat) existing_events.

(** One call after the other; what is raised ends the sequence. *)
Definition and_then {A B} (o : outcome A) (f : A -> outcome B) : outcome B :=
  match o with
  | Return a => f a
  | Raise e => Raise e
  end.

(** The comparisons of a time of an event with a candidate time, which
    is naive: [a <= b], [a < b], [b < a] and [b <= a]. An aware datetime
    is not compared with a naive one: [TypeError]. *)
Definition stamp_le (a : stamp) (b : datetime) : outcome bool :=
  match a with
  | Naive dt => Return (datetime_leb dt b)
  | Aware _ _ => Raise TypeError
  end.

Definition stamp_lt (a : stamp) (b : datetime) : outcome bool :=
  match a with
  | Naive dt => Return (datetime_ltb dt b)
  | Aware _ _ => Raise TypeError
  end.

Definition lt_stamp (b : datetime) (a : stamp) : outcome bool :=
  match a with
  | Naive dt => Return (datetime_ltb b dt)
  | Aware _ _ => Raise TypeError
  end.

Definition le_stamp (b : datetime) (a : stamp) : outcome bool :=
  match a with
  | Naive dt => Return (datetime_leb b dt)
  | Aware _ _ => Raise TypeError
  end.

(** The test inside [any(...)]:
    [start <= potential_start < end or start < potential_end <= end].
    A chain stops at its first false comparison, and [or] at a true
    one. *)
Definition conflicts (potential_start potential_end : datetime)
    (period : stamp * stamp) : outcome bool :=
  let '(s, e) := period in
  and_then
    (and_then (stamp_le s potential_start)
       (fun c => if c then lt_stamp potential_start e else Return false))
    (fun c =>
       if c then Return true
       else
         and_then (stamp_lt s potential_end)
           (fun c => if c then le_stamp potential_end e else Return false)).

(** [any(... for start, end in event_periods)]: it stops at the first
    period that conflicts. *)
Fixpoint any_conflicts (potential_start potential_end : datetime)
    (periods : list (stamp * stamp)) : outcome bool :=
  match periods with
  | [] => Return false
  | period :: periods' =>
      and_then (conflicts potential_start potential_end period)
        (fun c =>
           if c then Return true
           else any_conflicts potential_start potential_end periods')
  end.

Definition slot_at (d : date) (h : Z) : datetime := add_hours (midnight d) h.

(** [for hour in preferred_hours] *)
Fixpoint scan_hours (periods : list (stamp * stamp))
    (suggested_date : date) (hours : list Z) : outcome (option datetime) :=
  match hours with
  | [] => Return None
  | h :: hours' =>
      let potential_start := slot_at suggested_date h in
      let potential_end := add_minutes potential_start 60 in
      and_then (any_conflicts potential_start potential_end periods)
        (fun c =>
           if negb c then Return (Some potential_start)
           else scan_hours periods suggested_date hours')
  end.

(** [for _ in range(7)] *)
Fixpoint scan_days (periods : list (stamp * stamp))
    (preferred_hours : list Z) (suggested_date : date) (days : list Z)
  : outcome (option datetime) :=
  match days with
  | [] => Return None
  | _ :: days' =>
      and_then (scan_hours periods suggested_date preferred_hours)
        (fun found =>
           match found with
           | Some slot => Return (Some slot)
           | None =>
               scan_days periods preferred_hours
                 (date_add_days suggested_date 1) days'
           end)
  end.

(** [not x] for a dictionary or a list that may be [None]. *)
Definition falsy_profile (p : option (gmap string string)) : bool :=
  match p with
  | None => true
  | Some m => bool_decide (m = ∅)
  end.

(** [suggest_time_slot(task, user_profile, existing_events=None)]. A path
    reads [datetime.now()] twice at most: [now] is the first reading and
    [now'] the second. *)
Definition suggest_time_slot (fromisoformat : reader) (now now' : datetime)
    (t : task) (user_profile : option (gmap string string))
    (existing_events : option (list event)) : outcome (start * Z) :=
  if falsy_profile user_profile then
    let start_hour := 9 in
    let task_duration := 60 in
    Return (StartHour start_hour, task_duration)
  else
    let productivity_peak :=
      default "Morning"%string
        (default ∅ user_profile !! "productivity_peak"%string) in
    let preferred_hours := peak_hours productivity_peak in
    match existing_events with
    | Some ((_ :: _) as events) =>
        let periods := event_periods fromisoformat events in
        let suggested_date := date_add_days (dt_date now) 1 in
        and_then
          (scan_days periods preferred_hours suggested_date (range 0 7))
          (fun found =>
             match found with
             | Some potential_start => Return (StartAt potential_start, 60)
             | None =>
                 match index preferred_hours 0 with
                 | None => Raise IndexError
                 | Some h =>
                     Return
                       (StartAt (slot_at (date_add_days (dt_date now') 1) h),
                        60)
                 end
             end)
    | _ =>
        let current_date := dt_date now in
        let preferred_hour := default 9 (index preferred_hours 0) in
        let current_date :=
          if preferred_hour <=? hour now' then date_add_days current_date 1
          else current_date in
        let suggested_time := slot_at current_date preferred_hour in
        let task_duration := estimate_task_duration t in
        Return (StartAt suggested_time, task_duration)
    end.

(** *** The slot search as the specification words it *)

(** The preferred hours [lo, hi) of the specification: Morning [8, 12),
    Afternoon [12, 17), Evening [17, 22), Night [20, 24). The
    specification leaves two cases of a present profile open, for which
    the table holds what the code does: a profile without the key counts
    as Morning, and any other value gives [9, 17). *)
Definition preferred_range (productivity_peak : option string) : Z * Z :=
  match productivity_peak with
  | None => (8, 12)
  | Some peak =>
      if String.eqb peak "Morning" then (8, 12)
      else if String.eqb peak "Afternoon" then (12, 17)
      else if String.eqb peak "Evening" then (17, 22)
      else if String.eqb peak "Night" then (20, 24)
      else (9, 17)
  end.

(** An event that is not validly parsed: one of its two times is no
    string or is not read. *)
Definition unreadable (fromisoformat : reader) (e : event) : Prop :=
  start_time e ≫= fromisoformat = None
  \/ end_time e ≫= fromisoformat = None.

(** The validly-parsed events of a list, in their order, as the periods
    [(existingStart, existingEnd)] that they occupy; all the times that
    are read are naive here. *)
Inductive busy (fromisoformat : reader)
  : list event -> list (datetime * datetime) -> Prop :=
  | busy_nil : busy fromisoformat [] []
  | busy_parsed e events periods ts te existingStart existingEnd :
      start_time e = Some ts ->
      end_time e = Some te ->
      fromisoformat ts = Some (Naive existingStart) ->
      fromisoformat te = Some (Naive existingEnd) ->
      busy fromisoformat events periods ->
      busy fromisoformat (e :: events)
        ((existingStart, existingEnd) :: periods)
  | busy_skipped e events periods :
      unreadable fromisoformat e ->
      busy fromisoformat events periods ->
      busy fromisoformat (e :: events) periods.


(** The half-open overlap test: [existingStart <= candidateStart <
    existingEnd] or [existingStart < candidateEnd <= existingEnd]. *)
Definition overlaps (existingStart existingEnd : datetime)
    (candidateStart candidateEnd : datetime) : bool :=
  (datetime_leb existingStart candidateStart
   && datetime_ltb candidateStart existingEnd)
  || (datetime_ltb existingStart candidateEnd
      && datetime_leb candidateEnd existingEnd).

(** A 60-minute slot that overlaps none of the parsed events. *)
Definition slot_free (periods : list (datetime * datetime))
    (candidateStart : datetime) : bool :=
  forallb
    (fun period =>
       negb (overlaps (fst period) (snd period)
               candidateStart (add_minutes candidateStart 60)))
    periods.

(** The score that ranks a task: importance times urgency, a missing one
    counting as 3. *)
Definition priority (t : task) : Z :=
  default 3 (importance t) * default 3 (urgency t).

End TaskClassifier.

(** ** [pages/02_Calendar.py]: the suggestion for a selected task *)

Module CalendarPage.
Import Calendar Py TaskClassifier.

(** The lines around the call of [suggest_time_slot]: the profile and the
    events are read from the session with [.get(key, {})] and
    [.get(key, [])], [None] being a missing key, and the end of the slot
    is [suggested_start + timedelta(minutes=duration)], which is defined
    for a datetime and not for an integer. The lines yield the start, the
    end and the duration that the page then shows. *)
Definition suggested_slot (fromisoformat : reader) (now now' : datetime)
    (selected_task : task) (user_profile : option (gmap string string))
    (calendar_events : option (list event))
  : outcome (datetime * datetime * Z) :=
  and_then
    (suggest_time_slot fromisoformat now now' selected_task
       (Some (default ∅ user_profile)) (Some (default [] calendar_events)))
    (fun '(suggested_start, duration) =>
       match suggested_start with
       | StartAt dt => Return (dt, add_minutes dt duration, duration)
       | StartHour _ => Raise TypeError
       end).

End CalendarPage.

(** ** Concrete sessions, tasks and events *)

Module Examples.
Import Calendar DataManager TaskClassifier.

Definition march (k : Z) : date := mk_date 2024 3 k.

(** A habit as [add_habit] creates it. *)
Definition run_habit : habit :=
  mk_habit "h1" "Run" "daily" (Some []) (Some 0) (Some 0).

Definition read_habit : habit :=
  mk_habit "h2" "Read" "daily" (Some []) (Some 0) (Some 0).

(** The running habit after its first check-in, on 10 March. *)
Definition run_habit_day10 : habit :=
  mk_habit "h1" "Run" "daily" (Some ["2024-03-10"%string]) (Some 1) (Some 1).

Definition one_habit : session_state :=
  mk_session {[ 0%nat := run_habit ]} (Some [0%nat]) None.

Definition one_habit_day10 : session_state :=
  mk_session {[ 0%nat := run_habit_day10 ]} (Some [0%nat]) (Some 5).

Definition two_habits_day10 : session_state :=
  mk_session {[ 0%nat := run_habit_day10; 1%nat := read_habit ]}
    (Some [0%nat; 1%nat]) (Some 5).

Definition report_task : task :=
  mk_task (Some "Write the report"%string) None (Some false)
    (Some 4) (Some 2) None.

Definition done_task : task :=
  mk_task (Some "Book the room"%string) None (Some true)
    (Some 5) (Some 5) None.

(** Sunday 10 March 2024, two in the afternoon. *)
Definition sunday_afternoon : datetime := mk_datetime (march 10) 14 0 0 0.

Definition morning_profile : gmap string string :=
  {[ "productivity_peak"%string := "Morning"%string ]}.

(** A meeting on the next morning from eight to nine. *)
Definition monday_meeting : event :=
  mk_event (Some "2024-03-11T08:00:00"%string)
    (Some "2024-03-11T09:00:00"%string).

(** A meeting on the next morning from nine to ten. *)
Definition monday_at_nine : event :=
  mk_event (Some "2024-03-11T09:00:00"%string)
    (Some "2024-03-11T10:00:00"%string).


(** What [datetime.fromisoformat] yields on the texts of these examples:
    the two times in UTC are aware, and a text without an offset is read
    as [IsoText.fromisoformat] reads it. *)
Definition example_reader : reader :=
  fun s =>
    if String.eqb s "2024-03-11T08:00:00+00:00"
    then Some (Aware (mk_datetime (march 11) 8 0 0 0) 0)
    else if String.eqb s "2024-03-11T09:00:00+00:00"
    then Some (Aware (mk_datetime (march 11) 9 0 0 0) 0)
    else Naive <$> IsoText.fromisoformat s.

(** Two more tasks that are not completed. *)
Definition errand_task : task :=
  mk_task (Some "Buy stamps"%string) None (Some false)
    (Some 2) (Some 2) None.

Definition launch_task : task :=
  mk_task (Some "Prepare the launch"%string) None (Some false)
    (Some 5) (Some 5) None.

End Examples.

(** ** What a regular expression matches *)

Module RegexSpec.
Import Text.

(** The strings that a regular expression matches as a whole. *)
Inductive matches : regex -> string -> Prop :=
  | matches_eps : matches Eps EmptyString
  | matches_chr c : matches (Chr c) (String c EmptyString)
  | matches_digit c :
      is_digit c = true -> matches Digit (String c EmptyString)
  | matches_any c : matches Any (String c EmptyString)
  | matches_alt_l r1 r2 s : matches r1 s -> matches (Alt r1 r2) s
  | matches_alt_r r1 r2 s : matches r2 s -> matches (Alt r1 r2) s
  | matches_cat r1 r2 s1 s2 :
      matches r1 s1 -> matches r2 s2 -> matches (Cat r1 r2) (s1 ++ s2)
  | matches_star_nil r : matches (Star r) EmptyString
  | matches_star_cons r s1 s2 :
      matches r s1 -> matches (Star r) s2 -> matches (Star r) (s1 ++ s2).

(** [s] has the part [mid] between [pre] and [post]. *)
Definition has_part (s pre mid post : string) : Prop :=
  s = (pre ++ mid ++ post)%string.

End RegexSpec.

(** ** [app.py]: the priority label *)

Module App.
Import TaskClassifier.

(** [calculate_priority_label(task)]; here a missing importance or urgency
    counts as 1. *)
Definition calculate_priority_label (t : task) : string :=
  let importance := default 1 (importance t) in
  let urgency := default 1 (urgency t) in
  let score := importance * urgency in
  if 20 <=? score then "Critical"
  else if 12 <=? score then "High"
  else if 6 <=? score then "Medium"
  else "Low".

(** The rank of a label, from "Low" to "Critical". *)
Definition label_rank (label : string) : Z :=
  if String.eqb label "Critical" then 3
  else if String.eqb label "High" then 2
  else if String.eqb label "Medium" then 1
  else 0.

End App.

(** ** [utils/task_classifier.py]: the category of a task *)

Module Classifier.
Import Py Text.

(** A category dictionary, as far as the classifier reads it. *)
Record category := mk_category {
  id : string;
  name : string
}.

Definition CATEGORY_KEYWORDS : list (string * list string) :=
  [("work", ["meeting"; "project"; "report"; "presentation"; "client";
             "boss"; "deadline"; "email"; "call"; "office"]);
   ("personal", ["home"; "family"; "friend"; "shopping"; "clean";
                 "appointment"; "personal"; "party"; "visit"; "social"]);
   ("health", ["exercise"; "workout"; "gym"; "run"; "jog"; "swim";
               "doctor"; "dentist"; "meal"; "diet"; "sleep"; "rest";
               "meditate"]);
   ("learning", ["study"; "learn"; "read"; "book"; "course"; "class";
                 "lecture"; "tutorial"; "homework"; "assignment"])]%string.

(** A dictionary with string keys, in insertion order. *)
Definition dict (V : Type) := list (string * V).

(** [d[k] = v]: a present key keeps its place. *)
Fixpoint dict_set {V} (k : string) (v : V) (d : dict V) : dict V :=
  match d with
  | [] => [(k, v)]
  | (k', v') :: d' =>
      if String.eqb k' k then (k, v) :: d' else (k', v') :: dict_set k v d'
  end.

(** [d.get(k)] *)
Fixpoint dict_get {V} (k : string) (d : dict V) : option V :=
  match d with
  | [] => None
  | (k', v') :: d' => if String.eqb k' k then Some v' else dict_get k d'
  end.

Definition dict_keys {V} (d : dict V) : list string := map fst d.

(** [k in keys] *)
Definition key_in (k : string) (keys : list string) : bool :=
  existsb (String.eqb k) keys.

(** [find_best_category_match(keyword_category, available_categories)] *)
Definition find_best_category_match (keyword_category : string)
    (available_categories : list string) : option string :=
  if key_in keyword_category available_categories
  then Some keyword_category
  else
    match
      find (fun category =>
              contains keyword_category category
              || contains category keyword_category)
        available_categories
    with
    | Some category => Some category
    | None => head available_categories
    end.

(** [{category["name"].lower(): category["id"] for category in
    categories}] *)
Definition set_category (d : dict string) (c : category) : dict string :=
  dict_set (lower (name c)) (id c) d.

Definition make_category_id_map (categories : list category) : dict string :=
  foldl set_category [] categories.

(** [category_scores[best_match] += 1] *)
Definition add_point (best_match : string) (scores : dict Z) : dict Z :=
  match dict_get best_match scores with
  | Some n => dict_set best_match (n + 1) scores
  | None => scores
  end.

(** [if best_match:] on what the match returned: [None] and the empty
    string do not count. *)
Definition truthy_name (best_match : option string) : option string :=
  match best_match with
  | Some s => if String.eqb s EmptyString then None else Some s
  | None => None
  end.

(** The loop [for keyword in keywords] for one entry of
    [CATEGORY_KEYWORDS]. *)
Fixpoint score_keywords (task_title_lower category_name : string)
    (keys : list string) (keywords : list string) (scores : dict Z)
  : dict Z :=
  match keywords with
  | [] => scores
  | keyword :: keywords' =>
      let scores :=
        if contains keyword task_title_lower
        then
          match truthy_name (find_best_category_match category_name keys)
          with
          | Some best_match => add_point best_match scores
          | None => scores
          end
        else scores in
      score_keywords task_title_lower category_name keys keywords' scores
  end.

(** The loop [for category_name, keywords in CATEGORY_KEYWORDS.items()] *)
Fixpoint score_categories (task_title_lower : string) (keys : list string)
    (table : list (string * list string)) (scores : dict Z) : dict Z :=
  match table with
  | [] => scores
  | (category_name, keywords) :: table' =>
      score_categories task_title_lower keys table'
        (score_keywords task_title_lower category_name keys keywords scores)
  end.

(** [max(items, key=lambda x: x[1])]: the first item with the greatest
    score. *)
Fixpoint max_item (best : string * Z) (items : dict Z) : string * Z :=
  match items with
  | [] => best
  | item :: items' =>
      if snd best <? snd item then max_item item items'
      else max_item best items'
  end.

(** The part of [classify_task] after the trained classifier: the keyword
    scores. *)
Definition classify_by_keywords (task_title : string)
    (categories : list category) : option string :=
  let task_title_lower := lower task_title in
  let category_id_map := make_category_id_map categories in
  let keys := dict_keys category_id_map in
  let category_scores := map (fun cat_name => (cat_name, 0)) keys in
  let category_scores :=
    score_categories task_title_lower keys CATEGORY_KEYWORDS
      category_scores in
  if existsb (fun item => negb (snd item =? 0)) category_scores
  then
    match category_scores with
    | [] => None
    | item :: items =>
        let best_category := fst (max_item item items) in
        dict_get best_category category_id_map
    end
  else id <$> head categories.

(** [classify_task(task_title, categories, existing_tasks=None)]. The
    trained classifier of scikit-learn is the parameter [predict]: from
    the titles and categories of the existing tasks and the new title it
    yields a category, or raises. *)
Definition classify_task
    (predict : list (string * option string) -> string
               -> outcome (option string))
    (task_title : string) (categories : list category)
    (existing_tasks : option (list (string * option string)))
  : outcome (option string) :=
  match categories with
  | [] => Return None
  | _ =>
      match existing_tasks with
      | Some tasks =>
          if 10 <=? Z.of_nat (length tasks)
          then predict tasks task_title
          else Return (classify_by_keywords task_title categories)
      | None => Return (classify_by_keywords task_title categories)
      end
  end.

End Classifier.

(** ** [utils/data_manager.py]: tasks, points and rewards *)

Module Store.
Import Calendar IsoText.

(** A task dictionary as [add_task] creates it. *)
Record task := mk_task {
  id : string;
  title : string;
  description : string;
  category_id : option string;
  created_at : string;
  due_date : option string;
  completed : bool;
  completed_at : option string;
  importance : Z;
  urgency : Z
}.

(** The keyword arguments that the callers of [update_task] pass. *)
Inductive field :=
  | Title (v : string)
  | Description (v : string)
  | CategoryId (v : option string)
  | DueDate (v : option string)
  | Importance (v : Z)
  | Urgency (v : Z)
  | Completed (v : bool)
  | CompletedAt (v : string).

(** [task[key] = value] *)
Definition set_field (t : task) (f : field) : task :=
  match f with
  | Title v =>
      mk_task (id t) v (description t) (category_id t) (created_at t)
        (due_date t) (completed t) (completed_at t) (importance t)
        (urgency t)
  | Description v =>
      mk_task (id t) (title t) v (category_id t) (created_at t)
        (due_date t) (completed t) (completed_at t) (importance t)
        (urgency t)
  | CategoryId v =>
      mk_task (id t) (title t) (description t) v (created_at t)
        (due_date t) (completed t) (completed_at t) (importance t)
        (urgency t)
  | DueDate v =>
      mk_task (id t) (title t) (description t) (category_id t)
        (created_at t) v (completed t) (completed_at t) (importance t)
        (urgency t)
  | Importance v =>
      mk_task (id t) (title t) (description t) (category_id t)
        (created_at t) (due_date t) (completed t) (completed_at t) v
        (urgency t)
  | Urgency v =>
      mk_task (id t) (title t) (description t) (category_id t)
        (created_at t) (due_date t) (completed t) (completed_at t)
        (importance t) v
  | Completed v =>
      mk_task (id t) (title t) (description t) (category_id t)
        (created_at t) (due_date t) v (completed_at t) (importance t)
        (urgency t)
  | CompletedAt v =>
      mk_task (id t) (title t) (description t) (category_id t)
        (created_at t) (due_date t) (completed t) (Some v) (importance t)
        (urgency t)
  end.

(** A reward, and a reward as [unlocked_rewards] holds it: a copy with
    the times of unlocking and of redeeming. *)
Record reward := mk_reward {
  reward_id : string;
  reward_title : string;
  point_cost : Z
}.

Record unlocked := mk_unlocked {
  unlocked_reward : reward;
  unlocked_at : option string;
  redeemed_at : option string
}.

(** The keys of [st.session_state] that these functions read and write.
    The entries of a list are distinct dictionaries, as [add_task],
    [add_reward] and the loader of the saved file create them. The file
    that [save_user_data] writes is not part of the state. *)
Record session_state := mk_session {
  categories : option (list string);
  tasks : option (list task);
  points : option Z;
  rewards : option (list reward);
  unlocked_rewards : option (list unlocked)
}.

Definition set_tasks (st : session_state) (v : list task) : session_state :=
  mk_session (categories st) (Some v) (points st) (rewards st)
    (unlocked_rewards st).

Definition set_points (st : session_state) (v : Z) : session_state :=
  mk_session (categories st) (tasks st) (Some v) (rewards st)
    (unlocked_rewards st).

Definition set_rewards (st : session_state) (v : list reward)
  : session_state :=
  mk_session (categories st) (tasks st) (points st) (Some v)
    (unlocked_rewards st).

Definition set_unlocked_rewards (st : session_state) (v : list unlocked)
  : session_state :=
  mk_session (categories st) (tasks st) (points st) (rewards st) (Some v).

(** [not category_id]: [None] and the empty string. *)
Definition no_category (category_id : option string) : bool :=
  match category_id with
  | None => true
  | Some s => String.eqb s EmptyString
  end.

(** [add_task(title, description, category_id, due_date, importance,
    urgency)]. [categories] holds the ids of the categories; [fresh_id] is
    [str(uuid.uuid4())] and [now] is [datetime.now().isoformat()]. *)
Definition add_task (fresh_id now : string) (title description : string)
    (category_id : option string) (due_date : option date)
    (importance urgency : Z) (st : session_state) : task * session_state :=
  let category_id :=
    if no_category category_id
    then
      match categories st with
      | Some (first :: _) => Some first
      | _ => category_id
      end
    else category_id in
  let new_task :=
    mk_task fresh_id title description category_id now
      (isoformat <$> due_date) false None importance urgency in
  (new_task, set_tasks st (default [] (tasks st) ++ [new_task])).

(** The loop of [update_task]: the first task with the id is rewritten. *)
Fixpoint update_first (task_id : string) (kwargs : list field)
    (ts : list task) : option (list task) :=
  match ts with
  | [] => None
  | t :: ts' =>
      if String.eqb (id t) task_id
      then Some (foldl set_field t kwargs :: ts')
      else cons t <$> update_first task_id kwargs ts'
  end.

(** [update_task(task_id, **kwargs)] *)
Definition update_task (task_id : string) (kwargs : list field)
    (st : session_state) : bool * session_state :=
  match tasks st with
  | None => (false, st)
  | Some ts =>
      match update_first task_id kwargs ts with
      | Some ts' => (true, set_tasks st ts')
      | None => (false, st)
      end
  end.

(** [delete_task(task_id)] *)
Definition delete_task (task_id : string) (st : session_state)
  : bool * session_state :=
  match tasks st with
  | None => (false, st)
  | Some ts =>
      let initial_count := length ts in
      let ts' := List.filter (fun t => negb (String.eqb (id t) task_id)) ts in
      let st := set_tasks st ts' in
      (negb (Nat.eqb initial_count (length ts')), st)
  end.

(** The clock of one call: [clock k] is what the reading number [k] of
    [datetime.now().isoformat()] during the call yields. *)
Definition clock := nat -> string.

(** The clock after its first reading. *)
Definition later (c : clock) : clock := fun k => c (S k).

(** The loop of [check_for_unlockable_rewards]; [unlocked_ids] is read
    before the loop, and [k] counts the readings of the clock. *)
Fixpoint unlock_loop (c : clock) (k : nat) (points : Z)
    (unlocked_ids : list string) (rs : list reward) (acc : list unlocked)
  : list unlocked :=
  match rs with
  | [] => acc
  | r :: rs' =>
      if negb (existsb (String.eqb (reward_id r)) unlocked_ids)
         && (point_cost r <=? points)
      then
        unlock_loop c (S k) points unlocked_ids rs'
          (acc ++ [mk_unlocked r (Some (c k)) None])
      else unlock_loop c k points unlocked_ids rs' acc
  end.

(** [check_for_unlockable_rewards()] *)
Definition check_for_unlockable_rewards (c : clock) (st : session_state)
  : session_state :=
  match rewards st, points st with
  | Some rs, Some points =>
      let unlocked := default [] (unlocked_rewards st) in
      let unlocked_ids :=
        map (fun u => reward_id (unlocked_reward u)) unlocked in
      set_unlocked_rewards st
        (unlock_loop c 0 points unlocked_ids rs unlocked)
  | _, _ => st
  end.

(** [award_points(points)]; it returns the new balance. *)
Definition award_points (c : clock) (n : Z) (st : session_state)
  : Z * session_state :=
  let st := set_points st (default 0 (points st) + n) in
  let st := check_for_unlockable_rewards c st in
  (default 0 (points st), st).

(** [complete_task(task_id)]: the time of completion is read before
    [update_task] is called. *)
Definition complete_task (c : clock) (task_id : string)
    (st : session_state) : bool * session_state :=
  let '(result, st) :=
    update_task task_id [Completed true; CompletedAt (c 0%nat)] st in
  if result then (true, snd (award_points (later c) 10 st)) else (false, st).

(** [add_reward(title, description, point_cost, reward_type)]; the
    description, the type and the time of creation are not in the
    record. *)
Definition add_reward (fresh_id : string) (title : string) (point_cost : Z)
    (st : session_state) : reward * session_state :=
  let new_reward := mk_reward fresh_id title point_cost in
  (new_reward, set_rewards st (default [] (rewards st) ++ [new_reward])).

(** The loop that marks the first unlocked copy with the id as redeemed. *)
Fixpoint mark_redeemed (now : string) (reward_id' : string)
    (us : list unlocked) : list unlocked :=
  match us with
  | [] => []
  | u :: us' =>
      if String.eqb (reward_id (unlocked_reward u)) reward_id'
      then mk_unlocked (unlocked_reward u) (unlocked_at u) (Some now) :: us'
      else u :: mark_redeemed now reward_id' us'
  end.

(** [redeem_reward(reward_id)] *)
Definition redeem_reward (c : clock) (reward_id' : string)
    (st : session_state) : bool * session_state :=
  match rewards st, points st with
  | Some rs, Some balance =>
      match find (fun r => String.eqb (reward_id r) reward_id') rs with
      | None => (false, st)
      | Some r =>
          if balance <? point_cost r then (false, st)
          else
            let st := set_points st (balance - point_cost r) in
            let us := default [] (unlocked_rewards st) in
            let us :=
              if negb (existsb
                         (fun u =>
                            String.eqb (reward_id (unlocked_reward u))
                              reward_id') us)
              then us ++ [mk_unlocked r (Some (c 0%nat)) (Some (c 1%nat))]
              else mark_redeemed (c 0%nat) reward_id' us in
            (true, set_unlocked_rewards st us)
      end
  | _, _ => (false, st)
  end.

End Store.

(** * Properties *)

(** ** The calendar *)

Module CalendarFacts.
Import Calendar.

Ltac euclid := Z.to_euclidean_division_equations; lia.

Lemma is_leap_cases y :
  (is_leap y = true /\ (y mod 4 = 0 /\ (y mod 100 <> 0 \/ y mod 400 = 0)))
  \/ (is_leap y = false
      /\ (y mod 4 <> 0 \/ (y mod 100 = 0 /\ y mod 400 <> 0))).
Proof.
  unfold is_leap.
  destruct (Z.eqb_spec (y mod 4) 0), (Z.eqb_spec (y mod 100) 0),
    (Z.eqb_spec (y mod 400) 0); simpl; lia.
Qed.

(** A year has 365 days, and one more when it is a leap year. *)
Lemma days_before_year_succ y :
  days_before_year (y + 1)
  = days_before_year y + 365 + (if is_leap y then 1 else 0).
Proof.
  unfold days_before_year.
  replace (y + 1 - 1) with y by lia.
  destruct (is_leap_cases y) as [[-> H]|[-> H]]; euclid.
Qed.

Lemma days_before_year_mono y k :
  0 <= k -> days_before_year y + 365 * k <= days_before_year (y + k).
Proof.
  intros Hk. revert k Hk. apply natlike_ind.
  - replace (y + 0) with y by lia. lia.
  - intros k Hk IH. replace (y + Z.succ k) with (y + k + 1) by lia.
    rewrite days_before_year_succ. destruct (is_leap (y + k)); lia.
Qed.

Lemma month_cases m :
  1 <= m <= 12 ->
  m = 1 \/ m = 2 \/ m = 3 \/ m = 4 \/ m = 5 \/ m = 6 \/ m = 7 \/ m = 8
  \/ m = 9 \/ m = 10 \/ m = 11 \/ m = 12.
Proof. lia. Qed.

Ltac each_month m :=
  destruct (month_cases m ltac:(lia))
    as [->|[->|[->|[->|[->|[->|[->|[->|[->|[->|[->| ->]]]]]]]]]]].

Lemma date_ok_spec d :
  date_ok d = true <->
  1 <= year d <= 9999 /\ 1 <= month d <= 12
  /\ 1 <= day d <= days_in_month (year d) (month d).
Proof.
  unfold date_ok. rewrite !andb_true_iff, !Z.leb_le. tauto.
Qed.

(** Within a year, a later month starts after every day of an earlier
    one. *)
Lemma days_before_month_next y m1 m2 :
  1 <= m1 -> m1 < m2 -> m2 <= 12 ->
  days_before_month y m1 + days_in_month y m1 <= days_before_month y m2.
Proof.
  intros H1 H2 H3.
  each_month m1; each_month m2; try lia;
    unfold days_before_month, days_in_month; destruct (is_leap y);
    simpl; lia.
Qed.

Lemma days_before_month_bounds y m :
  1 <= m <= 12 ->
  0 <= days_before_month y m
  /\ days_before_month y m + days_in_month y m
     <= 365 + (if is_leap y then 1 else 0).
Proof.
  intros H. each_month m;
    unfold days_before_month, days_in_month; destruct (is_leap y);
    simpl; lia.
Qed.

Lemma days_in_month_le y m : days_in_month y m <= 31.
Proof.
  unfold days_in_month, DAYS_IN_MONTH.
  destruct ((m =? 2) && is_leap y); [lia|].
  destruct m as [|p|p]; try lia.
  do 4 (destruct p as [p|p|]; try lia).
Qed.

(** The ordinal grows with the date. *)
Lemma toordinal_lt a b :
  date_ok a = true -> date_ok b = true ->
  date_compare a b = Lt -> toordinal a < toordinal b.
Proof.
  rewrite !date_ok_spec. intros (Hya & Hma & Hda) (Hyb & Hmb & Hdb).
  unfold date_compare, date_key, toordinal, ymd2ord. simpl.
  destruct (Z.compare_spec (year a) (year b)) as [Hy|Hy|Hy];
    try discriminate.
  - rewrite Hy in *.
    destruct (Z.compare_spec (month a) (month b)) as [Hm|Hm|Hm];
      try discriminate.
    + rewrite Hm in *.
      destruct (Z.compare_spec (day a) (day b)); try discriminate. lia.
    + intros _.
      pose proof (days_before_month_next (year b) (month a) (month b)
                    ltac:(lia) Hm ltac:(lia)). lia.
  - intros _.
    pose proof (days_before_year_mono (year a + 1) (year b - (year a + 1))
                  ltac:(lia)) as Hmono.
    replace (year a + 1 + (year b - (year a + 1))) with (year b) in Hmono
      by lia.
    rewrite days_before_year_succ in Hmono.
    pose proof (days_before_month_bounds (year a) (month a) Hma).
    pose proof (days_before_month_bounds (year b) (month b) Hmb).
    nia.
Qed.

Lemma days_before_year_quad y n400 n100 n4 n1 :
  y = n400 * 400 + n100 * 100 + n4 * 4 + n1 + 1 ->
  0 <= n100 <= 3 -> 0 <= n4 <= 24 -> 0 <= n1 <= 3 ->
  days_before_year y = n400 * 146097 + n100 * 36524 + n4 * 1461 + n1 * 365.
Proof.
  intros -> H100 H4 H1. unfold days_before_year. euclid.
Qed.

Lemma is_leap_quad y n400 n100 n4 n1 :
  y = n400 * 400 + n100 * 100 + n4 * 4 + n1 + 1 ->
  0 <= n100 <= 3 -> 0 <= n4 <= 24 -> 0 <= n1 <= 3 ->
  is_leap y = (n1 =? 3) && (negb (n4 =? 24) || (n100 =? 3)).
Proof.
  intros -> H100 H4 H1.
  destruct (is_leap_cases (n400 * 400 + n100 * 100 + n4 * 4 + n1 + 1))
    as [[-> H]|[-> H]];
    destruct (Z.eqb_spec n1 3), (Z.eqb_spec n4 24), (Z.eqb_spec n100 3);
    simpl; try done; exfalso; euclid.
Qed.

(** The month and the day of the [n]-th day of a year, counted from 0. *)
Lemma month_day_of n (leap : bool) :
  0 <= n < 365 ->
  let m := Z.shiftr (n + 50) 5 in
  let preceding := DAYS_BEFORE_MONTH m + (if (2 <? m) && leap then 1 else 0) in
  let '(m', preceding') :=
    if n <? preceding
    then (m - 1,
          preceding
          - (DAYS_IN_MONTH (m - 1) + (if (m - 1 =? 2) && leap then 1 else 0)))
    else (m, preceding) in
  1 <= m' <= 12
  /\ preceding' = DAYS_BEFORE_MONTH m' + (if (2 <? m') && leap then 1 else 0)
  /\ preceding' <= n
  /\ n < preceding' + (if (m' =? 2) && leap then 29 else DAYS_IN_MONTH m').
Proof.
  intros Hn m preceding.
  assert (1 <= m <= 12) as Hm.
  { unfold m. rewrite Z.shiftr_div_pow2 by lia. change (2 ^ 5) with 32.
    euclid. }
  assert (32 * m <= n + 50 < 32 * m + 32) as Hb.
  { unfold m. rewrite Z.shiftr_div_pow2 by lia. change (2 ^ 5) with 32.
    euclid. }
  subst preceding. clearbody m.
  each_month m; destruct leap; simpl;
    match goal with
    | |- context [Z.ltb n ?p] => destruct (Z.ltb_spec n p)
    end; simpl; lia.
Qed.


(** [fromordinal] inverts [toordinal]. *)
Lemma toordinal_fromordinal n : 1 <= n -> toordinal (fromordinal n) = n.
Proof.
  intros Hn. unfold fromordinal, DI400Y, DI100Y, DI4Y.
  remember (n - 1) as n0 eqn:En0.
  assert (0 <= n0) as Hn0pos by lia.
  replace n with (n0 + 1) by lia. clear En0 Hn n.
  set (n400 := n0 / 146097). set (r := n0 mod 146097).
  set (n100 := r / 36524). set (r2 := r mod 36524).
  set (n4 := r2 / 1461). set (r3 := r2 mod 1461).
  set (n1 := r3 / 365). set (r4 := r3 mod 365).
  cbv zeta.
  assert (n0 = n400 * 146097 + n100 * 36524 + n4 * 1461 + n1 * 365 + r4
          /\ 0 <= n100 <= 4 /\ 0 <= n4 <= 24 /\ 0 <= n1 <= 4
          /\ 0 <= r4 < 365
          /\ (n100 = 4 -> n4 = 0 /\ n1 = 0 /\ r4 = 0)
          /\ (n1 = 4 -> r4 = 0 /\ (n4 <= 23 \/ n100 = 4)))
    as (Hn0 & H100 & H4 & H1 & Hr4 & Hlast400 & Hlast4).
  { subst n400 r n100 r2 n4 r3 n1 r4. euclid. }
  clearbody n400 n100 n4 n1 r4. clear r r2 r3. subst n0.
  destruct (Z.eqb_spec n1 4) as [E1|E1]; simpl.
  - destruct (Hlast4 E1) as [-> Hn4]. unfold toordinal, ymd2ord. simpl.
    assert (n100 <> 4) by (intros E; destruct (Hlast400 E); lia).
    rewrite (days_before_year_quad _ n400 n100 n4 3) by lia.
    unfold days_before_month. simpl.
    rewrite (is_leap_quad _ n400 n100 n4 3) by lia.
    destruct (Z.eqb_spec n4 24); simpl; lia.
  - destruct (Z.eqb_spec n100 4) as [E100|E100]; simpl.
    + destruct (Hlast400 E100) as (-> & -> & ->). subst n100.
      unfold toordinal, ymd2ord. simpl.
      rewrite (days_before_year_quad _ n400 3 24 3) by lia.
      unfold days_before_month. simpl.
      rewrite (is_leap_quad _ n400 3 24 3) by lia. simpl. lia.
    + pose proof (month_day_of r4
                    ((n1 =? 3) && (negb (n4 =? 24) || (n100 =? 3))) Hr4)
        as Hmd.
      cbv zeta in Hmd.
      match type of Hmd with
      | let '(_, _) := ?c in _ => destruct c as [m' preceding']
      end.
      destruct Hmd as (Hm & -> & Hlo & Hhi).
      unfold toordinal, ymd2ord. simpl.
      rewrite (days_before_year_quad _ n400 n100 n4 n1) by lia.
      unfold days_before_month.
      rewrite (is_leap_quad _ n400 n100 n4 n1) by lia. lia.
Qed.

Lemma date_add_days_add d j k :
  1 <= toordinal d + j ->
  date_add_days (date_add_days d j) k = date_add_days d (j + k).
Proof.
  intros H. unfold date_add_days. rewrite toordinal_fromordinal by done.
  f_equal. lia.
Qed.

Lemma toordinal_pos d : date_ok d = true -> 1 <= toordinal d.
Proof.
  intros H. apply date_ok_spec in H. destruct H as (Hy & Hm & Hd).
  pose proof (days_before_year_mono 1 (year d - 1) ltac:(lia)) as Hmono.
  replace (1 + (year d - 1)) with (year d) in Hmono by lia.
  pose proof (days_before_month_bounds (year d) (month d) Hm).
  unfold toordinal, ymd2ord. change (days_before_year 1) with 0 in Hmono.
  lia.
Qed.

Lemma lex_compare_refl l : lex_compare l l = Eq.
Proof.
  induction l as [|x l IH]; simpl; [done|]. by rewrite Z.compare_refl.
Qed.

Lemma lex_compare_opp a :
  forall b, lex_compare b a = CompOpp (lex_compare a b).
Proof.
  induction a as [|x a IH]; intros [|y b]; simpl; try done.
  rewrite (Z.compare_antisym x y). destruct (x ?= y); simpl; auto.
Qed.

Lemma lex_compare_eq a : forall b, lex_compare a b = Eq -> a = b.
Proof.
  induction a as [|x a IH]; intros [|y b]; simpl; try done.
  destruct (Z.compare_spec x y); try done. intros. f_equal; auto.
Qed.

Lemma date_compare_eq a b : date_compare a b = Eq -> a = b.
Proof.
  intros H. apply lex_compare_eq in H. destruct a, b. unfold date_key in H.
  simpl in H. congruence.
Qed.

Lemma date_eqb_refl a : date_eqb a a = true.
Proof. unfold date_eqb, date_compare. by rewrite lex_compare_refl. Qed.

Lemma date_eqb_eq a b : date_eqb a b = true <-> a = b.
Proof.
  split; [|intros ->; apply date_eqb_refl].
  unfold date_eqb. destruct (date_compare a b) eqn:E; try done.
  intros _. by apply date_compare_eq.
Qed.

(** On valid dates the comparison of the fields is that of the
    ordinals. *)
Lemma date_compare_ordinal a b :
  date_ok a = true -> date_ok b = true ->
  date_compare a b = (toordinal a ?= toordinal b).
Proof.
  intros Ha Hb. destruct (date_compare a b) eqn:E.
  - apply date_compare_eq in E. subst. by rewrite Z.compare_refl.
  - symmetry. apply Z.compare_lt_iff. by apply toordinal_lt.
  - symmetry. apply Z.compare_gt_iff. apply toordinal_lt; try done.
    unfold date_compare in *. rewrite lex_compare_opp, E. done.
Qed.

Lemma date_eqb_ordinal a b :
  date_ok a = true -> date_ok b = true ->
  date_eqb a b = (toordinal a =? toordinal b).
Proof.
  intros Ha Hb. unfold date_eqb. rewrite date_compare_ordinal by done.
  destruct (Z.compare_spec (toordinal a) (toordinal b)),
    (Z.eqb_spec (toordinal a) (toordinal b)); done || lia.
Qed.

Lemma midnight_compare a b :
  datetime_compare (midnight a) (midnight b) = date_compare a b.
Proof.
  unfold datetime_compare, date_compare, datetime_key, date_key. simpl.
  destruct (year a ?= year b); done.
Qed.

Lemma midnight_ltb a b :
  date_ok a = true -> date_ok b = true ->
  datetime_ltb (midnight a) (midnight b) = (toordinal a <? toordinal b).
Proof.
  intros Ha Hb. unfold datetime_ltb.
  rewrite midnight_compare, date_compare_ordinal by done.
  unfold Z.ltb. done.
Qed.

Lemma toordinal_inj a b :
  date_ok a = true -> date_ok b = true ->
  toordinal a = toordinal b -> a = b.
Proof.
  intros Ha Hb H. apply date_compare_eq.
  rewrite date_compare_ordinal, H by done. apply Z.compare_refl.
Qed.

End CalendarFacts.

(** ** ISO text *)

Module IsoFacts.
Import Calendar IsoText CalendarFacts.

Lemma digit_of_digit n : 0 <= n <= 9 -> digit_of (digit n) = Some n.
Proof.
  intros H. rewrite <- (Z2Nat.id n) by lia.
  assert (Z.to_nat n < 10)%nat as Hk by lia.
  revert Hk. generalize (Z.to_nat n) as k. intros k Hk.
  do 10 (destruct k as [|k]; [reflexivity|]). lia.
Qed.

Lemma number2_digits n :
  0 <= n < 100 -> number2 (digit (n / 10)) (digit (n mod 10)) = Some n.
Proof.
  intros H. unfold number2.
  rewrite !digit_of_digit by euclid. simpl. f_equal. euclid.
Qed.

Lemma number4_digits n :
  0 <= n < 10000 ->
  number4 (digit (n / 1000)) (digit (n / 100 mod 10))
    (digit (n / 10 mod 10)) (digit (n mod 10)) = Some n.
Proof.
  intros H. unfold number4, number2.
  rewrite !digit_of_digit by euclid. simpl. f_equal. euclid.
Qed.

(** Reading back what [isoformat] wrote gives the date, at midnight. *)
Lemma fromisoformat_isoformat d :
  date_ok d = true -> fromisoformat (isoformat d) = Some (midnight d).
Proof.
  intros Hok. pose proof Hok as Hr. apply date_ok_spec in Hr.
  destruct Hr as (Hy & Hm & Hd).
  pose proof (days_in_month_le (year d) (month d)).
  unfold fromisoformat, isoformat, fmt04, fmt02, parse_isoformat_date.
  simpl.
  rewrite number4_digits, !number2_digits by lia. simpl.
  destruct d as [y m dd]. simpl in *. rewrite Hok. done.
Qed.

Lemma isoformat_inj a b :
  date_ok a = true -> date_ok b = true ->
  isoformat a = isoformat b -> a = b.
Proof.
  intros Ha Hb H. apply fromisoformat_isoformat in Ha, Hb.
  rewrite H in Ha. rewrite Ha in Hb. by injection Hb as ->.
Qed.

Lemma isoformat_fresh a l :
  date_ok a = true ->
  Forall (fun b => date_ok b = true /\ toordinal b <> toordinal a) l ->
  isoformat a ∉ map isoformat l.
Proof.
  intros Ha Hl Hin. apply list_elem_of_In, in_map_iff in Hin.
  destruct Hin as (b & Heq & Hb).
  rewrite Forall_forall in Hl. destruct (Hl b) as [Hok Hne].
  { by apply list_elem_of_In. }
  apply isoformat_inj in Heq; try done. congruence.
Qed.

Lemma mapM_isoformat l :
  Forall (fun b => date_ok b = true) l ->
  mapM fromisoformat (map isoformat l) = Some (map midnight l).
Proof.
  intros Hl. apply mapM_Some. induction Hl; simpl; constructor; auto.
  by apply fromisoformat_isoformat.
Qed.

End IsoFacts.

(** ** Indexing and sorting *)

Module PyFacts.
Import Py.

Lemma position_Some n k :
  - Z.of_nat n <= k < Z.of_nat n ->
  exists p, position n k = Some p /\ (p < n)%nat.
Proof.
  intros H. unfold position.
  destruct (Z.ltb_spec k 0).
  - exists (Z.to_nat (k + Z.of_nat n)).
    destruct (Z.leb_spec 0 (k + Z.of_nat n)),
      (Z.ltb_spec (k + Z.of_nat n) (Z.of_nat n)); simpl; try lia.
    split; [done|lia].
  - exists (Z.to_nat k).
    destruct (Z.leb_spec 0 k), (Z.ltb_spec k (Z.of_nat n)); simpl; try lia.
    split; [done|lia].
Qed.

Lemma index_Some {A} (l : list A) k :
  - Z.of_nat (length l) <= k < Z.of_nat (length l) ->
  exists x, index l k = Some x.
Proof.
  intros H. destruct (position_Some _ _ H) as (p & Hp & Hlt).
  unfold index. rewrite Hp. simpl.
  destruct (lookup_lt_is_Some_2 l p Hlt) as [x Hx]. eauto.
Qed.

(** An assignment at a non-negative index writes there, or the index is
    past the end and it raises. *)
Lemma assign_cases {A} (l : list A) k x :
  0 <= k ->
  (k < Z.of_nat (length l) /\ assign l k x = Some (<[Z.to_nat k:=x]> l))
  \/ (Z.of_nat (length l) <= k /\ assign l k x = None).
Proof.
  intros Hk. unfold assign, position.
  destruct (Z.ltb_spec k 0); [lia|].
  destruct (Z.leb_spec 0 k); [|lia].
  destruct (Z.ltb_spec k (Z.of_nat (length l))); simpl; [left|right]; done.
Qed.

Lemma range_bounds a b : Forall (fun j => a <= j < b) (range a b).
Proof.
  unfold range. apply Forall_forall. intros j Hj.
  apply list_elem_of_In, in_map_iff in Hj. destruct Hj as (k & <- & Hk).
  apply in_seq in Hk. lia.
Qed.

Lemma insert_sorted_length {A} (lt : A -> A -> bool) x l :
  length (insert_sorted lt x l) = S (length l).
Proof.
  induction l as [|y l IH]; simpl; [done|].
  destruct (lt y x); simpl; auto.
Qed.

Lemma sorted_length {A} (lt : A -> A -> bool) l :
  length (sorted lt l) = length l.
Proof.
  induction l as [|x l IH]; simpl; [done|].
  by rewrite insert_sorted_length, <- IH.
Qed.

Lemma elem_of_rev {A} (x : A) l : x ∈ rev l <-> x ∈ l.
Proof. rewrite !list_elem_of_In. symmetry. apply in_rev. Qed.

Lemma take_elem {A} (x : A) n l : x ∈ take n l -> x ∈ l.
Proof. intros H. apply (subseteq_take n l). done. Qed.

Lemma slice_to_3 {A} (l : list A) : slice_to l 3 = take 3 l.
Proof. reflexivity. Qed.

Lemma StronglySorted_on {A} (R R' : A -> A -> Prop) l :
  (forall a b, a ∈ l -> b ∈ l -> R a b -> R' a b) ->
  StronglySorted R l -> StronglySorted R' l.
Proof.
  intros HR Hs. induction Hs as [|x l Hs IH Hx]; constructor.
  - apply IH. intros a b Ha Hb. apply HR; by right.
  - apply Forall_forall. intros y Hy. rewrite Forall_forall in Hx.
    apply HR; [by left|by right|by apply Hx].
Qed.

Lemma StronglySorted_take {A} (R : A -> A -> Prop) n l :
  StronglySorted R l -> StronglySorted R (take n l).
Proof.
  intros Hs. revert n. induction Hs as [|x l Hs IH Hx]; intros [|n]; simpl.
  - constructor.
  - constructor.
  - constructor.
  - constructor; [apply IH|]. by apply Forall_take.
Qed.

(** What [find] finds is the first element that passes the test. *)
Lemma find_first {A} (f : A -> bool) l :
  match find f l with
  | Some x =>
      exists pre post,
        l = pre ++ x :: post /\ f x = true
        /\ Forall (fun y => f y = false) pre
  | None => Forall (fun y => f y = false) l
  end.
Proof.
  induction l as [|y l IH]; simpl; [constructor|].
  destruct (f y) eqn:E.
  - exists [], l. repeat split; done.
  - destruct (find f l) as [x|].
    + destruct IH as (pre & post & -> & Hx & Hpre).
      exists (y :: pre), post. repeat split; try done. by constructor.
    + by constructor.
Qed.

Lemma find_append {A} (f : A -> bool) l1 l2 :
  find f (l1 ++ l2)
  = match find f l1 with Some x => Some x | None => find f l2 end.
Proof.
  induction l1 as [|x l1 IH]; simpl; [done|]. destruct (f x); done.
Qed.

(** Sorting by an integer key. *)
Section Sorting.
Context {A : Type} (key : A -> Z).

Lemma insert_sorted_elem x y l :
  y ∈ insert_sorted (key_lt key) x l <-> y = x \/ y ∈ l.
Proof.
  induction l as [|z l IH]; simpl.
  - rewrite list_elem_of_singleton, elem_of_nil. tauto.
  - destruct (key_lt key z x); rewrite !elem_of_cons, ?IH; tauto.
Qed.

Lemma sorted_elem y l : y ∈ sorted (key_lt key) l <-> y ∈ l.
Proof.
  induction l as [|x l IH]; simpl; [done|].
  rewrite insert_sorted_elem, elem_of_cons, IH. done.
Qed.

Lemma insert_sorted_sorted x l :
  StronglySorted (fun a b => key a <= key b) l ->
  StronglySorted (fun a b => key a <= key b)
    (insert_sorted (key_lt key) x l).
Proof.
  induction 1 as [|z l Hs IH Hz]; simpl.
  - repeat constructor.
  - unfold key_lt at 1.
    destruct (Z.ltb_spec (key z) (key x)) as [Hlt|Hge].
    + constructor; [done|]. apply Forall_forall. intros y Hy.
      apply insert_sorted_elem in Hy. destruct Hy as [->|Hy].
      * lia.
      * rewrite Forall_forall in Hz. by apply Hz.
    + constructor; [by constructor|]. constructor; [done|].
      eapply Forall_impl; [exact Hz|]. intros; simpl in *; lia.
Qed.

Lemma sorted_sorted l :
  StronglySorted (fun a b => key a <= key b) (sorted (key_lt key) l).
Proof.
  induction l as [|x l IH]; simpl; [constructor|].
  by apply insert_sorted_sorted.
Qed.

Lemma StronglySorted_rev l :
  StronglySorted (fun a b => key a <= key b) l ->
  StronglySorted (fun a b => key b <= key a) (rev l).
Proof.
  induction 1 as [|z l Hs IH Hz]; simpl; [constructor|].
  apply StronglySorted_app_2; [|done|repeat constructor].
  intros a b Ha Hb. apply list_elem_of_singleton in Hb. subst.
  rewrite elem_of_rev in Ha. rewrite Forall_forall in Hz. by apply Hz.
Qed.

(** [sorted(l, key=key, reverse=True)] is in descending order of the key,
    and holds the elements of [l]. *)
Lemma sorted_reverse_sorted l :
  StronglySorted (fun a b => key b <= key a) (sorted_reverse key l).
Proof. apply StronglySorted_rev, sorted_sorted. Qed.

Lemma sorted_reverse_elem y l : y ∈ sorted_reverse key l <-> y ∈ l.
Proof.
  unfold sorted_reverse. rewrite elem_of_rev, sorted_elem, elem_of_rev.
  done.
Qed.

Lemma sorted_reverse_length l : length (sorted_reverse key l) = length l.
Proof.
  unfold sorted_reverse. rewrite length_rev, sorted_length, length_rev. done.
Qed.

End Sorting.

End PyFacts.

(** ** The check-in *)

Module CheckInFacts.
Import Calendar IsoText Py DataManager CalendarFacts IsoFacts PyFacts.

(** The walk back never indexes outside the list, never lowers the streak,
    and leaves the loop variable non-negative. *)
Lemma streak_loop_total s rng :
  forall i c,
  Forall (fun j => 1 <= j < Z.of_nat (length s)) rng ->
  0 <= i ->
  exists i' c', streak_loop s rng i c = Some (i', c') /\ c <= c' /\ 0 <= i'.
Proof.
  induction rng as [|j rng IH]; intros i c Hr Hi; simpl.
  - exists i, c. repeat split; lia.
  - inversion Hr as [|? ? Hj Hr']; subst.
    destruct (index_Some s (- j - 1) ltac:(lia)) as [prev ->].
    destruct (index_Some s (- j) ltac:(lia)) as [curr ->]. simpl.
    destruct (date_sub_days (dt_date curr) (dt_date prev) =? 1).
    + destruct (IH j (c + 1) Hr' ltac:(lia)) as (i' & c' & -> & ? & ?).
      exists i', c'. repeat split; lia.
    + exists j, c. repeat split; lia.
Qed.

Lemma walk_back_total d s mr i c :
  0 <= i ->
  exists i' c', walk_back d s mr i c = Some (i', c') /\ c <= c' /\ 0 <= i'.
Proof.
  intros Hi. unfold walk_back. destruct (date_eqb mr d).
  - apply streak_loop_total; [apply range_bounds|done].
  - exists i, c. repeat split; lia.
Qed.

Lemma find_habit_spec objs hid hs :
  forall i k r h,
  find_habit objs hid hs i = Some (k, r, h) ->
  objs !! r = Some h /\ id h = hid /\ i <= k
  /\ hs !! Z.to_nat (k - i) = Some r.
Proof.
  induction hs as [|r0 hs IH]; intros i k r h; simpl; [done|].
  destruct (objs !! r0) as [h0|] eqn:E0; simpl; [|done].
  destruct (String.eqb_spec (id h0) hid) as [Hid|Hid].
  - intros [= <- <- <-]. replace (i - i) with 0 by lia. done.
  - intros H. destruct (IH _ _ _ _ H) as (? & ? & ? & Hl).
    repeat split; try done; try lia.
    replace (Z.to_nat (k - i)) with (S (Z.to_nat (k - (i + 1)))) by lia.
    done.
Qed.

(** The outer loop runs the body on the habit that the id identifies. *)
Lemma check_in_scan_found hid d st hs :
  forall i k r h,
  find_habit (objects st) hid hs i = Some (k, r, h) ->
  check_in_scan hid d st hs i = check_in_found d st r h k.
Proof.
  induction hs as [|r0 hs IH]; intros i k r h; simpl; [done|].
  destruct (objects st !! r0) as [h0|]; simpl; [|done].
  destruct (String.eqb (id h0) hid).
  - by intros [= <- <- <-].
  - apply IH.
Qed.

(** Without such a habit the call does not succeed. *)
Lemma check_in_scan_not_found hid d st hs :
  forall i,
  find_habit (objects st) hid hs i = None ->
  check_in_scan hid d st hs i = (Return false, st)
  \/ check_in_scan hid d st hs i = (Raise ReferenceError, st).
Proof.
  induction hs as [|r0 hs IH]; intros i; simpl; [by left|].
  destruct (objects st !! r0) as [h0|]; simpl; [|by right].
  destruct (String.eqb (id h0) hid); [done|]. apply IH.
Qed.

(** After the object is rewritten, and whatever single entry of the list
    is overwritten with its reference, the id still identifies it. *)
Lemma find_habit_after objs hid hs h' :
  forall i k r h p,
  find_habit objs hid hs i = Some (k, r, h) ->
  id h' = id h ->
  exists k',
    find_habit (<[r:=h']> objs) hid (<[p:=r]> hs) i = Some (k', r, h').
Proof.
  induction hs as [|r0 hs IH]; intros i k r h p; simpl; [done|].
  destruct (objs !! r0) as [h0|] eqn:E0; simpl; [|done].
  destruct (String.eqb_spec (id h0) hid) as [Hid|Hid].
  - intros [= <- <- <-] Hid'.
    exists i. destruct p; simpl; rewrite lookup_insert_eq; simpl;
      rewrite Hid', Hid, String.eqb_refl; done.
  - intros H Hid'.
    destruct (find_habit_spec _ _ _ _ _ _ _ H) as (Hr & Hidh & _).
    assert (r0 <> r) as Hne by (intros ->; congruence).
    destruct p; simpl.
    + exists i. rewrite lookup_insert_eq. simpl.
      rewrite Hid', Hidh, String.eqb_refl. done.
    + rewrite lookup_insert_ne by done. rewrite E0. simpl.
      destruct (String.eqb_spec (id h0) hid); [done|].
      eapply IH; eauto.
Qed.

Lemma find_habit_after_same objs hid hs h' i k r h :
  find_habit objs hid hs i = Some (k, r, h) ->
  id h' = id h ->
  exists k', find_habit (<[r:=h']> objs) hid hs i = Some (k', r, h').
Proof.
  intros H Hid.
  destruct (find_habit_after objs hid hs h' i k r h (length hs) H Hid)
    as [k' Hk'].
  rewrite list_insert_ge in Hk' by lia. eauto.
Qed.

End CheckInFacts.

Module CheckInEffects.
Import Calendar IsoText Py DataManager CalendarFacts IsoFacts PyFacts
  CheckInFacts.

(** The body on a date that is not recorded yet, all recorded dates being
    readable: the habit is rewritten, and either the call returns [True]
    after overwriting the entry at the position that the inner loop left in
    [i], or that position is outside the list and the call raises. *)
Lemma check_in_found_fresh d st hs r h k parsed :
  habits st = Some hs ->
  0 <= k ->
  isoformat d ∉ default [] (check_ins h) ->
  mapM fromisoformat (default [] (check_ins h) ++ [isoformat d])
    = Some parsed ->
  exists last i' cur,
    index (sorted datetime_ltb parsed) (-1) = Some last
    /\ walk_back d (sorted datetime_ltb parsed) (dt_date last) k 1
       = Some (i', cur)
    /\ 1 <= cur /\ 0 <= i'
    /\ let h' := checked_in h (isoformat d) cur in
       ((i' < Z.of_nat (length hs)
         /\ check_in_found d st r h k
            = (Return true,
               mk_session (<[r:=h']> (objects st))
                 (Some (<[Z.to_nat i':=r]> hs))
                 (Some (default 0 (points st) + 5))))
        \/ (Z.of_nat (length hs) <= i'
            /\ check_in_found d st r h k
               = (Raise IndexError,
                  mk_session (<[r:=h']> (objects st)) (Some hs)
                    (points st)))).
Proof.
  intros Hhs Hk Hfresh Hparse.
  assert (length parsed = S (length (default [] (check_ins h)))) as Hlen.
  { apply length_mapM in Hparse. rewrite length_app in Hparse.
    simpl in *. lia. }
  destruct (index_Some (sorted datetime_ltb parsed) (-1)) as [last Hlast].
  { rewrite sorted_length. lia. }
  destruct (walk_back_total d (sorted datetime_ltb parsed) (dt_date last)
              k 1 Hk) as (i' & cur & Hw & Hcur & Hi').
  exists last, i', cur. repeat split; try done.
  unfold check_in_found.
  rewrite bool_decide_eq_false_2 by done.
  cbn [set_check_ins check_ins from_option Datatypes.id].
  rewrite Hparse, Hlast, Hw.
  cbn [habits set_object from_option Datatypes.id]. rewrite Hhs.
  cbn [from_option Datatypes.id].
  destruct (assign_cases hs i' r Hi') as [[Hlt ->]|[Hge ->]]; [left|right];
    (split; [done|]);
    unfold award_points, set_habits, set_object, raise_with, checked_in,
      set_best_streak, set_current_streak, set_check_ins; simpl;
    rewrite insert_insert_eq, ?Hhs; reflexivity.
Qed.

(** One call of [check_in_habit] on a new date: the identified habit is
    rewritten with the counted streak, and the id identifies the same
    object afterwards, whether the call returned or raised. *)
Lemma check_in_habit_fresh today hid date st hs k r h parsed :
  habits st = Some hs ->
  find_habit (objects st) hid hs 0 = Some (k, r, h) ->
  let d := default today date in
  isoformat d ∉ default [] (check_ins h) ->
  mapM fromisoformat (default [] (check_ins h) ++ [isoformat d])
    = Some parsed ->
  exists last i' cur out st' hs' k',
    index (sorted datetime_ltb parsed) (-1) = Some last
    /\ walk_back d (sorted datetime_ltb parsed) (dt_date last) k 1
       = Some (i', cur)
    /\ 1 <= cur
    /\ check_in_habit today hid date st = (out, st')
    /\ (out = Return true \/ out = Raise IndexError)
    /\ objects st' = <[r:=checked_in h (isoformat d) cur]> (objects st)
    /\ habits st' = Some hs'
    /\ find_habit (objects st') hid hs' 0
       = Some (k', r, checked_in h (isoformat d) cur).
Proof.
  intros Hhs Hfind d Hfresh Hparse.
  destruct (find_habit_spec _ _ _ _ _ _ _ Hfind) as (_ & _ & Hk & _).
  destruct (check_in_found_fresh d st hs r h k parsed Hhs Hk Hfresh Hparse)
    as (last & i' & cur & Hlast & Hw & Hcur & Hi' & Hcall).
  exists last, i', cur.
  unfold check_in_habit. rewrite Hhs. fold d.
  rewrite (check_in_scan_found _ _ _ _ _ _ _ _ Hfind).
  destruct Hcall as [[Hlt ->]|[Hge ->]].
  - destruct (find_habit_after (objects st) hid hs
                (checked_in h (isoformat d) cur) 0 k r h (Z.to_nat i')
                Hfind eq_refl) as [k' Hk'].
    eexists _, _, _, k'. repeat split; eauto.
  - destruct (find_habit_after_same (objects st) hid hs
                (checked_in h (isoformat d) cur) 0 k r h Hfind eq_refl)
      as [k' Hk'].
    eexists _, _, _, k'. repeat split; eauto.
Qed.

(** A call on a new valid date, for a habit whose recorded dates are the
    ISO texts of valid dates. *)
Lemma check_in_habit_dates today hid st hs k r h ds d :
  habits st = Some hs ->
  find_habit (objects st) hid hs 0 = Some (k, r, h) ->
  default [] (check_ins h) = map isoformat ds ->
  Forall (fun b => date_ok b = true /\ toordinal b <> toordinal d) ds ->
  date_ok d = true ->
  exists last i' cur hs' k',
    index (sorted datetime_ltb (map midnight (ds ++ [d]))) (-1) = Some last
    /\ walk_back d (sorted datetime_ltb (map midnight (ds ++ [d])))
         (dt_date last) k 1 = Some (i', cur)
    /\ let st' := snd (check_in_habit today hid (Some d) st) in
       let h' := checked_in h (isoformat d) cur in
       habits st' = Some hs'
       /\ find_habit (objects st') hid hs' 0 = Some (k', r, h')
       /\ default [] (check_ins h') = map isoformat (ds ++ [d]).
Proof.
  intros Hhs Hfind Hcis Hds Hd.
  assert (mapM fromisoformat (default [] (check_ins h) ++ [isoformat d])
          = Some (map midnight (ds ++ [d]))) as Hparse.
  { rewrite Hcis. change [isoformat d] with (map isoformat [d]).
    rewrite <- map_app. apply mapM_isoformat.
    apply Forall_app. split; [|by repeat constructor].
    eapply Forall_impl; [exact Hds|]. by intros ? []. }
  destruct (check_in_habit_fresh today hid (Some d) st hs k r h
              (map midnight (ds ++ [d])) Hhs Hfind)
    as (last & i' & cur & out & st' & hs' & k' & Hlast & Hw & _ & Hcall
        & _ & _ & Hhs' & Hfind').
  { simpl. rewrite Hcis. by apply isoformat_fresh. }
  { exact Hparse. }
  exists last, i', cur, hs', k'. simpl in *. rewrite Hcall. simpl.
  repeat split; try done.
  rewrite Hcis, map_app. done.
Qed.

(** Comparisons of the days at hand are decided on their ordinals. *)
Ltac ordinals :=
  repeat match goal with
  | |- context [datetime_ltb (midnight ?a) (midnight ?b)] =>
      rewrite (midnight_ltb a b) by done
  | |- context [date_eqb ?a ?b] =>
      is_var a; is_var b; rewrite (date_eqb_ordinal a b) by done
  | |- context [Z.ltb (toordinal ?a) (toordinal ?b)] =>
      is_var a; is_var b;
      destruct (Z.ltb_spec (toordinal a) (toordinal b)); try lia
  | |- context [Z.eqb (toordinal ?a) (toordinal ?b)] =>
      is_var a; is_var b;
      destruct (Z.eqb_spec (toordinal a) (toordinal b)); try lia
  | |- context [Z.eqb (toordinal ?a - toordinal ?b) 1] =>
      is_var a; is_var b;
      destruct (Z.eqb_spec (toordinal a - toordinal b) 1); try lia
  end.

End CheckInEffects.

(** ** [check_in_habit]: the claims *)

Module CheckInClaims.
Import Calendar IsoText Py DataManager CalendarFacts IsoFacts PyFacts
  CheckInFacts CheckInEffects Examples.

(** C1, as stated, fails: checked in on 12, 10 and then 11 March, the
    streaks are 1 after the last call. *)
Lemma check_in_any_order_counterexample :
  let st := check_in_each (march 1) "h1" [march 12; march 10; march 11]
              one_habit in
  exists h,
    find_habit (objects st) "h1" (default [] (habits st)) 0
      = Some (0, 0%nat, h)
    /\ check_ins h
       = Some ["2024-03-12"; "2024-03-10"; "2024-03-11"]%string
    /\ current_streak h = Some 1
    /\ best_streak h = Some 1
    /\ ~ (current_streak h = Some 3 /\ best_streak h = Some 3).
Proof.
  vm_compute. eexists. split; [reflexivity|]. repeat split.
  intros [H _]. discriminate H.
Qed.

(** C1 as amended. A habit without check-ins and with best streak 0 is
    checked in on three consecutive days [d0], [d1], [d2], the call for
    [d2] being the last one and the two others coming in either order.
    After the last call the current streak and the best streak are 3. *)
Theorem check_in_consecutive_days today hid st hs k r h d0 d1 d2 a b :
  habits st = Some hs ->
  find_habit (objects st) hid hs 0 = Some (k, r, h) ->
  default [] (check_ins h) = [] ->
  default 0 (best_streak h) = 0 ->
  date_ok d0 = true -> date_ok d1 = true -> date_ok d2 = true ->
  toordinal d1 = toordinal d0 + 1 ->
  toordinal d2 = toordinal d1 + 1 ->
  (a = d0 /\ b = d1) \/ (a = d1 /\ b = d0) ->
  let st' := check_in_each today hid [a; b; d2] st in
  exists hs' k' h',
    habits st' = Some hs'
    /\ find_habit (objects st') hid hs' 0 = Some (k', r, h')
    /\ current_streak h' = Some 3
    /\ best_streak h' = Some 3.
Proof.
  intros Hhs Hfind Hcis Hbest H0 H1 H2 E1 E2 Hab st'.
  subst st'. unfold check_in_each. simpl.
  assert (date_ok a = true /\ date_ok b = true) as [Ha Hb]
    by (destruct Hab as [[-> ->]|[-> ->]]; done).
  destruct (check_in_habit_dates today hid st hs k r h [] a Hhs Hfind Hcis)
    as (l1 & i1 & c1 & hs1 & k1 & Hl1 & Hw1 & Hhs1 & Hf1 & Hc1);
    [by constructor|done|].
  set (st1 := snd (check_in_habit today hid (Some a) st)) in *.
  destruct (check_in_habit_dates today hid st1 hs1 k1 r _ [a] b Hhs1 Hf1 Hc1)
    as (l2 & i2 & c2 & hs2 & k2 & Hl2 & Hw2 & Hhs2 & Hf2 & Hc2); [|done|].
  { repeat constructor; try done. destruct Hab as [[-> ->]|[-> ->]]; lia. }
  set (st2 := snd (check_in_habit today hid (Some b) st1)) in *.
  destruct (check_in_habit_dates today hid st2 hs2 k2 r _ [a; b] d2
              Hhs2 Hf2 Hc2)
    as (l3 & i3 & c3 & hs3 & k3 & Hl3 & Hw3 & Hhs3 & Hf3 & Hc3); [|done|].
  { repeat constructor; try done; destruct Hab as [[-> ->]|[-> ->]]; lia. }
  exists hs3, k3. eexists. split; [exact Hhs3|]. split; [exact Hf3|].
  clear Hhs1 Hf1 Hc1 Hhs2 Hf2 Hc2 Hhs3 Hf3 Hc3 st1 st2.
  revert Hl1 Hw1 Hl2 Hw2 Hl3 Hw3.
  destruct Hab as [[-> ->]|[-> ->]]; simpl; rewrite Hbest;
    repeat (progress (simpl; ordinals));
    unfold index, position, walk_back, range, date_sub_days;
    repeat (progress (simpl; ordinals));
    intros [= <-] Hw1 [= <-] Hw2 [= <-] Hw3; revert Hw1 Hw2 Hw3;
    unfold date_sub_days; simpl; ordinals;
    intros [= _ <-] [= _ <-] [= _ <-]; split; f_equal; lia.
Qed.

Lemma check_in_consecutive_days_witness :
  let st' := check_in_each (march 1) "h1" [march 11; march 10; march 12]
               one_habit in
  exists hs' k' h',
    habits st' = Some hs'
    /\ find_habit (objects st') "h1" hs' 0 = Some (k', 0%nat, h')
    /\ current_streak h' = Some 3
    /\ best_streak h' = Some 3.
Proof.
  apply (check_in_consecutive_days (march 1) "h1" one_habit [0%nat] 0 0%nat
           run_habit (march 10) (march 11) (march 12) (march 11) (march 10));
    try reflexivity.
  right. split; reflexivity.
Defined.

(** The loop variable that the write-back reads, for a habit at the head
    of the list with one recorded day [d0], checked in on a later day [d]:
    the inner loop ran once and left 1 in it. *)
Lemma check_in_second_day today hid st r hs h d0 d :
  habits st = Some (r :: hs) ->
  objects st !! r = Some h ->
  id h = hid ->
  check_ins h = Some [isoformat d0] ->
  date_ok d0 = true -> date_ok d = true ->
  toordinal d0 < toordinal d ->
  exists cur,
    let h' := checked_in h (isoformat d) cur in
    (hs = []
     /\ check_in_habit today hid (Some d) st
        = (Raise IndexError,
           mk_session (<[r:=h']> (objects st)) (Some [r]) (points st)))
    \/ (exists r' hs',
          hs = r' :: hs'
          /\ check_in_habit today hid (Some d) st
             = (Return true,
                mk_session (<[r:=h']> (objects st)) (Some (r :: r :: hs'))
                  (Some (default 0 (points st) + 5)))).
Proof.
  intros Hhs Hr Hid Hcis H0 Hd Hlt.
  assert (find_habit (objects st) hid (r :: hs) 0 = Some (0, r, h))
    as Hfind.
  { simpl. rewrite Hr. simpl. rewrite Hid, String.eqb_refl. done. }
  destruct (check_in_found_fresh d st (r :: hs) r h 0
              (map midnight ([d0] ++ [d])) Hhs ltac:(lia))
    as (last & i' & cur & Hlast & Hw & _ & _ & Hcall).
  { rewrite Hcis. apply (isoformat_fresh d [d0]); [done|].
    repeat constructor; [done|lia]. }
  { rewrite Hcis. apply (mapM_isoformat [d0; d]). by repeat constructor. }
  exists cur. unfold check_in_habit. rewrite Hhs. simpl default.
  rewrite (check_in_scan_found _ _ _ _ _ _ _ _ Hfind).
  revert Hlast Hw. simpl. ordinals.
  unfold index, position, walk_back, range, date_sub_days. simpl.
  intros [= <-]. simpl. ordinals. intros Hw.
  assert (i' = 1) as -> by (destruct (_ =? 1) in Hw; by injection Hw).
  destruct hs as [|r' hs']; [left|right].
  - destruct Hcall as [[Hi _]|[_ ->]]; [simpl in Hi; lia|done].
  - exists r', hs'.
    destruct Hcall as [[_ ->]|[Hi _]]; [done|simpl in Hi; lia].
Qed.

(** C2: a single habit checked in on 10 March is checked in on 11 March.
    The inner loop leaves 1 in [i], the list has one entry, and the final
    assignment raises [IndexError], after the habit was rewritten and
    before the points are awarded. *)
Theorem check_in_raises_index_error :
  check_in_habit (march 1) "h1" (Some (march 11)) one_habit_day10
  = (Raise IndexError,
     mk_session
       {[ 0%nat := mk_habit "h1" "Run" "daily"
                     (Some ["2024-03-10"; "2024-03-11"]%string)
                     (Some 2) (Some 2) ]}
       (Some [0%nat]) (Some 5)).
Proof. vm_compute. reflexivity. Qed.

(** C3: with a second habit in the list, the same call returns [True] and
    the entry of the second habit now refers to the first one. *)
Theorem check_in_overwrites_other_entry :
  let '(result, st) :=
    check_in_habit (march 1) "h1" (Some (march 11)) two_habits_day10 in
  result = Return true
  /\ habits two_habits_day10 = Some [0%nat; 1%nat]
  /\ habits st = Some [0%nat; 0%nat]
  /\ (id <$> (default [] (habits st) !! 1%nat ≫= (objects st !!.)))
     = Some "h1"%string.
Proof. vm_compute. repeat split. Qed.

(** C7. A check-in on a date that the habit already records returns
    [False] and leaves the session, the habit included, as it was. *)
Theorem check_in_duplicate_unchanged today hid date st hs k r h :
  habits st = Some hs ->
  find_habit (objects st) hid hs 0 = Some (k, r, h) ->
  isoformat (default today date) ∈ default [] (check_ins h) ->
  check_in_habit today hid date st = (Return false, st).
Proof.
  intros Hhs Hfind Hdup. unfold check_in_habit. rewrite Hhs.
  rewrite (check_in_scan_found _ _ _ _ _ _ _ _ Hfind).
  unfold check_in_found. by rewrite bool_decide_eq_true_2.
Qed.

Lemma check_in_duplicate_unchanged_witness :
  check_in_habit (march 1) "h1" (Some (march 10)) one_habit_day10
  = (Return false, one_habit_day10).
Proof.
  apply (check_in_duplicate_unchanged (march 1) "h1" (Some (march 10))
           one_habit_day10 [0%nat] 0 0%nat run_habit_day10).
  - reflexivity.
  - vm_compute. reflexivity.
  - vm_compute. left.
Defined.

(** C8. After a call that returns [True] the habit's current streak is at
    most its best streak, and the best streak is the larger of its value
    before the call (0 when missing) and the new current streak: it is at
    least 1 and not below the value before. *)
Theorem check_in_success_streaks today hid date st st' :
  check_in_habit today hid date st = (Return true, st') ->
  exists hs k r h h' cur best,
    habits st = Some hs
    /\ find_habit (objects st) hid hs 0 = Some (k, r, h)
    /\ objects st' !! r = Some h'
    /\ current_streak h' = Some cur
    /\ best_streak h' = Some best
    /\ cur <= best
    /\ best = Z.max (default 0 (best_streak h)) cur
    /\ default 0 (best_streak h) <= best
    /\ 1 <= best.
Proof.
  intros Hcall. pose proof Hcall as Hcall0. unfold check_in_habit in Hcall.
  destruct (habits st) as [hs|] eqn:Hhs; [|done].
  destruct (find_habit (objects st) hid hs 0) as [[[k r] h]|] eqn:Hfind.
  2: { destruct (check_in_scan_not_found hid (default today date) st hs 0
                   Hfind) as [E|E]; rewrite E in Hcall; done. }
  rewrite (check_in_scan_found _ _ _ _ _ _ _ _ Hfind) in Hcall.
  destruct (decide (isoformat (default today date)
                    ∈ default [] (check_ins h))) as [Hdup|Hfresh].
  { unfold check_in_found in Hcall.
    rewrite bool_decide_eq_true_2 in Hcall by done. done. }
  destruct (mapM fromisoformat
              (default [] (check_ins h) ++ [isoformat (default today date)]))
    as [parsed|] eqn:Hparse.
  - destruct (check_in_habit_fresh today hid date st hs k r h parsed
                Hhs Hfind Hfresh Hparse)
      as (last & i' & cur & out & st2 & hs' & k' & _ & _ & Hcur & Hc & _
          & Hobj & _ & _).
    rewrite Hcall0 in Hc. injection Hc as <- <-.
    exists hs, k, r, h, (checked_in h (isoformat (default today date)) cur),
      cur, (Z.max (Z.max (default 0 (best_streak h)) 1) cur).
    rewrite Hobj, lookup_insert_eq. simpl. repeat split; try done; lia.
  - unfold check_in_found in Hcall.
    rewrite bool_decide_eq_false_2 in Hcall by done.
    cbn [set_check_ins check_ins from_option Datatypes.id] in Hcall.
    rewrite Hparse in Hcall. done.
Qed.

Lemma check_in_success_streaks_witness :
  exists hs k r h h' cur best,
    habits one_habit = Some hs
    /\ find_habit (objects one_habit) "h1" hs 0 = Some (k, r, h)
    /\ objects one_habit_day10 !! r = Some h'
    /\ current_streak h' = Some cur
    /\ best_streak h' = Some best
    /\ cur <= best
    /\ best = Z.max (default 0 (best_streak h)) cur
    /\ default 0 (best_streak h) <= best
    /\ 1 <= best.
Proof.
  apply (check_in_success_streaks (march 1) "h1" (Some (march 10))
           one_habit one_habit_day10).
  vm_compute. reflexivity.
Defined.

End CheckInClaims.

(** ** [estimate_task_parameters]: the claims *)

Module EstimateClaims.
Import Text TaskClassifier.

Lemma scan_keywords_found level keywords text score :
  scan_keywords level keywords text score
  = if existsb (fun keyword => contains keyword text) keywords
    then level_score level else score.
Proof.
  induction keywords as [|keyword keywords IH]; simpl; [done|].
  destruct (contains keyword text); simpl; [done|apply IH].
Qed.

(** What the scan of three tiers computes from the default 3: the high
    tier decides first, then the low tier; the medium tier decides
    nothing. *)
Lemma scan_levels_tiers high medium low text :
  scan_levels [("high", high); ("medium", medium); ("low", low)]%string
    text 3
  = if existsb (fun keyword => contains keyword text) high then 5
    else if existsb (fun keyword => contains keyword text) low then 1
    else 3.
Proof.
  simpl. rewrite !scan_keywords_found.
  destruct (existsb _ high); [done|]. simpl.
  destruct (existsb _ medium); simpl; destruct (existsb _ low); done.
Qed.

(** C4: a medium keyword with a low one. The medium tier leaves the score
    at 3, which the outer loop takes for "nothing found", and the low tier
    sets 1; so it is for the importance and for the urgency. *)
Theorem estimate_medium_then_low :
  contains "necessary" (lower "necessary optional ") = true
  /\ estimate_task_parameters "necessary optional" "" = (1, 3)
  /\ contains "tomorrow" (lower "tomorrow later ") = true
  /\ estimate_task_parameters "tomorrow later" "" = (3, 1).
Proof. vm_compute. repeat split. Qed.

End EstimateClaims.

(** ** [suggest_time_slot]: the claims *)

Module SuggestClaims.
Import Calendar IsoText Py Text TaskClassifier CalendarPage CalendarFacts
  PyFacts Examples.

(** On naive times the test of the code is the overlap test. *)
Lemma conflicts_naive potential_start potential_end s e :
  conflicts potential_start potential_end (Naive s, Naive e)
  = Return (overlaps s e potential_start potential_end).
Proof.
  unfold conflicts, overlaps. simpl.
  destruct (datetime_leb s potential_start),
    (datetime_ltb potential_start e), (datetime_ltb s potential_end),
    (datetime_leb potential_end e); reflexivity.
Qed.

Lemma any_conflicts_naive potential_start potential_end periods :
  any_conflicts potential_start potential_end
    (map (fun p => (Naive (fst p), Naive (snd p))) periods)
  = Return
      (existsb
         (fun p => overlaps (fst p) (snd p) potential_start potential_end)
         periods).
Proof.
  induction periods as [|[s e] periods IH]; [done|].
  cbn [map any_conflicts fst snd existsb]. rewrite conflicts_naive.
  cbn [and_then]. destruct (overlaps s e _ _); [done|apply IH].
Qed.

Lemma slot_free_conflicts periods s :
  slot_free periods s
  = negb (existsb
            (fun p => overlaps (fst p) (snd p) s (add_minutes s 60))
            periods).
Proof.
  unfold slot_free. induction periods as [|[es ee] ps IH]; simpl; [done|].
  rewrite IH, negb_orb. done.
Qed.

(** The periods that the code collects from events whose times are naive
    or not read. *)
Lemma busy_event_periods read events periods :
  busy read events periods ->
  event_periods read events
  = map (fun p => (Naive (fst p), Naive (snd p))) periods.
Proof.
  unfold event_periods.
  induction 1 as [|e events periods ts te s0 e0 Hs He Hrs Hre _ IH
                  |e events periods Hun _ IH]; [done| |].
  - cbn [omap list_omap]. unfold parse_event at 1.
    rewrite Hs, He. simpl. rewrite Hrs, Hre. simpl. by rewrite IH.
  - cbn [omap list_omap]. unfold parse_event at 1.
    destruct Hun as [-> | Hun]; simpl; [done|].
    destruct (start_time e ≫= read); simpl; [|done].
    by rewrite Hun.
Qed.

Lemma scan_hours_find periods d hours :
  scan_hours (map (fun p => (Naive (fst p), Naive (snd p))) periods) d hours
  = Return (find (slot_free periods) (map (slot_at d) hours)).
Proof.
  induction hours as [|h hours IH]; [done|].
  cbn [scan_hours map find]. rewrite any_conflicts_naive, slot_free_conflicts.
  cbn [and_then]. destruct (negb (existsb _ periods)); [done|apply IH].
Qed.

(** The day that the loop has reached is [j] days after today. *)
Lemma scan_days_find periods hours today days :
  forall j,
  1 <= toordinal today + j ->
  scan_days (map (fun p => (Naive (fst p), Naive (snd p))) periods) hours
    (date_add_days today j) days
  = Return
      (find (slot_free periods)
         (flat_map (fun k => map (slot_at (date_add_days today k)) hours)
            (map (fun i => j + Z.of_nat i) (seq 0 (length days))))).
Proof.
  induction days as [|x days IH]; intros j Hj; [done|].
  cbn [scan_days length seq map flat_map].
  rewrite find_append, scan_hours_find, Z.add_0_r. cbn [and_then].
  destruct (find _ (map (slot_at (date_add_days today j)) hours)); [done|].
  rewrite date_add_days_add, IH by lia.
  rewrite <- seq_shift, map_map. do 3 f_equal.
  apply map_ext. intros i. lia.
Qed.


(** The hours of the code are the hours of the specification. *)
Lemma peak_hours_range (peak : option string) :
  peak_hours (default "Morning"%string peak)
  = range (fst (preferred_range peak)) (snd (preferred_range peak)).
Proof.
  destruct peak as [peak|]; [|reflexivity].
  cbn [from_option Datatypes.id]. unfold peak_hours, preferred_range.
  repeat match goal with
  | |- context [String.eqb ?a ?b] => destruct (String.eqb a b)
  end; reflexivity.
Qed.

Lemma preferred_range_bounds (peak : option string) :
  let '(lo, hi) := preferred_range peak in
  8 <= lo /\ lo < hi /\ hi <= 24
  /\ index (range lo hi) 0 = Some lo /\ head (range lo hi) = Some lo.
Proof.
  destruct peak as [peak|]; unfold preferred_range;
    repeat match goal with
    | |- context [String.eqb ?a ?b] => destruct (String.eqb a b)
    end; repeat split; try lia; reflexivity.
Qed.

(** C5. Without a profile, or with an empty one, the call returns the bare
    hour 9 and 60 minutes at once, for every task and every list of
    events: no slot is searched, the start is no datetime and the
    duration is not computed from the task. The page that calls it reads
    a missing profile as the empty one and adds the duration to the
    start, which raises [TypeError]. *)
Theorem suggest_without_profile_bare_hour read now now' t events :
  suggest_time_slot read now now' t None events = Return (StartHour 9, 60)
  /\ suggest_time_slot read now now' t (Some ∅) events
     = Return (StartHour 9, 60)
  /\ suggested_slot read now now' t None events = Raise TypeError
  /\ suggested_slot read now now' t (Some ∅) events = Raise TypeError.
Proof. repeat split; reflexivity. Qed.



End SuggestClaims.

(** ** [get_next_tasks]: the claims *)

Module RankClaims.
Import Py TaskClassifier PyFacts Examples.

Lemma get_next_tasks_eq (tasks : list task) (n : Z) :
  tasks <> [] ->
  get_next_tasks tasks n
  = (map (fun t => if incomplete t then score t else t) tasks,
     slice_to
       (sorted_reverse (fun x => default 0 (priority_score x))
          (map score (filter (fun t => incomplete t) tasks))) n).
Proof. by destruct tasks. Qed.

(** C6, as stated, fails: the call writes [priority_score] into the
    incomplete task of the caller's list. *)
Lemma get_next_tasks_counterexample :
  fst (get_next_tasks [report_task; done_task] 3)
  <> [report_task; done_task]
  /\ priority_score report_task = None
  /\ priority_score <$> fst (get_next_tasks [report_task; done_task] 3)
     = [Some 8; None].
Proof. vm_compute. repeat split. intros H. discriminate H. Qed.

(** C6 as amended. The call leaves the list with the same tasks in the
    same order; a completed task is unchanged, and an incomplete one
    differs at most in [priority_score], which holds importance times
    urgency. *)
Theorem get_next_tasks_writes_score (tasks : list task) (top_n : Z) :
  let tasks' := fst (get_next_tasks tasks top_n) in
  length tasks' = length tasks
  /\ forall (i : nat) (t : task),
       tasks !! i = Some t ->
       exists t' : task,
         tasks' !! i = Some t'
         /\ title t' = title t /\ description t' = description t
         /\ completed t' = completed t /\ importance t' = importance t
         /\ urgency t' = urgency t
         /\ (incomplete t = false -> t' = t)
         /\ (incomplete t = true -> priority_score t' = Some (priority t)).
Proof.
  destruct (decide (tasks = [])) as [->|Hne]; [by split|].
  rewrite (get_next_tasks_eq tasks top_n Hne). cbn [fst]. split.
  - by rewrite length_map.
  - intros i t Hi. change map with (@fmap list _).
    rewrite list_lookup_fmap, Hi. simpl.
    eexists. split; [done|].
    destruct (incomplete t); repeat split; done.
Qed.

(** C10. With [top_n = 3], the returned tasks are not completed, there are
    at most [min 3] (number of incomplete tasks) of them, and they are in
    descending order of importance times urgency (3 for a missing one). *)
Theorem get_next_tasks_top3 (tasks : list task) :
  let result := snd (get_next_tasks tasks 3) in
  Forall (fun t => completed t <> Some true) result
  /\ (length result
      <= Nat.min 3 (length (filter (fun t => incomplete t) tasks)))%nat
  /\ StronglySorted (fun a b => priority b <= priority a) result.
Proof.
  destruct (decide (tasks = [])) as [->|Hne].
  { simpl. repeat split; try constructor. }
  rewrite (get_next_tasks_eq tasks 3 Hne), slice_to_3. cbn [snd].
  set (l := map score (filter (fun t => incomplete t) tasks)).
  assert (forall t, t ∈ l -> exists t', t = score t' /\ incomplete t' = true)
    as Hel.
  { intros t Ht. apply list_elem_of_In, in_map_iff in Ht.
    destruct Ht as (t' & <- & Ht').
    apply list_elem_of_In, list_elem_of_filter in Ht'.
    destruct Ht' as [Hinc _].
    exists t'. split; [done|]. by apply Is_true_true. }
  repeat split.
  - apply Forall_forall. intros t Ht.
    apply take_elem, sorted_reverse_elem in Ht.
    destruct (Hel t Ht) as (t' & -> & Hinc).
    unfold incomplete in Hinc. simpl. destruct (completed t') as [[]|]; done.
  - rewrite length_take, sorted_reverse_length. unfold l.
    rewrite length_map. lia.
  - eapply StronglySorted_on;
      [|apply StronglySorted_take, sorted_reverse_sorted].
    intros a b Ha Hb. apply take_elem, sorted_reverse_elem in Ha, Hb.
    destruct (Hel a Ha) as (a' & -> & _), (Hel b Hb) as (b' & -> & _).
    simpl. done.
Qed.

End RankClaims.

(** ** Strings, substrings and regular expressions *)

Module TextFacts.
Import Text RegexSpec.
Local Open Scope string_scope.
Local Arguments String.append : simpl nomatch.

Lemma append_empty_r s : s ++ "" = s.
Proof. induction s as [|c s IH]; simpl; [done|]. by rewrite IH. Qed.

Lemma append_assoc3 s1 s2 s3 : (s1 ++ s2) ++ s3 = s1 ++ s2 ++ s3.
Proof. induction s1 as [|c s1 IH]; simpl; [done|]. by rewrite IH. Qed.

Lemma append_eq_empty s1 s2 : s1 ++ s2 = "" -> s1 = "" /\ s2 = "".
Proof. destruct s1; simpl; [done|discriminate]. Qed.

Lemma prefix_spec k s :
  String.prefix k s = true <-> exists post, s = k ++ post.
Proof.
  revert k. induction s as [|c' s IH]; intros [|c k]; simpl.
  - split; [intros _; by exists ""|done].
  - split; [done|intros [? ?]; discriminate].
  - split; [intros _; by eexists|done].
  - destruct (ascii_dec c c') as [->|Hne].
    + rewrite IH. split; intros [post H]; exists post; congruence.
    + split; [done|]. intros [post H]. congruence.
Qed.

(** [k in s] holds when [s] has the part [k]. *)
Lemma contains_spec k s :
  contains k s = true <-> exists pre post, has_part s pre k post.
Proof.
  unfold has_part. induction s as [|c s IH].
  - change (contains k "") with (String.prefix k "" || false).
    rewrite orb_false_r, prefix_spec. split.
    + intros [post H]. by exists "", post.
    + intros (pre & post & H). symmetry in H.
      apply append_eq_empty in H. destruct H as [-> H].
      apply append_eq_empty in H. destruct H as [-> ->]. by exists "".
  - change (contains k (String c s))
      with (String.prefix k (String c s) || contains k s).
    rewrite orb_true_iff, IH, prefix_spec. split.
    + intros [[post H]|(pre & post & H)].
      * by exists "", post.
      * exists (String c pre), post. simpl. by rewrite H.
    + intros (pre & post & H). destruct pre as [|c' pre]; simpl in H.
      * left. by exists post.
      * right. exists pre, post. congruence.
Qed.

Lemma lower_append s1 s2 : lower (s1 ++ s2) = lower s1 ++ lower s2.
Proof. induction s1 as [|c s1 IH]; simpl; [done|]. by rewrite IH. Qed.

Lemma lower_char_idem c : lower_char (lower_char c) = lower_char c.
Proof.
  destruct c as [[] [] [] [] [] [] [] []]; reflexivity.
Qed.

Lemma lower_idem s : lower (lower s) = lower s.
Proof.
  induction s as [|c s IH]; simpl; [done|].
  by rewrite lower_char_idem, IH.
Qed.

(** *** The matcher computes [matches] *)

Lemma nullable_spec r : nullable r = true <-> matches r "".
Proof.
  induction r; simpl.
  - split; [done|inversion 1].
  - split; [constructor|done].
  - split; [done|inversion 1].
  - split; [done|inversion 1].
  - split; [done|inversion 1].
  - rewrite orb_true_iff, IHr1, IHr2. split.
    + intros [H|H]; [by apply matches_alt_l|by apply matches_alt_r].
    + inversion 1; subst; auto.
  - rewrite andb_true_iff, IHr1, IHr2. split.
    + intros [H1 H2]. by apply (matches_cat r1 r2 "" "").
    + inversion 1 as [| | | | | |? ? s1 s2 H1 H2 E1 E2| |]; subst.
      apply append_eq_empty in E2. destruct E2 as [-> ->]. done.
  - split; [constructor|done].
Qed.

(** A match of [Star r] that consumes a character starts with a match of
    [r] that does. *)
Lemma matches_star_cons_inv r c s :
  matches (Star r) (String c s) ->
  exists s1 s2,
    s = s1 ++ s2 /\ matches r (String c s1) /\ matches (Star r) s2.
Proof.
  intros H. remember (Star r) as r' eqn:Er.
  remember (String c s) as s' eqn:Es. revert c s Es.
  induction H as [| | | | | | |r0|r0 s1 s2 H1 _ H2 IH2]; try discriminate.
  injection Er as ->. intros c s Es.
  destruct s1 as [|c1 s1]; simpl in Es.
  - by apply IH2.
  - injection Es as -> <-. by exists s1, s2.
Qed.

Lemma deriv_spec r : forall c s,
  matches (deriv c r) s <-> matches r (String c s).
Proof.
  induction r; intros c0 s; simpl.
  - split; inversion 1.
  - split; inversion 1.
  - destruct (Ascii.eqb_spec c0 c) as [->|Hne].
    + split; [inversion 1; constructor|].
      inversion 1; subst. constructor.
    + split; [inversion 1|]. inversion 1; subst. done.
  - destruct (is_digit c0) eqn:Ed.
    + split; [inversion 1; by constructor|].
      inversion 1; subst. constructor.
    + split; [inversion 1|]. inversion 1; subst. congruence.
  - split; [inversion 1; constructor|]. inversion 1; subst. constructor.
  - split.
    + inversion 1; subst.
      * apply matches_alt_l. by apply IHr1.
      * apply matches_alt_r. by apply IHr2.
    + inversion 1; subst.
      * apply matches_alt_l. by apply IHr1.
      * apply matches_alt_r. by apply IHr2.
  - assert (forall s, matches (Cat (deriv c0 r1) r2) s ->
              matches (Cat r1 r2) (String c0 s)) as Hcat1.
    { inversion 1 as [| | | | | |? ? s1 s2 H1 H2| |]; subst.
      apply IHr1 in H1. by apply (matches_cat r1 r2 (String c0 s1) s2). }
    assert (matches (Cat r1 r2) (String c0 s) ->
            matches (Cat (deriv c0 r1) r2) s
            \/ (nullable r1 = true /\ matches (deriv c0 r2) s)) as Hcat2.
    { inversion 1 as [| | | | | |? ? s1 s2 H1 H2 E1 E2| |]; subst.
      destruct s1 as [|c1 s1]; simpl in E2.
      - right. subst s2. split; [by apply nullable_spec|by apply IHr2].
      - injection E2 as -> <-. left. apply IHr1 in H1. by constructor. }
    destruct (nullable r1) eqn:En.
    + split.
      * inversion 1; subst; [by apply Hcat1|].
        apply (matches_cat r1 r2 "" (String c0 s)).
        -- by apply nullable_spec.
        -- by apply IHr2.
      * intros H. destruct (Hcat2 H) as [H'|[_ H']].
        -- by apply matches_alt_l.
        -- by apply matches_alt_r.
    + split; [apply Hcat1|].
      intros H. destruct (Hcat2 H) as [H'|[? _]]; done.
  - split.
    + inversion 1 as [| | | | | |? ? s1 s2 H1 H2| |]; subst.
      apply IHr in H1. by apply (matches_star_cons r (String c0 s1) s2).
    + intros H. apply matches_star_cons_inv in H.
      destruct H as (s1 & s2 & -> & H1 & H2).
      constructor; [by apply IHr|done].
Qed.

Lemma fullmatch_spec r s : fullmatch r s = true <-> matches r s.
Proof.
  revert r. induction s as [|c s IH]; intros r; simpl.
  - apply nullable_spec.
  - rewrite IH. apply deriv_spec.
Qed.

Lemma matches_star_any s : matches (Star Any) s.
Proof.
  induction s as [|c s IH]; [constructor|].
  apply (matches_star_cons Any (String c "") s); [constructor|done].
Qed.

(** [re.search] finds a part of the text that the pattern matches. *)
Lemma search_spec r s :
  search r s = true <->
  exists pre mid post, has_part s pre mid post /\ matches r mid.
Proof.
  unfold search, has_part. rewrite fullmatch_spec. split.
  - inversion 1 as [| | | | | |? ? pre rest _ H2| |]; subst.
    inversion H2 as [| | | | | |? ? mid post Hm _| |]; subst.
    by exists pre, mid, post.
  - intros (pre & mid & post & -> & Hm).
    constructor; [apply matches_star_any|].
    constructor; [done|apply matches_star_any].
Qed.

Lemma matches_lit w : matches (lit w) w.
Proof.
  induction w as [|c w IH]; simpl; [constructor|].
  apply (matches_cat (Chr c) (lit w) (String c "") w); [constructor|done].
Qed.

Lemma matches_lit_inv w s : matches (lit w) s -> s = w.
Proof.
  revert s. induction w as [|c w IH]; simpl; intros s.
  - by inversion 1.
  - inversion 1 as [| | | | | |? ? s1 s2 H1 H2| |]; subst.
    inversion H1; subst. simpl. f_equal. by apply IH.
Qed.

Lemma matches_one_of ws w : w ∈ ws -> matches (one_of ws) w.
Proof.
  induction 1 as [w ws|w w' ws _ IH]; simpl.
  - apply matches_alt_l, matches_lit.
  - by apply matches_alt_r.
Qed.

End TextFacts.

(** ** More of the calendar *)

Module CalendarMore.
Import Calendar CalendarFacts.

(** The last day that [datetime.date] holds, 31 December 9999. *)
Lemma toordinal_max d : date_ok d = true -> toordinal d <= 3652059.
Proof.
  intros H. apply date_ok_spec in H. destruct H as (Hy & Hm & Hd).
  pose proof (days_before_year_mono (year d + 1) (9999 - year d) ltac:(lia))
    as Hmono.
  replace (year d + 1 + (9999 - year d)) with 10000 in Hmono by lia.
  rewrite days_before_year_succ in Hmono.
  change (days_before_year 10000) with 3652059 in Hmono.
  pose proof (days_before_month_bounds (year d) (month d) Hm).
  unfold toordinal, ymd2ord. lia.
Qed.

(** Every ordinal in the range is the ordinal of a date that
    [datetime.date] holds. *)
Lemma fromordinal_ok n :
  1 <= n <= 3652059 -> date_ok (fromordinal n) = true.
Proof.
  intros Hn. apply date_ok_spec.
  pose proof (toordinal_fromordinal n ltac:(lia)) as Hinv.
  revert Hinv. unfold fromordinal, DI400Y, DI100Y, DI4Y.
  remember (n - 1) as n0 eqn:En0.
  assert (0 <= n0 <= 3652058) as Hn0 by lia. clear En0.
  set (n400 := n0 / 146097). set (r := n0 mod 146097).
  set (n100 := r / 36524). set (r2 := r mod 36524).
  set (n4 := r2 / 1461). set (r3 := r2 mod 1461).
  set (n1 := r3 / 365). set (r4 := r3 mod 365).
  cbv zeta.
  assert (0 <= n400 <= 24 /\ 0 <= n100 <= 4 /\ 0 <= n4 <= 24
          /\ 0 <= n1 <= 4 /\ 0 <= r4 < 365
          /\ (n100 = 4 -> n4 = 0 /\ n1 = 0 /\ r4 = 0)
          /\ (n1 = 4 -> r4 = 0 /\ (n4 <= 23 \/ n100 = 4))
          /\ (n400 = 24 ->
              n100 <= 3 /\ (n100 = 3 -> n4 = 24 -> n1 <= 2)))
    as (H400 & H100 & H4 & H1 & Hr4 & Hlast400 & Hlast4 & Htop).
  { subst n400 r n100 r2 n4 r3 n1 r4. euclid. }
  clearbody n400 n100 n4 n1 r4. clear r r2 r3.
  destruct (Z.eqb_spec n1 4) as [E1|E1]; simpl.
  - intros _. unfold days_in_month. simpl. lia.
  - destruct (Z.eqb_spec n100 4) as [E100|E100]; simpl.
    + intros _. unfold days_in_month. simpl. lia.
    + pose proof (month_day_of r4
                    ((n1 =? 3) && (negb (n4 =? 24) || (n100 =? 3))) Hr4)
        as Hmd.
      cbv zeta in Hmd.
      match type of Hmd with
      | let '(_, _) := ?c in _ => destruct c as [m' preceding']
      end.
      destruct Hmd as (Hm & -> & Hlo & Hhi). intros _. simpl.
      unfold days_in_month.
      rewrite (is_leap_quad _ n400 n100 n4 n1) by lia.
      lia.
Qed.

Lemma fromordinal_toordinal d :
  date_ok d = true -> fromordinal (toordinal d) = d.
Proof.
  intros H. pose proof (toordinal_pos d H). pose proof (toordinal_max d H).
  apply toordinal_inj; [by apply fromordinal_ok|done|].
  by apply toordinal_fromordinal.
Qed.

Lemma date_add_days_ok d k :
  date_ok d = true -> 1 <= toordinal d + k <= 3652059 ->
  date_ok (date_add_days d k) = true
  /\ toordinal (date_add_days d k) = toordinal d + k.
Proof.
  intros Hd Hk. unfold date_add_days. split.
  - by apply fromordinal_ok.
  - apply toordinal_fromordinal. lia.
Qed.

(** Adding whole hours to midnight stays on the day. *)
Lemma add_hours_midnight d h :
  fromordinal (toordinal d) = d -> 0 <= h < 24 ->
  add_hours (midnight d) h = mk_datetime d h 0 0 0.
Proof.
  intros Hd Hh. unfold add_hours, datetime_add_us, midnight.
  cbn [dt_date hour minute second microsecond].
  replace ((0 * 60 + 0) * 60 + 0) with 0 by lia.
  replace (0 * 1000000 + 0 + h * 3600000000) with (h * 3600000000) by lia.
  replace (h * 3600000000 / 86400000000) with 0 by euclid.
  rewrite Z.add_0_r, Hd. f_equal; euclid.
Qed.

End CalendarMore.

(** ** [estimate_task_parameters]: more properties *)

Module EstimateMore.
Import Text RegexSpec TaskClassifier TextFacts EstimateClaims.
Local Open Scope string_scope.

Lemma existsb_elem {A} (f : A -> bool) (x : A) l :
  x ∈ l -> f x = true -> existsb f l = true.
Proof.
  intros Hin Hf. apply existsb_exists. exists x.
  split; [by apply list_elem_of_In|done].
Qed.

Lemma has_part_inside s pre mid post a b c :
  has_part s pre mid post -> mid = a ++ b ++ c ->
  has_part s (pre ++ a) b (c ++ post).
Proof.
  unfold has_part. intros -> ->. by rewrite !append_assoc3.
Qed.

(** X1. The estimated importance is 1, 3 or 5 and the estimated urgency
    is 1, 3, 4 or 5, whatever the title and the description. *)
Theorem estimate_task_parameters_range title desc :
  let '(importance, urgency) := estimate_task_parameters title desc in
  (importance = 1 \/ importance = 3 \/ importance = 5)
  /\ (urgency = 1 \/ urgency = 3 \/ urgency = 4 \/ urgency = 5).
Proof.
  unfold estimate_task_parameters, importance_keywords, urgency_keywords.
  rewrite !scan_levels_tiers.
  repeat match goal with
  | |- context [existsb ?f ?l] => destruct (existsb f l)
  end; simpl; split; auto.
Qed.

(** X2. The estimate does not depend on the case of the letters of the
    title and of the description. *)
Theorem estimate_task_parameters_lower title desc :
  estimate_task_parameters (lower title) (lower desc)
  = estimate_task_parameters title desc.
Proof.
  unfold estimate_task_parameters.
  assert (lower (lower title ++ " " ++ lower desc)
          = lower (title ++ " " ++ desc)) as ->; [|done].
  rewrite !lower_append, !lower_idem. done.
Qed.

(** What a pattern that begins with a literal matches begins with it. *)
Lemma matches_cat_lit w r s :
  matches (Cat (lit w) r) s -> exists rest, s = w ++ rest.
Proof.
  inversion 1 as [| | | | | |? ? s1 s2 H1 H2| |]; subst.
  apply matches_lit_inv in H1. subst. by exists s2.
Qed.

Lemma urgency_of_due text :
  contains "due" text = true -> scan_levels urgency_keywords text 3 = 5.
Proof.
  intros H. unfold urgency_keywords. rewrite scan_levels_tiers.
  rewrite (existsb_elem _ "due"); [done| |done].
  repeat constructor.
Qed.

(** X3. The two patterns that begin with [due] never change the urgency:
    a text in which one of them is found holds the keyword [due], which
    sets the urgency to 5 before the patterns are tried. *)
Theorem estimate_due_patterns title desc pattern :
  date_patterns !! 0%nat = Some pattern
  \/ date_patterns !! 1%nat = Some pattern ->
  let text := lower (title ++ " " ++ desc) in
  search pattern text = true ->
  scan_levels urgency_keywords text 3 = 5
  /\ snd (estimate_task_parameters title desc) = 5.
Proof.
  intros Hp text Hs.
  assert (contains "due" text = true) as Hdue.
  { apply search_spec in Hs. destruct Hs as (pre & mid & post & Hpart & Hm).
    assert (exists rest, mid = "due " ++ rest) as [rest ->].
    { destruct Hp as [Hp|Hp]; injection Hp as <-;
        by apply (matches_cat_lit "due ") in Hm. }
    apply contains_spec.
    exists pre, (" " ++ rest ++ post).
    apply (has_part_inside _ _ _ _ "" "due" (" " ++ rest)) in Hpart;
      [|done].
    revert Hpart. unfold has_part. rewrite append_empty_r.
    by rewrite !append_assoc3. }
  split; [by apply urgency_of_due|].
  unfold estimate_task_parameters. fold text. cbn [snd].
  rewrite (urgency_of_due text Hdue).
  by destruct (existsb _ date_patterns).
Qed.

Lemma estimate_due_patterns_witness :
  let text := lower ("Rent" ++ " " ++ "due on 5th jan") in
  scan_levels urgency_keywords text 3 = 5
  /\ snd (estimate_task_parameters "Rent" "due on 5th jan") = 5.
Proof.
  apply (estimate_due_patterns "Rent" "due on 5th jan"
           (seq_of [lit "due "; opt (one_of ["on"; "by"]); lit " ";
                    Digit; opt Digit;
                    opt (one_of ["st"; "nd"; "rd"; "th"]);
                    lit " "; one_of months])).
  - left. reflexivity.
  - vm_compute. reflexivity.
Defined.

(** X4. A text that holds [this week], [next week], [this month] or
    [next month] has urgency 4 at least: the last date pattern finds it.
    So the keywords [this week] (medium) and [next month] (low) of the
    urgency table never give an urgency below 4. *)
Theorem estimate_week_month title desc w :
  w ∈ ["this week"; "next week"; "this month"; "next month"] ->
  contains w (lower (title ++ " " ++ desc)) = true ->
  4 <= snd (estimate_task_parameters title desc).
Proof.
  intros Hw Hc. unfold estimate_task_parameters. cbn [snd].
  set (text := lower (title ++ " " ++ desc)) in *.
  set (pattern := seq_of [one_of ["this"; "next"]; lit " ";
                          one_of ["week"; "month"]]).
  assert (search pattern text = true) as Hs.
  { apply search_spec. apply contains_spec in Hc.
    destruct Hc as (pre & post & Hpart). exists pre, w, post.
    split; [done|]. apply fullmatch_spec.
    repeat (apply elem_of_cons in Hw; destruct Hw as [->|Hw];
            [vm_compute; reflexivity|]).
    by apply elem_of_nil in Hw. }
  rewrite (existsb_elem _ pattern); [lia| |done].
  unfold date_patterns. do 3 right. left.
Qed.

Lemma estimate_week_month_witness :
  4 <= snd (estimate_task_parameters "Plan trip" "sometime next month").
Proof.
  apply (estimate_week_month "Plan trip" "sometime next month"
           "next month").
  - do 3 right. left.
  - vm_compute. reflexivity.
Defined.

End EstimateMore.

(** ** [estimate_task_duration] and [suggest_time_slot]: more properties *)

Module SuggestMore.
Import Calendar IsoText Py Text TaskClassifier CalendarFacts CalendarMore
  PyFacts SuggestClaims Examples.

(** X5. The estimated duration is a multiple of 15 minutes between 15 and
    150; the floor of 15 is reached by the arithmetic alone, and exactly
    for a task of low importance and urgency with a short title and no
    long description. *)
Theorem estimate_task_duration_values (t : task) :
  let d := estimate_task_duration t in
  15 <= d <= 150
  /\ d mod 15 = 0
  /\ (d = 15 <->
      default 3 (importance t) <= 2 /\ default 3 (urgency t) <= 2
      /\ len (default EmptyString (title t)) < 20
      /\ len (default EmptyString (description t)) <= 200).
Proof.
  unfold estimate_task_duration.
  destruct (Z.leb_spec 4 (default 3 (importance t))),
    (Z.leb_spec 4 (default 3 (urgency t))),
    (Z.leb_spec (default 3 (importance t)) 2),
    (Z.leb_spec (default 3 (urgency t)) 2),
    (Z.ltb_spec 50 (len (default EmptyString (title t)))),
    (Z.ltb_spec (len (default EmptyString (title t))) 20),
    (Z.ltb_spec 200 (len (default EmptyString (description t))));
    cbn [orb andb]; cbv zeta; repeat split; try lia; try reflexivity.
Qed.

(** The preferred hours are one of the five ranges. *)
Lemma peak_hours_cases peak :
  peak_hours peak = range 8 12 \/ peak_hours peak = range 12 17
  \/ peak_hours peak = range 17 22 \/ peak_hours peak = range 20 24
  \/ peak_hours peak = range 9 17.
Proof.
  unfold peak_hours.
  repeat match goal with
  | |- context [String.eqb ?a ?b] => destruct (String.eqb a b)
  end; auto.
Qed.

Lemma peak_hours_bounds peak h :
  h ∈ peak_hours peak -> 8 <= h < 24.
Proof.
  intros Hh.
  pose proof (range_bounds 8 12). pose proof (range_bounds 12 17).
  pose proof (range_bounds 17 22). pose proof (range_bounds 20 24).
  pose proof (range_bounds 9 17).
  destruct (peak_hours_cases peak) as [E|[E|[E|[E|E]]]]; rewrite E in Hh;
    match goal with
    | H : Forall _ (range ?a ?b), Hh : _ ∈ range ?a ?b |- _ =>
        rewrite Forall_forall in H; specialize (H h Hh); lia
    end.
Qed.

(** A slot on a day that is some days after a valid date is on the hour of
    that day. *)
Lemma slot_at_add_days d k h :
  1 <= toordinal d + k -> 0 <= h < 24 ->
  slot_at (date_add_days d k) h = mk_datetime (date_add_days d k) h 0 0 0.
Proof.
  intros Hk Hh. unfold slot_at. apply add_hours_midnight; [|done].
  unfold date_add_days. by rewrite toordinal_fromordinal.
Qed.

(** X6. With a profile and no events, the start is at the first preferred
    hour, on the hour: today when the clock is before that hour, else
    tomorrow. The duration is the estimated one. *)
Theorem suggest_without_events read now now' t (p : gmap string string)
    events :
  date_ok (dt_date now) = true -> p <> ∅ ->
  events = None \/ events = Some [] ->
  let hours :=
    peak_hours
      (default "Morning"%string (p !! "productivity_peak"%string)) in
  exists h,
    head hours = Some h /\ 8 <= h <= 20
    /\ suggest_time_slot read now now' t (Some p) events
       = Return
           (StartAt
              (mk_datetime
                 (if h <=? hour now' then date_add_days (dt_date now) 1
                  else dt_date now)
                 h 0 0 0),
            estimate_task_duration t).
Proof.
  intros Hnow Hp Hev hours.
  pose proof (toordinal_pos _ Hnow) as Hpos.
  assert (exists h, head hours = Some h /\ index hours 0 = Some h
                    /\ 8 <= h <= 20) as (h & Hhead & Hidx & Hh).
  { destruct (peak_hours_cases
                (default "Morning"%string (p !! "productivity_peak"%string)))
      as [E|[E|[E|[E|E]]]]; unfold hours; rewrite E;
      eexists; (split; [reflexivity|]); (split; [reflexivity|lia]). }
  exists h. split; [done|]. split; [done|].
  unfold suggest_time_slot, falsy_profile.
  rewrite bool_decide_eq_false_2 by done.
  cbn [from_option Datatypes.id]. fold hours. rewrite Hidx.
  cbn [from_option Datatypes.id].
  assert (forall d, fromordinal (toordinal d) = d ->
            slot_at d h = mk_datetime d h 0 0 0) as Hslot.
  { intros d Hd. apply add_hours_midnight; [done|lia]. }
  destruct Hev as [->| ->]; do 2 f_equal; f_equal;
    (destruct (h <=? hour now');
     [apply slot_at_add_days; lia
     |apply Hslot; by apply fromordinal_toordinal]).
Qed.

Lemma suggest_without_events_witness :
  let hours := peak_hours "Morning" in
  exists h,
    head hours = Some h /\ 8 <= h <= 20
    /\ suggest_time_slot example_reader sunday_afternoon sunday_afternoon
         report_task (Some morning_profile) None
       = Return
           (StartAt
              (mk_datetime
                 (if h <=? hour sunday_afternoon
                  then date_add_days (march 10) 1 else march 10)
                 h 0 0 0),
            estimate_task_duration report_task).
Proof.
  apply (suggest_without_events example_reader sunday_afternoon
           sunday_afternoon report_task morning_profile None).
  - reflexivity.
  - apply (bool_decide_eq_false_1 (morning_profile = ∅)). vm_compute.
    reflexivity.
  - left. reflexivity.
Defined.

(** Events that are all unreadable leave no period. *)
Lemma unreadable_busy read events :
  Forall (unreadable read) events -> busy read events [].
Proof.
  induction 1 as [|e events He _ IH]; [apply busy_nil|].
  by apply busy_skipped.
Qed.

(** X7. With a profile and events, each of which is not parsed or is
    parsed with naive times, the start is on the hour, at one of the
    preferred hours of the specification, and between one and seven days
    after today; the duration is 60 minutes. *)
Theorem suggest_with_events_shape read now now' t (p : gmap string string)
    events periods :
  date_ok (dt_date now) = true -> date_ok (dt_date now') = true ->
  p <> ∅ -> events <> [] ->
  busy read events periods ->
  let '(lo, hi) := preferred_range (p !! "productivity_peak"%string) in
  exists day k h,
    suggest_time_slot read now now' t (Some p) (Some events)
    = Return (StartAt (mk_datetime day h 0 0 0), 60)
    /\ lo <= h < hi /\ 8 <= h < 24 /\ 1 <= k <= 7
    /\ (day = date_add_days (dt_date now) k
        \/ day = date_add_days (dt_date now') 1).
Proof.
  intros Hnow Hnow' Hp Hev Hbusy.
  pose proof (peak_hours_range (p !! "productivity_peak"%string)) as Hhours.
  pose proof (preferred_range_bounds (p !! "productivity_peak"%string))
    as Hb.
  destruct (preferred_range (p !! "productivity_peak"%string)) as [lo hi].
  cbn [fst snd] in Hhours. destruct Hb as (Hlo & Hlt & Hhi & Hidx & _).
  apply toordinal_pos in Hnow, Hnow'.
  unfold suggest_time_slot, falsy_profile.
  rewrite bool_decide_eq_false_2 by done.
  destruct events as [|e events]; [done|].
  cbn [from_option Datatypes.id]. rewrite Hhours.
  rewrite (busy_event_periods _ _ _ Hbusy).
  rewrite scan_days_find by lia. cbn [and_then].
  change (map _ (seq 0 (length (range 0 7)))) with (range 1 8).
  set (candidates :=
         flat_map
           (fun k => map (slot_at (date_add_days (dt_date now) k))
                       (range lo hi))
           (range 1 8)).
  pose proof (find_first (slot_free periods) candidates) as Hfind.
  destruct (find _ candidates) as [s|].
  - destruct Hfind as (pre & post & Hc & _ & _).
    assert (In s candidates) as Hin.
    { rewrite Hc. apply in_or_app. right. by left. }
    apply in_flat_map in Hin. destruct Hin as (k & Hk & Hs).
    apply in_map_iff in Hs. destruct Hs as (h & <- & Hh).
    pose proof (range_bounds lo hi) as Hrh. rewrite Forall_forall in Hrh.
    specialize (Hrh h ltac:(by apply list_elem_of_In)).
    pose proof (range_bounds 1 8) as Hr. rewrite Forall_forall in Hr.
    specialize (Hr k ltac:(by apply list_elem_of_In)).
    exists (date_add_days (dt_date now) k), k, h.
    rewrite slot_at_add_days by lia. repeat split; try done; try lia.
    by left.
  - rewrite Hidx.
    exists (date_add_days (dt_date now') 1), 1, lo.
    rewrite slot_at_add_days by lia. repeat split; try done; try lia.
    by right.
Qed.

Lemma suggest_with_events_shape_witness :
  exists day k h,
    suggest_time_slot example_reader sunday_afternoon sunday_afternoon
      report_task (Some morning_profile) (Some [monday_meeting])
    = Return (StartAt (mk_datetime day h 0 0 0), 60)
    /\ 8 <= h < 12 /\ 8 <= h < 24 /\ 1 <= k <= 7
    /\ (day = date_add_days (march 10) k
        \/ day = date_add_days (march 10) 1).
Proof.
  apply (suggest_with_events_shape example_reader sunday_afternoon
           sunday_afternoon report_task morning_profile [monday_meeting]
           [(mk_datetime (march 11) 8 0 0 0,
             mk_datetime (march 11) 9 0 0 0)]).
  - reflexivity.
  - reflexivity.
  - apply (bool_decide_eq_false_1 (morning_profile = ∅)). vm_compute.
    reflexivity.
  - discriminate.
  - eapply busy_parsed; [reflexivity|reflexivity|vm_compute; reflexivity
      |vm_compute; reflexivity|apply busy_nil].
Defined.

(** X8. Events that are not parsed are skipped, but they still choose the
    path: when each event of a list has a time that is no string or that
    [datetime.fromisoformat] refuses, the start is tomorrow at the first
    preferred hour and the duration is 60 minutes, not the start and the
    duration that no events give. *)
Theorem suggest_unreadable_events read now now' t (p : gmap string string)
    events :
  date_ok (dt_date now) = true ->
  p <> ∅ -> events <> [] -> Forall (unreadable read) events ->
  let '(lo, hi) := preferred_range (p !! "productivity_peak"%string) in
  suggest_time_slot read now now' t (Some p) (Some events)
  = Return
      (StartAt (mk_datetime (date_add_days (dt_date now) 1) lo 0 0 0), 60).
Proof.
  intros Hnow Hp Hev Hun.
  pose proof (peak_hours_range (p !! "productivity_peak"%string)) as Hhours.
  pose proof (preferred_range_bounds (p !! "productivity_peak"%string))
    as Hb.
  destruct (preferred_range (p !! "productivity_peak"%string)) as [lo hi].
  cbn [fst snd] in Hhours. destruct Hb as (Hlo & Hlt & Hhi & _ & Hhead).
  apply toordinal_pos in Hnow.
  unfold suggest_time_slot, falsy_profile.
  rewrite bool_decide_eq_false_2 by done.
  destruct events as [|e events]; [done|].
  cbn [from_option Datatypes.id]. rewrite Hhours.
  rewrite (busy_event_periods _ _ _ (unreadable_busy _ _ Hun)).
  destruct (range lo hi) as [|h hs]; [done|]. injection Hhead as ->.
  change (range 0 7) with (0 :: range 1 7).
  cbn [map scan_days scan_hours any_conflicts and_then negb].
  by rewrite slot_at_add_days by lia.
Qed.

Lemma suggest_unreadable_events_witness :
  suggest_time_slot example_reader sunday_afternoon sunday_afternoon
    report_task (Some morning_profile)
    (Some [mk_event (Some "soon"%string) None])
  = Return
      (StartAt (mk_datetime (date_add_days (march 10) 1) 8 0 0 0), 60).
Proof.
  apply (suggest_unreadable_events example_reader sunday_afternoon
           sunday_afternoon report_task morning_profile
           [mk_event (Some "soon"%string) None]).
  - reflexivity.
  - apply (bool_decide_eq_false_1 (morning_profile = ∅)). vm_compute.
    reflexivity.
  - discriminate.
  - repeat constructor.
Defined.



End SuggestMore.

(** ** [get_next_tasks]: more properties *)

Module RankMore.
Import Py TaskClassifier App PyFacts RankClaims Examples.

Section StableSort.
Context {A : Type} (key : A -> Z).

Lemma insert_sorted_perm (x : A) l :
  insert_sorted (key_lt key) x l ≡ₚ x :: l.
Proof.
  induction l as [|y l IH]; simpl; [done|].
  destruct (key_lt key y x); [|done].
  rewrite IH. apply Permutation_swap.
Qed.

Lemma sorted_perm (l : list A) : sorted (key_lt key) l ≡ₚ l.
Proof.
  induction l as [|x l IH]; simpl; [done|].
  by rewrite insert_sorted_perm, IH.
Qed.

Lemma sorted_reverse_perm (l : list A) : sorted_reverse key l ≡ₚ l.
Proof.
  unfold sorted_reverse.
  rewrite <- (Permutation_rev (sorted _ _)), sorted_perm.
  symmetry. apply Permutation_rev.
Qed.

(** An element is put behind the elements of smaller key only: among the
    elements of one key the order stays. *)
Lemma insert_sorted_same_key (k : Z) (x : A) l :
  List.filter (fun y => key y =? k) (insert_sorted (key_lt key) x l)
  = List.filter (fun y => key y =? k) (x :: l).
Proof.
  induction l as [|y l IH]; [done|].
  cbn [insert_sorted]. unfold key_lt at 1.
  destruct (Z.ltb_spec (key y) (key x)) as [Hlt|Hge]; [|done].
  cbn [List.filter] in *. rewrite IH.
  destruct (Z.eqb_spec (key y) k), (Z.eqb_spec (key x) k); try done. lia.
Qed.

Lemma sorted_same_key (k : Z) (l : list A) :
  List.filter (fun y => key y =? k) (sorted (key_lt key) l)
  = List.filter (fun y => key y =? k) l.
Proof.
  induction l as [|x l IH]; [done|].
  cbn [sorted foldr]. fold (sorted (key_lt key) l).
  rewrite insert_sorted_same_key. cbn [List.filter]. by rewrite IH.
Qed.

Lemma filter_rev_list (f : A -> bool) l :
  List.filter f (rev l) = rev (List.filter f l).
Proof.
  induction l as [|x l IH]; [done|]. simpl.
  rewrite List.filter_app, IH. simpl. destruct (f x); simpl; [done|].
  by rewrite app_nil_r.
Qed.

Lemma sorted_reverse_same_key (k : Z) (l : list A) :
  List.filter (fun y => key y =? k) (sorted_reverse key l)
  = List.filter (fun y => key y =? k) l.
Proof.
  unfold sorted_reverse.
  rewrite filter_rev_list, sorted_same_key, filter_rev_list.
  apply rev_involutive.
Qed.

End StableSort.

(** The ranking of all the incomplete tasks. *)
Lemma full_ranking (tasks : list task) :
  snd (get_next_tasks tasks (Z.of_nat (length tasks)))
  = sorted_reverse (fun x => default 0 (priority_score x))
      (map score (filter (fun t => incomplete t) tasks)).
Proof.
  destruct (decide (tasks = [])) as [->|Hne]; [done|].
  rewrite (get_next_tasks_eq tasks _ Hne). cbn [snd]. unfold slice_to.
  destruct (Z.ltb_spec (Z.of_nat (length tasks)) 0); [lia|].
  apply take_ge. rewrite sorted_reverse_length, length_map.
  pose proof (length_filter (fun t => incomplete t) tasks). lia.
Qed.

Lemma list_filter_stdpp {A} (f : A -> bool) (l : list A) :
  filter (fun x => f x) l = List.filter f l.
Proof.
  induction l as [|x l IH]; [done|]. rewrite filter_cons. simpl.
  rewrite <- IH. by destruct (f x).
Qed.

(** X9. The ranking neither loses nor repeats a task: with [top_n] as
    large as the list, the result is a rearrangement of the incomplete
    tasks, each with its score written. *)
Theorem get_next_tasks_rearranges (tasks : list task) :
  snd (get_next_tasks tasks (Z.of_nat (length tasks)))
  ≡ₚ map score (filter (fun t => incomplete t) tasks).
Proof. rewrite full_ranking. apply sorted_reverse_perm. Qed.

(** X10. Ties keep the order of the list: the ranked tasks of one score
    are the incomplete tasks of that score in the order in which the list
    holds them. *)
Theorem get_next_tasks_ties (tasks : list task) (k : Z) :
  List.filter (fun t => priority t =? k)
    (snd (get_next_tasks tasks (Z.of_nat (length tasks))))
  = map score
      (List.filter (fun t => incomplete t && (priority t =? k)) tasks).
Proof.
  rewrite full_ranking, list_filter_stdpp.
  transitivity
    (List.filter (fun x => default 0 (priority_score x) =? k)
       (sorted_reverse (fun x => default 0 (priority_score x))
          (map score (List.filter incomplete tasks)))).
  - apply List.filter_ext_in. intros t Ht.
    apply list_elem_of_In, sorted_reverse_elem, list_elem_of_In,
      in_map_iff in Ht.
    destruct Ht as (t' & <- & _). done.
  - rewrite sorted_reverse_same_key.
    induction tasks as [|t tasks IH]; [done|]. cbn [List.filter].
    destruct (incomplete t); cbn [andb map List.filter]; [|done].
    change (default 0 (priority_score (score t))) with (priority t).
    destruct (priority t =? k); cbn [map]; by rewrite IH.
Qed.

(** X11. A second call changes nothing more: it leaves the list as the
    first call left it and returns the same tasks. *)
Theorem get_next_tasks_again (tasks : list task) (top_n : Z) :
  get_next_tasks (fst (get_next_tasks tasks top_n)) top_n
  = get_next_tasks tasks top_n.
Proof.
  destruct (decide (tasks = [])) as [->|Hne]; [done|].
  rewrite (get_next_tasks_eq tasks top_n Hne). cbn [fst].
  set (f := fun t => if incomplete t then score t else t).
  assert (map f tasks <> []) as Hne' by (by destruct tasks).
  rewrite (get_next_tasks_eq _ top_n Hne'). fold f.
  assert (forall t, f (f t) = f t) as Hff.
  { intros t. unfold f. destruct (incomplete t) eqn:E; [|by rewrite E].
    change (incomplete (score t)) with (incomplete t). by rewrite E. }
  f_equal.
  - rewrite map_map. by apply map_ext.
  - do 2 f_equal. rewrite !list_filter_stdpp. clear Hne Hne'.
    induction tasks as [|t tasks IH]; [done|]. cbn [map List.filter].
    unfold f at 1 2. destruct (incomplete t) eqn:E.
    + change (incomplete (score t)) with (incomplete t). rewrite E.
      cbn [map]. rewrite IH. f_equal.
    + rewrite E. apply IH.
Qed.

(** X12. The number of returned tasks for every [top_n]: the smaller of
    [top_n] and the number of incomplete tasks, and for a negative [top_n]
    that number less [-top_n], at least 0; no [top_n] fails. *)
Theorem get_next_tasks_length (tasks : list task) (top_n : Z) :
  let m := Z.of_nat (length (filter (fun t => incomplete t) tasks)) in
  Z.of_nat (length (snd (get_next_tasks tasks top_n)))
  = if top_n <? 0 then Z.max 0 (m + top_n) else Z.min top_n m.
Proof.
  destruct (decide (tasks = [])) as [->|Hne].
  { simpl. destruct (Z.ltb_spec top_n 0); lia. }
  rewrite (get_next_tasks_eq tasks top_n Hne). cbn [snd]. unfold slice_to.
  destruct (Z.ltb_spec top_n 0);
    rewrite length_take, sorted_reverse_length, length_map; lia.
Qed.

Lemma label_rank_mono (a b : task) :
  default 1 (importance b) * default 1 (urgency b)
  <= default 1 (importance a) * default 1 (urgency a) ->
  label_rank (calculate_priority_label b)
  <= label_rank (calculate_priority_label a).
Proof.
  unfold calculate_priority_label.
  set (x := default 1 (importance a) * default 1 (urgency a)).
  set (y := default 1 (importance b) * default 1 (urgency b)).
  intros H.
  destruct (Z.leb_spec 20 x), (Z.leb_spec 12 x), (Z.leb_spec 6 x),
    (Z.leb_spec 20 y), (Z.leb_spec 12 y), (Z.leb_spec 6 y);
    try lia; vm_compute; discriminate.
Qed.

(** X13. When every task carries its importance and urgency, the ranking
    agrees with the labels of [calculate_priority_label]: no returned task
    stands before a task of a higher label. *)
Theorem get_next_tasks_labels (tasks : list task) (top_n : Z) :
  Forall (fun t => is_Some (importance t) /\ is_Some (urgency t)) tasks ->
  StronglySorted
    (fun a b =>
       label_rank (calculate_priority_label b)
       <= label_rank (calculate_priority_label a))
    (snd (get_next_tasks tasks top_n)).
Proof.
  intros Hall.
  destruct (decide (tasks = [])) as [->|Hne]; [constructor|].
  rewrite (get_next_tasks_eq tasks top_n Hne). cbn [snd]. unfold slice_to.
  set (l := sorted_reverse _ _).
  assert (forall n, StronglySorted
            (fun a b =>
               label_rank (calculate_priority_label b)
               <= label_rank (calculate_priority_label a)) (take n l)) as H.
  { intros n. eapply StronglySorted_on;
      [|apply StronglySorted_take, sorted_reverse_sorted].
    intros a b Ha Hb Hab. apply take_elem, sorted_reverse_elem in Ha, Hb.
    apply list_elem_of_In, in_map_iff in Ha, Hb.
    destruct Ha as (a' & <- & Ha), Hb as (b' & <- & Hb).
    apply list_elem_of_In, list_elem_of_filter in Ha, Hb.
    rewrite Forall_forall in Hall.
    destruct (Hall a' (proj2 Ha)) as [[ia Eia] [ua Eua]].
    destruct (Hall b' (proj2 Hb)) as [[ib Eib] [ub Eub]].
    apply label_rank_mono. simpl in *.
    rewrite Eia, Eua, Eib, Eub in *. simpl in *. done. }
  destruct (top_n <? 0); apply H.
Qed.

Lemma get_next_tasks_labels_witness :
  StronglySorted
    (fun a b =>
       label_rank (calculate_priority_label b)
       <= label_rank (calculate_priority_label a))
    (snd (get_next_tasks [errand_task; report_task; done_task; launch_task]
            3)).
Proof.
  apply (get_next_tasks_labels
           [errand_task; report_task; done_task; launch_task] 3).
  repeat constructor; eexists; reflexivity.
Defined.

End RankMore.

(** ** [classify_task] *)

Module ClassifierFacts.
Import Py Text RegexSpec Classifier.

Lemma dict_set_elem {V} (k : string) (v : V) d x :
  x ∈ dict_set k v d -> x = (k, v) \/ x ∈ d.
Proof.
  induction d as [|[k' v'] d IH]; simpl.
  - intros H. apply list_elem_of_singleton in H. by left.
  - destruct (String.eqb k' k).
    + intros [->|H]%elem_of_cons; [by left|]. right. by right.
    + intros [->|H]%elem_of_cons; [right; by left|].
      destruct (IH H) as [->|H']; [by left|]. right. by right.
Qed.

Lemma dict_set_keys_elem {V} (k : string) (v : V) d k' :
  k' ∈ dict_keys (dict_set k v d) <-> k' = k \/ k' ∈ dict_keys d.
Proof.
  unfold dict_keys. induction d as [|[k0 v0] d IH]; simpl.
  - rewrite list_elem_of_singleton, elem_of_nil. tauto.
  - destruct (String.eqb_spec k0 k) as [->|Hne]; simpl.
    + rewrite !elem_of_cons. tauto.
    + rewrite !elem_of_cons, IH. tauto.
Qed.

Lemma dict_set_NoDup {V} (k : string) (v : V) d :
  NoDup (dict_keys d) -> NoDup (dict_keys (dict_set k v d)).
Proof.
  unfold dict_keys. induction d as [|[k0 v0] d IH]; simpl.
  - intros _. apply NoDup_singleton.
  - intros [Hn Hd]%NoDup_cons.
    destruct (String.eqb_spec k0 k) as [->|Hne]; simpl.
    + by apply NoDup_cons.
    + apply NoDup_cons. split; [|by apply IH].
      intros [->|H]%(dict_set_keys_elem k v d k0); done.
Qed.

Lemma dict_get_set_same {V} (k : string) (v : V) d :
  dict_get k (dict_set k v d) = Some v.
Proof.
  induction d as [|[k0 v0] d IH]; simpl.
  - by rewrite String.eqb_refl.
  - destruct (String.eqb_spec k0 k) as [->|Hne]; simpl.
    + by rewrite String.eqb_refl.
    + destruct (String.eqb_spec k0 k); done.
Qed.

Lemma dict_get_set_other {V} (k k' : string) (v : V) d :
  k' <> k -> dict_get k' (dict_set k v d) = dict_get k' d.
Proof.
  intros Hne. induction d as [|[k0 v0] d IH]; simpl.
  - destruct (String.eqb_spec k k'); done.
  - destruct (String.eqb_spec k0 k) as [->|Hne0]; simpl.
    + destruct (String.eqb_spec k k'); done.
    + by rewrite IH.
Qed.

Lemma dict_get_elem {V} (k : string) (v : V) d :
  dict_get k d = Some v -> (k, v) ∈ d.
Proof.
  induction d as [|[k0 v0] d IH]; simpl; [done|].
  destruct (String.eqb_spec k0 k) as [->|Hne].
  - intros [= ->]. by left.
  - intros H. right. by apply IH.
Qed.

Lemma dict_get_keys {V} (k : string) (d : dict V) :
  k ∈ dict_keys d -> is_Some (dict_get k d).
Proof.
  unfold dict_keys. induction d as [|[k0 v0] d IH]; simpl.
  - by intros ?%elem_of_nil.
  - destruct (String.eqb_spec k0 k) as [->|Hne]; [by eexists|].
    intros [->|H]%elem_of_cons; [done|]. by apply IH.
Qed.

Lemma dict_set_present {V} (k : string) (v : V) d :
  is_Some (dict_get k d) -> dict_keys (dict_set k v d) = dict_keys d.
Proof.
  unfold dict_keys. induction d as [|[k0 v0] d IH]; simpl.
  - by intros [? ?].
  - destruct (String.eqb_spec k0 k) as [->|Hne]; simpl; [done|].
    intros H. by rewrite IH.
Qed.

Lemma key_in_spec (k : string) keys : key_in k keys = true <-> k ∈ keys.
Proof.
  unfold key_in. rewrite existsb_exists. split.
  - intros (x & Hx & ->%String.eqb_eq). by apply list_elem_of_In.
  - intros H. exists k. split; [by apply list_elem_of_In|].
    apply String.eqb_refl.
Qed.

(** The map from the names to the ids. *)

Lemma id_map_elem categories d k v :
  (k, v) ∈ foldl set_category d categories ->
  (k, v) ∈ d
  \/ exists c, c ∈ categories /\ k = lower (name c) /\ v = id c.
Proof.
  revert d. induction categories as [|c cs IH]; intros d; simpl.
  - by left.
  - intros [H|(c' & Hc' & Hk)]%IH.
    + apply dict_set_elem in H as [[= -> ->]|H]; [|by left].
      right. exists c. split; [by left|done].
    + right. exists c'. split; [by right|done].
Qed.

Lemma id_map_keys categories d k :
  k ∈ dict_keys (foldl set_category d categories)
  <-> k ∈ dict_keys d \/ exists c, c ∈ categories /\ k = lower (name c).
Proof.
  revert d. induction categories as [|c cs IH]; intros d; simpl.
  - split; [by left|]. intros [H|(c & Hc%elem_of_nil & _)]; done.
  - rewrite IH. unfold set_category at 1. rewrite dict_set_keys_elem. split.
    + intros [[->|H]|(c' & Hc' & ->)].
      * right. exists c. split; [by left|done].
      * by left.
      * right. exists c'. split; [by right|done].
    + intros [H|(c' & [->|Hc']%elem_of_cons & ->)].
      * left. by right.
      * left. by left.
      * right. by exists c'.
Qed.

Lemma id_map_NoDup categories d :
  NoDup (dict_keys d) -> NoDup (dict_keys (foldl set_category d categories)).
Proof.
  revert d. induction categories as [|c cs IH]; intros d Hd; simpl; [done|].
  apply IH. by apply dict_set_NoDup.
Qed.

Lemma id_map_get_kept categories d k v :
  dict_get k d = Some v ->
  (forall c, c ∈ categories -> lower (name c) = k -> id c = v) ->
  dict_get k (foldl set_category d categories) = Some v.
Proof.
  revert d. induction categories as [|c cs IH]; intros d Hd Hall; simpl;
    [done|].
  apply IH; [|intros c' Hc'; apply Hall; by right].
  unfold set_category. destruct (decide (lower (name c) = k)) as [E|Hne].
  - rewrite E, dict_get_set_same. f_equal. apply Hall; [by left|done].
  - by rewrite dict_get_set_other.
Qed.

Lemma id_map_get categories d c :
  c ∈ categories ->
  (forall c', c' ∈ categories ->
              lower (name c') = lower (name c) -> id c' = id c) ->
  dict_get (lower (name c)) (foldl set_category d categories) = Some (id c).
Proof.
  revert d. induction categories as [|c0 cs IH]; intros d Hc Hall.
  { by apply elem_of_nil in Hc. }
  simpl. destruct (decide (lower (name c0) = lower (name c))) as [E|Hne].
  - apply id_map_get_kept; [|intros c' Hc'; apply Hall; by right].
    unfold set_category. rewrite E, dict_get_set_same. f_equal.
    apply Hall; [by left|done].
  - apply elem_of_cons in Hc as [->|Hc]; [done|].
    apply IH; [done|]. intros c' Hc'. apply Hall. by right.
Qed.

(** The scores keep the keys. *)
Lemma add_point_keys best_match scores :
  dict_keys (add_point best_match scores) = dict_keys scores.
Proof.
  unfold add_point. destruct (dict_get best_match scores) eqn:E; [|done].
  apply dict_set_present. by rewrite E.
Qed.

Lemma score_keywords_keys t cn keys kws scores :
  dict_keys (score_keywords t cn keys kws scores) = dict_keys scores.
Proof.
  revert scores. induction kws as [|kw kws IH]; intros scores; simpl; [done|].
  rewrite IH. destruct (contains kw t); [|done].
  destruct (truthy_name _); [apply add_point_keys|done].
Qed.

Lemma score_categories_keys t keys table scores :
  dict_keys (score_categories t keys table scores) = dict_keys scores.
Proof.
  revert scores. induction table as [|[cn kws] table IH]; intros scores;
    simpl; [done|].
  by rewrite IH, score_keywords_keys.
Qed.

Lemma max_item_elem best items :
  max_item best items = best \/ max_item best items ∈ items.
Proof.
  revert best. induction items as [|item items IH]; intros best; simpl;
    [by left|].
  destruct (snd best <? snd item).
  - destruct (IH item) as [->|H]; right; [by left|by right].
  - destruct (IH best) as [->|H]; [by left|right; by right].
Qed.

Lemma zero_scores_keys (keys : list string) :
  dict_keys (map (fun cat_name => (cat_name, 0)) keys) = keys.
Proof.
  unfold dict_keys. rewrite map_map. simpl. apply map_id.
Qed.

(** A keyword list of which the title holds no word adds no point. *)
Lemma score_keywords_none t cn keys kws scores :
  existsb (fun kw => contains kw t) kws = false ->
  score_keywords t cn keys kws scores = scores.
Proof.
  revert scores. induction kws as [|kw kws IH]; intros scores; simpl; [done|].
  intros [-> H]%orb_false_elim. by apply IH.
Qed.

End ClassifierFacts.

Module ClassifierMore.
Import Py Text RegexSpec Classifier ClassifierFacts.

Lemma classify_by_keywords_member (task_title : string) categories :
  categories <> [] ->
  exists c, c ∈ categories
            /\ classify_by_keywords task_title categories = Some (id c).
Proof.
  intros Hne. unfold classify_by_keywords.
  set (scores := score_categories _ _ _ _).
  assert (dict_keys scores = dict_keys (make_category_id_map categories))
    as Hkeys.
  { unfold scores. by rewrite score_categories_keys, zero_scores_keys. }
  destruct (existsb _ scores) eqn:Eany.
  - destruct scores as [|item items]; [done|].
    assert (fst (max_item item items)
              ∈ dict_keys (make_category_id_map categories)) as Hin.
    { rewrite <- Hkeys. unfold dict_keys.
      apply list_elem_of_In, in_map, list_elem_of_In.
      destruct (max_item_elem item items) as [->|H]; [by left|by right]. }
    destruct (dict_get_keys _ _ Hin) as [v Hv]. rewrite Hv.
    apply dict_get_elem, id_map_elem in Hv
      as [H%elem_of_nil|(c & Hc & _ & ->)]; [done|].
    by exists c.
  - destruct categories as [|c cs]; [done|]. exists c. split; [by left|done].
Qed.

(** X14. With fewer than ten existing tasks, or none given, and at least
    one category, [classify_task] returns the id of one of the given
    categories, whatever the title; it does not fail on a missing key. *)
Theorem classify_task_member predict (task_title : string) categories
    existing_tasks :
  categories <> [] ->
  (forall tasks, existing_tasks = Some tasks -> (length tasks < 10)%nat) ->
  exists c, c ∈ categories
            /\ classify_task predict task_title categories existing_tasks
               = Return (Some (id c)).
Proof.
  intros Hne Hshort.
  destruct (classify_by_keywords_member task_title categories Hne)
    as (c & Hc & E).
  exists c. split; [done|]. unfold classify_task.
  destruct categories as [|c0 cs]; [done|]. rewrite E.
  destruct existing_tasks as [tasks|]; [|done].
  specialize (Hshort tasks eq_refl).
  destruct (Z.leb_spec 10 (Z.of_nat (length tasks))); [lia|done].
Qed.

Lemma classify_task_member_witness :
  exists c,
    c ∈ [mk_category "c1" "Work"; mk_category "c2" "Health"]
    /\ classify_task (fun _ _ => Raise ValueError) "Gym at six"
         [mk_category "c1" "Work"; mk_category "c2" "Health"] (Some [])
       = Return (Some (id c)).
Proof.
  apply (classify_task_member (fun _ _ => Raise ValueError) "Gym at six"
           [mk_category "c1" "Work"; mk_category "c2" "Health"] (Some [])).
  - discriminate.
  - intros tasks [= <-]. simpl. lia.
Defined.

Lemma score_categories_none t keys table scores :
  existsb (fun kw => contains kw t) (concat (map snd table)) = false ->
  score_categories t keys table scores = scores.
Proof.
  revert scores. induction table as [|[cn kws] table IH]; intros scores;
    simpl; [done|].
  rewrite existsb_app. intros [H1 H2]%orb_false_elim.
  by rewrite score_keywords_none, IH.
Qed.

(** X15. A title that holds none of the keywords of [CATEGORY_KEYWORDS]
    (compared in lower case) gets the id of the first category. *)
Theorem classify_task_default predict (task_title : string) c cs
    existing_tasks :
  existsb (fun kw => contains kw (lower task_title))
    (concat (map snd CATEGORY_KEYWORDS)) = false ->
  (forall tasks, existing_tasks = Some tasks -> (length tasks < 10)%nat) ->
  classify_task predict task_title (c :: cs) existing_tasks
  = Return (Some (id c)).
Proof.
  intros Hnone Hshort.
  assert (classify_by_keywords task_title (c :: cs) = Some (id c)) as E.
  { unfold classify_by_keywords.
    rewrite (score_categories_none _ _ _ _ Hnone).
    set (keys := dict_keys _). clearbody keys.
    replace (existsb _ _) with false; [done|].
    induction keys as [|k keys IH]; [done|]. simpl. by rewrite <- IH. }
  unfold classify_task. rewrite E.
  destruct existing_tasks as [tasks|]; [|done].
  specialize (Hshort tasks eq_refl).
  destruct (Z.leb_spec 10 (Z.of_nat (length tasks))); [lia|done].
Qed.

Lemma classify_task_default_witness :
  classify_task (fun _ _ => Raise ValueError) "Water the plants"
    [mk_category "c1" "Work"; mk_category "c2" "Health"] None
  = Return (Some "c1").
Proof.
  apply (classify_task_default (fun _ _ => Raise ValueError)
           "Water the plants" (mk_category "c1" "Work")
           [mk_category "c2" "Health"] None).
  - vm_compute. reflexivity.
  - intros tasks H. discriminate H.
Defined.

(** The scores when all points went to the key [k]. *)
Lemma add_point_one_key (k : string) (n : Z) keys :
  NoDup keys -> k ∈ keys ->
  add_point k
    (map (fun key => (key, if String.eqb key k then n else 0)) keys)
  = map (fun key => (key, if String.eqb key k then n + 1 else 0)) keys.
Proof.
  intros Hnd Hk. unfold add_point.
  assert (dict_get k
            (map (fun key => (key, if String.eqb key k then n else 0)) keys)
          = Some n) as ->.
  { clear Hnd. induction keys as [|key keys IH].
    { by apply elem_of_nil in Hk. }
    simpl. destruct (String.eqb_spec key k) as [->|Hne]; [done|].
    apply IH. apply elem_of_cons in Hk as [->|Hk]; done. }
  induction keys as [|key keys IH].
  { by apply elem_of_nil in Hk. }
  apply NoDup_cons in Hnd as [Hn Hnd]. simpl.
  destruct (String.eqb_spec key k) as [->|Hne].
  - f_equal. clear IH Hk. induction keys as [|key keys IH]; [done|].
    simpl. apply not_elem_of_cons in Hn as [Hne Hn].
    apply NoDup_cons in Hnd as [_ Hnd].
    destruct (String.eqb_spec key k) as [->|_]; [done|].
    f_equal. by apply IH.
  - f_equal. apply IH; [done|]. apply elem_of_cons in Hk as [->|Hk]; done.
Qed.

Lemma score_keywords_one_key t (k : string) keys kws (n : Z) :
  NoDup keys -> k ∈ keys -> k <> EmptyString ->
  exists m,
    n <= m
    /\ (existsb (fun kw => contains kw t) kws = true -> n < m)
    /\ score_keywords t k keys kws
         (map (fun key => (key, if String.eqb key k then n else 0)) keys)
       = map (fun key => (key, if String.eqb key k then m else 0)) keys.
Proof.
  intros Hnd Hk Hne. revert n. induction kws as [|kw kws IH]; intros n.
  { exists n. split; [lia|]. split; done. }
  cbn [score_keywords existsb].
  destruct (contains kw t).
  - unfold find_best_category_match.
    rewrite (proj2 (key_in_spec k keys) Hk). cbn [truthy_name].
    destruct (String.eqb_spec k EmptyString) as [->|_]; [done|].
    rewrite (add_point_one_key k n keys Hnd Hk).
    destruct (IH (n + 1)) as (m & Hle & _ & E).
    exists m. split; [lia|]. split; [intros _; lia|done].
  - destruct (IH n) as (m & Hle & Hlt & E).
    exists m. split; [done|]. split; done.
Qed.

Lemma score_categories_one_key t (k : string) keys table (n : Z) :
  NoDup keys -> k ∈ keys -> k <> EmptyString ->
  (forall k' kws', (k', kws') ∈ table -> k' <> k ->
                   existsb (fun kw => contains kw t) kws' = false) ->
  exists m,
    n <= m
    /\ (forall kws, (k, kws) ∈ table ->
                    existsb (fun kw => contains kw t) kws = true -> n < m)
    /\ score_categories t keys table
         (map (fun key => (key, if String.eqb key k then n else 0)) keys)
       = map (fun key => (key, if String.eqb key k then m else 0)) keys.
Proof.
  intros Hnd Hk Hne. revert n.
  induction table as [|[cn kws] table IH]; intros n Hother.
  { exists n. split; [lia|]. split; [|done].
    by intros kws ?%elem_of_nil. }
  cbn [score_categories].
  assert (forall k' kws', (k', kws') ∈ table -> k' <> k ->
            existsb (fun kw => contains kw t) kws' = false) as Hother'.
  { intros k' kws' H. apply Hother. by right. }
  destruct (decide (cn = k)) as [->|Hcn].
  - destruct (score_keywords_one_key t k keys kws n Hnd Hk Hne)
      as (m1 & Hle1 & Hlt1 & ->).
    destruct (IH m1 Hother') as (m & Hle & Hlt & E).
    exists m. split; [lia|]. split; [|done].
    intros kws' [[= ->]|Hin]%elem_of_cons Hex.
    + specialize (Hlt1 Hex). lia.
    + specialize (Hlt kws' Hin Hex). lia.
  - rewrite score_keywords_none; [|apply (Hother cn kws); [by left|done]].
    destruct (IH n Hother') as (m & Hle & Hlt & E).
    exists m. split; [done|]. split; [|done].
    intros kws' [[= -> ->]|Hin]%elem_of_cons Hex; [done|].
    by apply Hlt with kws'.
Qed.

Lemma max_item_is_best (k : string) (m : Z) keys :
  0 <= m ->
  max_item (k, m)
    (map (fun key => (key, if String.eqb key k then m else 0)) keys)
  = (k, m).
Proof.
  intros Hm. induction keys as [|key keys IH]; [done|]. simpl.
  destruct (String.eqb key k); simpl.
  - by rewrite Z.ltb_irrefl.
  - destruct (Z.ltb_spec m 0); [lia|done].
Qed.

Lemma max_item_finds (k : string) (m : Z) best keys :
  0 < m -> snd best = 0 -> k ∈ keys ->
  fst (max_item best
         (map (fun key => (key, if String.eqb key k then m else 0)) keys))
  = k.
Proof.
  intros Hm Hbest Hk. induction keys as [|key keys IH].
  { by apply elem_of_nil in Hk. }
  simpl. rewrite Hbest.
  destruct (String.eqb_spec key k) as [->|Hne]; simpl.
  - destruct (Z.ltb_spec 0 m); [|lia].
    rewrite max_item_is_best; [done|lia].
  - apply IH. apply elem_of_cons in Hk as [->|Hk]; done.
Qed.

(** X16. A title with keywords of one entry of [CATEGORY_KEYWORDS] only,
    and a category of that entry's name in any letter case (all the
    categories of that name having one id): the task gets that
    category. *)
Theorem classify_task_direct predict (task_title : string) categories
    existing_tasks c k kws :
  (forall tasks, existing_tasks = Some tasks -> (length tasks < 10)%nat) ->
  (k, kws) ∈ CATEGORY_KEYWORDS ->
  c ∈ categories ->
  lower (name c) = k ->
  (forall c', c' ∈ categories -> lower (name c') = k -> id c' = id c) ->
  existsb (fun kw => contains kw (lower task_title)) kws = true ->
  (forall k' kws', (k', kws') ∈ CATEGORY_KEYWORDS -> k' <> k ->
     existsb (fun kw => contains kw (lower task_title)) kws' = false) ->
  classify_task predict task_title categories existing_tasks
  = Return (Some (id c)).
Proof.
  intros Hshort Hkws Hc Hname Hsame Hhit Hother.
  assert (k <> EmptyString) as Hne.
  { intros ->. apply list_elem_of_In in Hkws. simpl in Hkws.
    intuition discriminate. }
  assert (classify_by_keywords task_title categories = Some (id c)) as E.
  { unfold classify_by_keywords, make_category_id_map.
    set (keys := dict_keys _).
    assert (NoDup keys) as Hnd by (apply id_map_NoDup, NoDup_nil_2).
    assert (k ∈ keys) as Hk.
    { apply id_map_keys. right. by exists c. }
    replace (map (fun cat_name => (cat_name, 0)) keys)
      with (map (fun key => (key, if String.eqb key k then 0 else 0)) keys)
      by (apply map_ext; intros key; by destruct (String.eqb key k)).
    destruct (score_categories_one_key (lower task_title) k keys
                CATEGORY_KEYWORDS 0 Hnd Hk Hne Hother)
      as (m & _ & Hlt & ->).
    specialize (Hlt kws Hkws Hhit).
    replace (existsb _ _) with true.
    2:{ symmetry. apply existsb_exists. exists (k, m). split.
        - apply in_map_iff. exists k. rewrite String.eqb_refl.
          split; [done|]. by apply list_elem_of_In.
        - simpl. destruct (Z.eqb_spec m 0); [lia|done]. }
    destruct keys as [|key keys'] eqn:Ekeys.
    { by apply elem_of_nil in Hk. }
    cbn [map].
    assert (fst (max_item (key, if String.eqb key k then m else 0)
                   (map (fun key0 =>
                           (key0, if String.eqb key0 k then m else 0))
                      keys')) = k) as ->.
    { destruct (String.eqb_spec key k) as [->|Hkey].
      - rewrite max_item_is_best; [done|lia].
      - apply max_item_finds; [done|done|].
        apply elem_of_cons in Hk as [->|Hk]; done. }
    rewrite <- Hname. apply id_map_get; [done|].
    intros c' Hc' E. apply Hsame; [done|]. by rewrite E. }
  unfold classify_task. rewrite E.
  destruct categories as [|c0 cs]; [by apply elem_of_nil in Hc|].
  destruct existing_tasks as [tasks|]; [|done].
  specialize (Hshort tasks eq_refl).
  destruct (Z.leb_spec 10 (Z.of_nat (length tasks))); [lia|done].
Qed.

Lemma classify_task_direct_witness :
  classify_task (fun _ _ => Raise ValueError) "Gym at six"
    [mk_category "c1" "Work"; mk_category "c2" "HEALTH"] None
  = Return (Some "c2").
Proof.
  apply (classify_task_direct (fun _ _ => Raise ValueError) "Gym at six"
           [mk_category "c1" "Work"; mk_category "c2" "HEALTH"] None
           (mk_category "c2" "HEALTH") "health"
           ["exercise"; "workout"; "gym"; "run"; "jog"; "swim"; "doctor";
            "dentist"; "meal"; "diet"; "sleep"; "rest"; "meditate"]).
  - intros tasks H. discriminate H.
  - apply list_elem_of_In. simpl. tauto.
  - apply list_elem_of_In. simpl. tauto.
  - reflexivity.
  - intros c' Hc' E. apply list_elem_of_In in Hc'. simpl in Hc'.
    destruct Hc' as [<-|[<-|[]]]; [discriminate E|reflexivity].
  - vm_compute. reflexivity.
  - intros k' kws' H Hne. apply list_elem_of_In in H. simpl in H.
    destruct H as [H|[H|[H|[H|[]]]]]; injection H as <- <-;
      try (vm_compute; reflexivity).
    by destruct Hne.
Defined.

(** X17. [find_best_category_match] returns one of the available
    categories, the keyword category itself when it is available, and
    [None] only when no category is available. *)
Theorem find_best_category_match_member (keyword_category : string)
    available_categories :
  match find_best_category_match keyword_category available_categories with
  | Some category =>
      category ∈ available_categories
      /\ (keyword_category ∈ available_categories ->
          category = keyword_category)
  | None => available_categories = []
  end.
Proof.
  unfold find_best_category_match.
  destruct (key_in keyword_category available_categories) eqn:E.
  - split; [by apply key_in_spec|done].
  - assert (keyword_category ∉ available_categories) as Hnot.
    { intros H%key_in_spec. congruence. }
    destruct (find _ available_categories) as [category|] eqn:Hfind.
    + apply find_some in Hfind as [Hin _].
      split; [by apply list_elem_of_In|done].
    + destruct available_categories as [|category rest]; simpl; [done|].
      split; [by left|done].
Qed.

End ClassifierMore.

(** ** [check_in_habit]: more properties *)

Module CheckInMore.
Import Calendar IsoText Py DataManager CalendarFacts IsoFacts PyFacts
  CheckInFacts CheckInEffects RankMore Examples.

Lemma insert_sorted_midnight x l :
  date_ok x = true -> Forall (fun b => date_ok b = true) l ->
  insert_sorted datetime_ltb (midnight x) (map midnight l)
  = map midnight (insert_sorted (key_lt toordinal) x l).
Proof.
  intros Hx. induction 1 as [|y l Hy Hl IH]; simpl; [done|].
  rewrite midnight_ltb by done. unfold key_lt at 1.
  destruct (toordinal y <? toordinal x); simpl; [by rewrite IH|done].
Qed.

(** Sorting the midnights of valid days sorts the days by their
    ordinals. *)
Lemma sorted_midnight l :
  Forall (fun b => date_ok b = true) l ->
  sorted datetime_ltb (map midnight l)
  = map midnight (sorted (key_lt toordinal) l).
Proof.
  unfold sorted. induction 1 as [|x l Hx Hl IH]; simpl; [done|].
  rewrite IH. apply insert_sorted_midnight; [done|].
  apply Forall_forall. intros y Hy. apply sorted_elem in Hy.
  rewrite Forall_forall in Hl. by apply Hl.
Qed.

Lemma StronglySorted_lookup_lt {A} (R : A -> A -> Prop) l i j a b :
  StronglySorted R l ->
  l !! i = Some a -> l !! j = Some b -> (i < j)%nat -> R a b.
Proof.
  intros Hs. revert i j.
  induction Hs as [|x l Hs IH Hx]; intros i j; [done|].
  destruct i, j; simpl; try lia.
  - intros [= <-] Hb _. rewrite Forall_forall in Hx. apply Hx.
    by eapply list_elem_of_lookup_2.
  - intros Ha Hb Hij. apply (IH i j); [done|done|lia].
Qed.

Lemma StronglySorted_strict {A} (key : A -> Z) l :
  StronglySorted (fun a b => key a <= key b) l ->
  NoDup (map key l) ->
  StronglySorted (fun a b => key a < key b) l.
Proof.
  induction 1 as [|x l Hs IH Hx]; simpl; [constructor|].
  intros [Hn Hd]%NoDup_cons. constructor; [by apply IH|].
  rewrite Forall_forall in *. intros y Hy. specialize (Hx y Hy).
  assert (key y <> key x); [|lia]. intros E. apply Hn. rewrite <- E.
  by apply list_elem_of_In, in_map, list_elem_of_In.
Qed.

Lemma range_nil a b : b <= a -> range a b = [].
Proof.
  intros H. unfold range.
  by replace (Z.to_nat (b - a)) with 0%nat by lia.
Qed.

Lemma range_cons a b : a < b -> range a b = a :: range (a + 1) b.
Proof.
  intros H. unfold range.
  replace (Z.to_nat (b - a)) with (S (Z.to_nat (b - (a + 1)))) by lia.
  simpl. f_equal; [lia|].
  rewrite <- seq_shift, map_map. apply map_ext. intros k. lia.
Qed.

Lemma index_neg {A} (l : list A) j :
  1 <= j <= Z.of_nat (length l) ->
  index l (- j) = l !! Z.to_nat (Z.of_nat (length l) - j).
Proof.
  intros H. unfold index, position.
  destruct (Z.ltb_spec (- j) 0); [|lia].
  destruct (Z.leb_spec 0 (- j + Z.of_nat (length l))); [|lia].
  destruct (Z.ltb_spec (- j + Z.of_nat (length l)) (Z.of_nat (length l)));
    [|lia].
  simpl. f_equal. lia.
Qed.

(** The walk back over the sorted days [s]: it counts the days that run
    back from the last one without a gap, and stops at the first gap. *)
Lemma streak_loop_run (s : list date) (D : Z) :
  forall (m : nat) a i,
  1 <= a <= Z.of_nat (length s) ->
  Z.of_nat m = Z.of_nat (length s) - a ->
  (forall j, 0 <= j < a ->
     exists x, s !! Z.to_nat (Z.of_nat (length s) - 1 - j) = Some x
               /\ toordinal x = D - j) ->
  exists i' cur,
    streak_loop (map midnight s) (range a (Z.of_nat (length s))) i a
      = Some (i', cur)
    /\ a <= cur <= Z.of_nat (length s)
    /\ (forall j, 0 <= j < cur ->
          exists x, s !! Z.to_nat (Z.of_nat (length s) - 1 - j) = Some x
                    /\ toordinal x = D - j)
    /\ (cur = Z.of_nat (length s)
        \/ exists x, s !! Z.to_nat (Z.of_nat (length s) - 1 - cur) = Some x
                     /\ toordinal x <> D - cur).
Proof.
  set (n := Z.of_nat (length s)).
  induction m as [|m IH]; intros a i Ha Hm Hinv.
  - rewrite range_nil by lia. simpl. exists i, a.
    split; [done|]. split; [lia|]. split; [done|]. left. lia.
  - rewrite range_cons by lia. cbn [streak_loop].
    replace (- a - 1) with (- (a + 1)) by lia.
    rewrite !index_neg by (rewrite length_map; fold n; lia).
    rewrite length_map. fold n. change map with (@fmap list _).
    rewrite !list_lookup_fmap.
    destruct (lookup_lt_is_Some_2 s (Z.to_nat (n - (a + 1)))) as [prev Hprev];
      [lia|].
    destruct (Hinv (a - 1)) as (curr & Hcurr & Hc); [lia|].
    replace (n - 1 - (a - 1)) with (n - a) in Hcurr by lia.
    rewrite Hprev, Hcurr. simpl. unfold date_sub_days.
    destruct (Z.eqb_spec (toordinal curr - toordinal prev) 1) as [E|E].
    + destruct (IH (a + 1) a) as (i' & cur & Hl & Hcur & Hinv' & Hstop);
        [lia|lia| |].
      { intros j Hj. destruct (decide (j = a)) as [->|Hja].
        - exists prev. replace (n - 1 - a) with (n - (a + 1)) by lia.
          split; [done|lia].
        - apply Hinv. lia. }
      exists i', cur. split; [done|]. split; [lia|]. done.
    + exists a, a. split; [done|]. split; [lia|]. split; [done|].
      right. exists prev. replace (n - 1 - a) with (n - (a + 1)) by lia.
      split; [done|lia].
Qed.

(** The last entry of a sorted list has the greatest key. *)
Lemma sorted_last_max {A} (key : A -> Z) (l : list A) :
  l <> [] ->
  exists x,
    sorted (key_lt key) l !! (length l - 1)%nat = Some x
    /\ x ∈ l /\ forall y, y ∈ l -> key y <= key x.
Proof.
  intros Hne. set (s := sorted (key_lt key) l).
  assert (length s = length l) as Hlen by apply sorted_length.
  assert (length l <> 0%nat) as Hl by (by destruct l).
  destruct (lookup_lt_is_Some_2 s (length l - 1)) as [x Hx]; [lia|].
  exists x. split; [done|]. split.
  - apply (sorted_elem key). by eapply list_elem_of_lookup_2.
  - intros y Hy. apply (sorted_elem key) in Hy.
    apply list_elem_of_lookup_1 in Hy as [p Hp].
    pose proof (lookup_lt_Some _ _ _ Hp) as Hlt.
    destruct (decide (p = (length l - 1)%nat)) as [->|Hne'].
    + fold s in Hp. rewrite Hx in Hp. injection Hp as ->. lia.
    + apply (StronglySorted_lookup_lt (fun a b => key a <= key b) s
               p (length l - 1) y x); [apply sorted_sorted|done|done|].
      fold s in Hlt. lia.
Qed.

(** A new check-in that leaves the loop variable at the habit's own
    position: the call returns [True] and the list is as before. *)
Lemma check_in_habit_kept today hid st hs k r h d parsed last cur :
  habits st = Some hs ->
  find_habit (objects st) hid hs 0 = Some (k, r, h) ->
  isoformat d ∉ default [] (check_ins h) ->
  mapM fromisoformat (default [] (check_ins h) ++ [isoformat d])
    = Some parsed ->
  index (sorted datetime_ltb parsed) (-1) = Some last ->
  walk_back d (sorted datetime_ltb parsed) (dt_date last) k 1
    = Some (k, cur) ->
  check_in_habit today hid (Some d) st
  = (Return true,
     mk_session (<[r:=checked_in h (isoformat d) cur]> (objects st))
       (Some hs) (Some (default 0 (points st) + 5))).
Proof.
  intros Hhs Hfind Hfresh Hparse Hlast Hw.
  destruct (find_habit_spec _ _ _ _ _ _ _ Hfind) as (_ & _ & Hk & Hr).
  replace (k - 0) with k in Hr by lia.
  destruct (check_in_found_fresh d st hs r h k parsed Hhs Hk Hfresh Hparse)
    as (last' & i' & cur' & Hlast' & Hw' & _ & _ & Hcall).
  rewrite Hlast in Hlast'. injection Hlast' as <-.
  rewrite Hw in Hw'. injection Hw' as <- <-.
  unfold check_in_habit. rewrite Hhs.
  change (default today (Some d)) with d.
  rewrite (check_in_scan_found _ _ _ _ _ _ _ _ Hfind).
  pose proof (lookup_lt_Some _ _ _ Hr) as Hlt.
  destruct Hcall as [[_ ->]|[Hge _]]; [|lia].
  by rewrite list_insert_id.
Qed.

(** X18. The first check-in of a habit: the call returns [True], the list
    of habits is as before, the habit has the one check-in and the
    current streak 1, and 5 points are added. *)
Theorem check_in_first today hid st hs k r h d :
  habits st = Some hs ->
  find_habit (objects st) hid hs 0 = Some (k, r, h) ->
  default [] (check_ins h) = [] ->
  date_ok d = true ->
  check_in_habit today hid (Some d) st
  = (Return true,
     mk_session (<[r:=checked_in h (isoformat d) 1]> (objects st))
       (Some hs) (Some (default 0 (points st) + 5))).
Proof.
  intros Hhs Hfind Hcis Hd.
  apply (check_in_habit_kept today hid st hs k r h d [midnight d]
           (midnight d) 1 Hhs Hfind).
  - rewrite Hcis. apply not_elem_of_nil.
  - rewrite Hcis. simpl. by rewrite fromisoformat_isoformat.
  - reflexivity.
  - unfold walk_back. simpl. by rewrite date_eqb_refl.
Qed.

Lemma check_in_first_witness :
  check_in_habit (march 10) "h1" (Some (march 10)) one_habit
  = (Return true,
     mk_session
       (<[0%nat:=checked_in run_habit (isoformat (march 10)) 1]>
          (objects one_habit))
       (Some [0%nat]) (Some (default 0 (points one_habit) + 5))).
Proof.
  apply (check_in_first (march 10) "h1" one_habit [0%nat] 0 0%nat
           run_habit (march 10)).
  - reflexivity.
  - vm_compute. reflexivity.
  - reflexivity.
  - reflexivity.
Defined.

(** X19. A check-in on a day before a recorded day: the call returns
    [True], the list of habits is as before, and the current streak is set
    to 1, whatever days are recorded around the new day. *)
Theorem check_in_past_day today hid st hs k r h ds d b :
  habits st = Some hs ->
  find_habit (objects st) hid hs 0 = Some (k, r, h) ->
  default [] (check_ins h) = map isoformat ds ->
  Forall (fun b => date_ok b = true /\ toordinal b <> toordinal d) ds ->
  date_ok d = true ->
  b ∈ ds ->
  toordinal d < toordinal b ->
  check_in_habit today hid (Some d) st
  = (Return true,
     mk_session (<[r:=checked_in h (isoformat d) 1]> (objects st))
       (Some hs) (Some (default 0 (points st) + 5))).
Proof.
  intros Hhs Hfind Hcis Hds Hd Hb Hlt.
  assert (Forall (fun b => date_ok b = true) (ds ++ [d])) as Hok.
  { apply Forall_app. split; [|by repeat constructor].
    eapply Forall_impl; [exact Hds|]. by intros ? []. }
  destruct (sorted_last_max toordinal (ds ++ [d])) as (x & Hx & Hxin & Hmax).
  { by destruct ds. }
  assert (index (sorted datetime_ltb (map midnight (ds ++ [d]))) (-1)
          = Some (midnight x)) as Hlast.
  { rewrite sorted_midnight by done.
    rewrite (index_neg _ 1)
      by (rewrite length_map, sorted_length, length_app; simpl; lia).
    rewrite length_map, sorted_length. change map with (@fmap list _).
    rewrite list_lookup_fmap.
    replace (Z.to_nat (Z.of_nat (length (ds ++ [d])) - 1))
      with (length (ds ++ [d]) - 1)%nat by lia.
    by rewrite Hx. }
  apply (check_in_habit_kept today hid st hs k r h d
           (map midnight (ds ++ [d])) (midnight x) 1 Hhs Hfind).
  - rewrite Hcis. by apply isoformat_fresh.
  - rewrite Hcis. change [isoformat d] with (map isoformat [d]).
    rewrite <- map_app. by apply mapM_isoformat.
  - exact Hlast.
  - unfold walk_back. cbn [dt_date midnight].
    rewrite Forall_forall in Hok.
    rewrite date_eqb_ordinal by (try done; by apply Hok).
    assert (toordinal b <= toordinal x) as Hbx.
    { apply Hmax. apply elem_of_app. by left. }
    destruct (Z.eqb_spec (toordinal x) (toordinal d)); [lia|done].
Qed.

Lemma check_in_past_day_witness :
  check_in_habit (march 10) "h1" (Some (march 8)) one_habit_day10
  = (Return true,
     mk_session
       (<[0%nat:=checked_in run_habit_day10 (isoformat (march 8)) 1]>
          (objects one_habit_day10))
       (Some [0%nat]) (Some (default 0 (points one_habit_day10) + 5))).
Proof.
  apply (check_in_past_day (march 10) "h1" one_habit_day10 [0%nat] 0 0%nat
           run_habit_day10 [march 10] (march 8) (march 10)).
  - reflexivity.
  - vm_compute. reflexivity.
  - reflexivity.
  - repeat constructor. vm_compute. discriminate.
  - reflexivity.
  - left.
  - vm_compute. reflexivity.
Defined.

(** X20. A check-in on a day later than all the recorded days counts the
    run of days that ends on it: the current streak [cur] is stored in
    the habit, the [cur - 1] days before the new day are all recorded, and
    the day [cur] days before it is not. This holds whether the call
    returns or raises. *)
Theorem check_in_streak_run today hid st hs k r h ds d :
  habits st = Some hs ->
  find_habit (objects st) hid hs 0 = Some (k, r, h) ->
  default [] (check_ins h) = map isoformat ds ->
  Forall (fun b => date_ok b = true /\ toordinal b < toordinal d) ds ->
  NoDup (map toordinal ds) ->
  date_ok d = true ->
  exists cur hs' k',
    let st' := snd (check_in_habit today hid (Some d) st) in
    habits st' = Some hs'
    /\ find_habit (objects st') hid hs' 0
       = Some (k', r, checked_in h (isoformat d) cur)
    /\ 1 <= cur
    /\ (forall j, 1 <= j < cur ->
          exists b, b ∈ ds /\ toordinal b = toordinal d - j)
    /\ (forall b, b ∈ ds -> toordinal b <> toordinal d - cur).
Proof.
  intros Hhs Hfind Hcis Hds Hnd Hd.
  assert (Forall (fun b => date_ok b = true /\ toordinal b <> toordinal d)
            ds) as Hds'.
  { eapply Forall_impl; [exact Hds|]. intros b [? ?]. split; [done|lia]. }
  assert (Forall (fun b => date_ok b = true) (ds ++ [d])) as Hok.
  { apply Forall_app. split; [|by repeat constructor].
    eapply Forall_impl; [exact Hds|]. by intros ? []. }
  destruct (check_in_habit_dates today hid st hs k r h ds d Hhs Hfind Hcis
              Hds' Hd)
    as (last & i' & cur & hs' & k' & Hlast & Hw & Hhs' & Hfind' & _).
  exists cur, hs', k'. cbn zeta. split; [done|]. split; [done|].
  rewrite sorted_midnight in Hlast, Hw by done.
  set (s := sorted (key_lt toordinal) (ds ++ [d])) in *.
  assert (length s = S (length ds)) as Hlen.
  { unfold s. rewrite sorted_length, length_app. simpl. lia. }
  rewrite Forall_forall in Hds.
  (* the new day is the last one *)
  destruct (sorted_last_max toordinal (ds ++ [d])) as (x & Hx & Hxin & Hmax).
  { by destruct ds. }
  fold s in Hx.
  assert (x = d) as ->.
  { apply elem_of_app in Hxin as [Hxin|Hxin%list_elem_of_singleton]; [|done].
    assert (toordinal d <= toordinal x).
    { apply Hmax, elem_of_app. right. by left. }
    destruct (Hds x Hxin). lia. }
  replace (length (ds ++ [d]) - 1)%nat with (length ds) in Hx
    by (rewrite length_app; simpl; lia).
  rewrite (index_neg _ 1) in Hlast by (rewrite length_map; lia).
  rewrite length_map, Hlen in Hlast. change map with (@fmap list _) in Hlast.
  rewrite list_lookup_fmap in Hlast.
  replace (Z.to_nat (Z.of_nat (S (length ds)) - 1)) with (length ds)
    in Hlast by lia.
  rewrite Hx in Hlast. injection Hlast as <-.
  unfold walk_back in Hw. cbn [dt_date midnight] in Hw.
  rewrite date_eqb_refl, length_map in Hw.
  destruct (streak_loop_run s (toordinal d) (length ds) 1 k)
    as (i'' & cur' & Hrun & Hcur & Hinv & Hstop); [lia|lia| |].
  { intros j Hj. assert (j = 0) as -> by lia. exists d.
    replace (Z.to_nat (Z.of_nat (length s) - 1 - 0)) with (length ds) by lia.
    split; [done|lia]. }
  change (@fmap list _ _ _ midnight s) with (map midnight s) in Hw.
  rewrite Hw in Hrun. injection Hrun as <- <-.
  split; [lia|].
  assert (forall y, y ∈ s <-> y ∈ ds ++ [d]) as Hs.
  { intros y. apply sorted_elem. }
  split.
  - intros j Hj. destruct (Hinv j) as (y & Hy & Hyo); [lia|].
    exists y. split; [|done].
    apply list_elem_of_lookup_2, Hs, elem_of_app in Hy
      as [Hy|Hy%list_elem_of_singleton]; [done|]. subst y. lia.
  - intros b Hb Hbo.
    assert (StronglySorted (fun a b => toordinal a < toordinal b) s)
      as Hstrict.
    { apply StronglySorted_strict; [apply sorted_sorted|].
      unfold s. rewrite (sorted_perm toordinal (ds ++ [d])), map_app.
      apply NoDup_app. split; [done|]. split; [|apply NoDup_singleton].
      intros o Ho [<-|[]]%list_elem_of_In.
      apply list_elem_of_In, in_map_iff in Ho as (y & Hy & Hyin).
      apply list_elem_of_In in Hyin. destruct (Hds y Hyin). lia. }
    assert (b ∈ s) as Hbs by (apply Hs, elem_of_app; by left).
    apply list_elem_of_lookup_1 in Hbs as [p Hp].
    pose proof (lookup_lt_Some _ _ _ Hp) as Hplt.
    destruct (decide (Z.of_nat (length s) - 1 - cur < Z.of_nat p))
      as [Hhigh|Hlow].
    + destruct (Hinv (Z.of_nat (length s) - 1 - Z.of_nat p))
        as (y & Hy & Hyo); [lia|].
      replace (Z.to_nat (Z.of_nat (length s) - 1
                         - (Z.of_nat (length s) - 1 - Z.of_nat p)))
        with p in Hy by lia.
      rewrite Hp in Hy. injection Hy as <-. lia.
    + destruct Hstop as [Hn|(y & Hy & Hyo)]; [lia|].
      destruct (Hinv (cur - 1)) as (z & Hz & Hzo); [lia|].
      assert (toordinal y < toordinal z) as Hyz.
      { apply (StronglySorted_lookup_lt
                 (fun a b => toordinal a < toordinal b) s _ _ y z Hstrict
                 Hy Hz). lia. }
      destruct (decide (p = Z.to_nat (Z.of_nat (length s) - 1 - cur)))
        as [->|Hpne].
      * rewrite Hp in Hy. injection Hy as <-. lia.
      * assert (toordinal b < toordinal y); [|lia].
        apply (StronglySorted_lookup_lt
                 (fun a b => toordinal a < toordinal b) s _ _ b y Hstrict
                 Hp Hy). lia.
Qed.

Lemma check_in_streak_run_witness :
  exists cur hs' k',
    let st' :=
      snd (check_in_habit (march 1) "h1" (Some (march 11)) one_habit_day10)
    in
    habits st' = Some hs'
    /\ find_habit (objects st') "h1" hs' 0
       = Some (k', 0%nat,
               checked_in run_habit_day10 (isoformat (march 11)) cur)
    /\ 1 <= cur
    /\ (forall j, 1 <= j < cur ->
          exists b, b ∈ [march 10]
                    /\ toordinal b = toordinal (march 11) - j)
    /\ (forall b, b ∈ [march 10] ->
          toordinal b <> toordinal (march 11) - cur).
Proof.
  apply (check_in_streak_run (march 1) "h1" one_habit_day10 [0%nat] 0 0%nat
           run_habit_day10 [march 10] (march 11)).
  - reflexivity.
  - vm_compute. reflexivity.
  - reflexivity.
  - repeat constructor.
  - apply NoDup_singleton.
  - reflexivity.
Defined.

Lemma check_in_scan_unknown hid d st hs i :
  Forall (fun r => is_Some (objects st !! r)) hs ->
  find_habit (objects st) hid hs i = None ->
  check_in_scan hid d st hs i = (Return false, st).
Proof.
  intros Hall. revert i.
  induction Hall as [|r hs [h0 Hr] Hall IH]; intros i; simpl; [done|].
  rewrite Hr. simpl. destruct (String.eqb (id h0) hid); [done|]. apply IH.
Qed.

(** X21. An id that no habit of the list carries: the call returns
    [False] and changes nothing; it adds no check-in and no points. *)
Theorem check_in_unknown_id today hid date st hs :
  habits st = Some hs ->
  Forall (fun r => is_Some (objects st !! r)) hs ->
  find_habit (objects st) hid hs 0 = None ->
  check_in_habit today hid date st = (Return false, st).
Proof.
  intros Hhs Hall Hnone. unfold check_in_habit. rewrite Hhs.
  by apply check_in_scan_unknown.
Qed.

Lemma check_in_unknown_id_witness :
  check_in_habit (march 10) "h9" None two_habits_day10
  = (Return false, two_habits_day10).
Proof.
  apply (check_in_unknown_id (march 10) "h9" None two_habits_day10
           [0%nat; 1%nat]).
  - reflexivity.
  - repeat constructor; eexists; vm_compute; reflexivity.
  - vm_compute. reflexivity.
Defined.

End CheckInMore.

(** ** Tasks, points and rewards *)

Module StoreMore.
Import Calendar IsoText Store.

Lemma update_first_cases task_id kwargs ts :
  (exists i t,
     ts !! i = Some t /\ id t = task_id
     /\ (forall j t', (j < i)%nat -> ts !! j = Some t' -> id t' <> task_id)
     /\ update_first task_id kwargs ts
        = Some (<[i:=foldl set_field t kwargs]> ts))
  \/ ((forall t, t ∈ ts -> id t <> task_id)
      /\ update_first task_id kwargs ts = None).
Proof.
  induction ts as [|t ts IH]; simpl.
  - right. split; [|done]. by intros t ?%elem_of_nil.
  - destruct (String.eqb_spec (id t) task_id) as [E|E].
    + left. exists 0%nat, t. repeat split; try done. intros j t' Hj. lia.
    + destruct IH as [(i & t0 & Hi & Hid & Hfirst & ->)|[Hnone ->]].
      * left. exists (S i), t0. repeat split; try done.
        intros [|j] t' Hj; simpl.
        -- by intros [= <-].
        -- apply Hfirst. lia.
      * right. split; [|done].
        intros t' [->|Ht']%elem_of_cons; [done|]. by apply Hnone.
Qed.

(** X22. [update_task] rewrites the first task that carries the id, in
    its place, with the given values in their order, and leaves the other
    tasks alone; without such a task it returns [False] and the session is
    as before. *)
Theorem update_task_cases task_id kwargs st :
  let ts := default [] (tasks st) in
  (exists i t,
     ts !! i = Some t /\ id t = task_id
     /\ (forall j t', (j < i)%nat -> ts !! j = Some t' -> id t' <> task_id)
     /\ update_task task_id kwargs st
        = (true, set_tasks st (<[i:=foldl set_field t kwargs]> ts)))
  \/ ((forall t, t ∈ ts -> id t <> task_id)
      /\ update_task task_id kwargs st = (false, st)).
Proof.
  unfold update_task. destruct (tasks st) as [ts|]; simpl.
  - destruct (update_first_cases task_id kwargs ts)
      as [(i & t & Hi & Hid & Hfirst & ->)|[Hnone ->]].
    + left. by exists i, t.
    + by right.
  - right. split; [|done]. by intros t ?%elem_of_nil.
Qed.

Lemma filter_other_ids task_id (ts : list task) :
  (forall t, t ∈ ts -> id t <> task_id) ->
  List.filter (fun t => negb (String.eqb (id t) task_id)) ts = ts.
Proof.
  induction ts as [|t ts IH]; intros H; simpl; [done|].
  destruct (String.eqb_spec (id t) task_id) as [E|E]; simpl.
  - destruct (H t); [by left|done].
  - rewrite IH; [done|]. intros t' Ht'. apply H. by right.
Qed.

(** X23. A task that is added under an id that no task carries and then
    deleted by that id: [delete_task] returns [True] and the list of
    tasks is as it was before the two calls. *)
Theorem add_task_delete_task fresh_id now title description category_id
    due_date importance urgency st :
  (forall t, t ∈ default [] (tasks st) -> id t <> fresh_id) ->
  delete_task fresh_id
    (snd (add_task fresh_id now title description category_id due_date
            importance urgency st))
  = (true, set_tasks st (default [] (tasks st))).
Proof.
  intros Hfresh. unfold add_task, delete_task. cbn [snd tasks set_tasks].
  rewrite List.filter_app, filter_other_ids by done.
  cbn [List.filter id]. rewrite String.eqb_refl. cbn [negb].
  rewrite app_nil_r, length_app. cbn [length].
  destruct (Nat.eqb_spec (length (default [] (tasks st)) + 1)
              (length (default [] (tasks st)))); [lia|done].
Qed.

Lemma add_task_delete_task_witness :
  delete_task "t1"
    (snd (add_task "t1" "2024-03-10T09:00:00" "Call" "" None None 3 3
            (mk_session None None None None None)))
  = (true,
     set_tasks (mk_session None None None None None)
       (default [] (tasks (mk_session None None None None None)))).
Proof.
  apply (add_task_delete_task "t1" "2024-03-10T09:00:00" "Call" "" None None
           3 3 (mk_session None None None None None)).
  simpl. intros t Ht. by apply elem_of_nil in Ht.
Defined.

(** What the loop unlocks: the rewards that are not unlocked yet and that
    the balance pays, in their order, each stamped with its own reading of
    the clock. *)
Lemma unlock_loop_spec c points unlocked_ids rs :
  forall k acc,
  exists new,
    unlock_loop c k points unlocked_ids rs acc = acc ++ new
    /\ map unlocked_reward new
       = List.filter
           (fun r =>
              negb (existsb (String.eqb (reward_id r)) unlocked_ids)
              && (point_cost r <=? points)) rs
    /\ Forall (fun u => redeemed_at u = None /\ is_Some (unlocked_at u)) new.
Proof.
  induction rs as [|r rs IH]; intros k acc; simpl.
  - exists []. by rewrite app_nil_r.
  - destruct (negb _ && _).
    + destruct (IH (S k) (acc ++ [mk_unlocked r (Some (c k)) None]))
        as (new & -> & Hmap & Hall).
      exists (mk_unlocked r (Some (c k)) None :: new).
      rewrite <- app_assoc. simpl. split; [done|]. split; [by f_equal|].
      constructor; [|done]. split; [done|]. by eexists.
    + apply IH.
Qed.

Lemma existsb_eqb_elem (x : string) l :
  existsb (String.eqb x) l = true <-> x ∈ l.
Proof.
  rewrite existsb_exists. split.
  - intros (y & Hy & ->%String.eqb_eq). by apply list_elem_of_In.
  - intros H. exists x. split; [by apply list_elem_of_In|].
    apply String.eqb_refl.
Qed.

Lemma award_points_eq c n st rs :
  rewards st = Some rs ->
  let old := default [] (unlocked_rewards st) in
  let old_ids := map (fun u => reward_id (unlocked_reward u)) old in
  let balance := default 0 (points st) + n in
  exists new,
    award_points c n st
    = (balance,
       mk_session (categories st) (tasks st) (Some balance) (Some rs)
         (Some (old ++ new)))
    /\ map unlocked_reward new
       = List.filter
           (fun r => negb (existsb (String.eqb (reward_id r)) old_ids)
                     && (point_cost r <=? balance)) rs
    /\ Forall (fun u => redeemed_at u = None /\ is_Some (unlocked_at u)) new.
Proof.
  intros Hrs old old_ids balance.
  destruct (unlock_loop_spec c balance old_ids rs 0 old)
    as (new & Hloop & Hmap & Hall).
  exists new. split; [|split; done].
  unfold award_points, check_for_unlockable_rewards.
  cbn [set_points rewards points unlocked_rewards]. rewrite Hrs.
  cbn [from_option Datatypes.id]. fold old old_ids balance.
  rewrite Hloop. unfold set_unlocked_rewards. simpl. by rewrite Hrs.
Qed.

(** X24. [award_points] adds the points to the balance (0 when missing)
    and returns it. With a list of rewards, it then appends to the
    unlocked rewards, which it keeps, a copy of every reward that the new
    balance pays and whose id was not unlocked before, not redeemed; so
    every reward that the balance pays has its id among the unlocked
    ones. *)
Theorem award_points_unlocks c n st rs :
  rewards st = Some rs ->
  let old := default [] (unlocked_rewards st) in
  let old_ids := map (fun u => reward_id (unlocked_reward u)) old in
  let balance := default 0 (points st) + n in
  exists new,
    award_points c n st
    = (balance,
       mk_session (categories st) (tasks st) (Some balance) (Some rs)
         (Some (old ++ new)))
    /\ map unlocked_reward new
       = List.filter
           (fun r => negb (existsb (String.eqb (reward_id r)) old_ids)
                     && (point_cost r <=? balance)) rs
    /\ Forall (fun u => redeemed_at u = None /\ is_Some (unlocked_at u)) new
    /\ forall r, r ∈ rs -> point_cost r <= balance ->
         reward_id r
           ∈ map (fun u => reward_id (unlocked_reward u)) (old ++ new).
Proof.
  intros Hrs old old_ids balance.
  destruct (award_points_eq c n st rs Hrs) as (new & Heq & Hmap & Hall).
  exists new. split; [done|]. split; [done|]. split; [done|].
  intros r Hr Hcost. rewrite map_app. apply elem_of_app.
  destruct (existsb (String.eqb (reward_id r)) old_ids) eqn:E.
  - left. by apply existsb_eqb_elem.
  - right. rewrite <- (map_map unlocked_reward reward_id), Hmap.
    apply list_elem_of_In, in_map, filter_In. split.
    + by apply list_elem_of_In.
    + cbn beta. fold old old_ids balance. rewrite E. simpl.
      by apply Z.leb_le.
Qed.

Lemma award_points_unlocks_witness :
  let st :=
    mk_session None None (Some 95) (Some [mk_reward "r1" "Tea" 100]) None in
  let old := default [] (unlocked_rewards st) in
  let old_ids := map (fun u => reward_id (unlocked_reward u)) old in
  let balance := default 0 (points st) + 10 in
  exists new,
    award_points (fun _ => "2024-03-10T09:00:00") 10 st
    = (balance,
       mk_session (categories st) (tasks st) (Some balance)
         (Some [mk_reward "r1" "Tea" 100]) (Some (old ++ new)))
    /\ map unlocked_reward new
       = List.filter
           (fun r => negb (existsb (String.eqb (reward_id r)) old_ids)
                     && (point_cost r <=? balance))
           [mk_reward "r1" "Tea" 100]
    /\ Forall (fun u => redeemed_at u = None /\ is_Some (unlocked_at u)) new
    /\ forall r, r ∈ [mk_reward "r1" "Tea" 100] -> point_cost r <= balance ->
         reward_id r
           ∈ map (fun u => reward_id (unlocked_reward u)) (old ++ new).
Proof.
  apply (award_points_unlocks (fun _ => "2024-03-10T09:00:00") 10
           (mk_session None None (Some 95) (Some [mk_reward "r1" "Tea" 100])
              None) [mk_reward "r1" "Tea" 100]).
  reflexivity.
Defined.

Lemma filter_ids_NoDup (f : reward -> bool) rs :
  NoDup (map reward_id rs) -> NoDup (map reward_id (List.filter f rs)).
Proof.
  induction rs as [|r rs IH]; simpl; [done|].
  intros [Hn Hd]%NoDup_cons. destruct (f r); simpl; [|by apply IH].
  apply NoDup_cons. split; [|by apply IH].
  intros H. apply Hn.
  apply list_elem_of_In, in_map_iff in H as (r' & E & Hr').
  apply filter_In in Hr' as [Hr' _]. rewrite <- E.
  by apply list_elem_of_In, in_map.
Qed.

(** X25. With distinct reward ids, [award_points] unlocks no reward
    twice: if no id occurs twice among the unlocked rewards before the
    call, none does after it. *)
Theorem award_points_no_repeat c n st rs :
  rewards st = Some rs ->
  NoDup (map reward_id rs) ->
  NoDup (map (fun u => reward_id (unlocked_reward u))
           (default [] (unlocked_rewards st))) ->
  NoDup (map (fun u => reward_id (unlocked_reward u))
           (default [] (unlocked_rewards (snd (award_points c n st))))).
Proof.
  intros Hrs Hnd Hold.
  destruct (award_points_eq c n st rs Hrs) as (new & -> & Hmap & _).
  cbn [snd unlocked_rewards from_option Datatypes.id].
  rewrite map_app. apply NoDup_app. split; [done|]. split.
  - intros i Hi Hnew.
    rewrite <- (map_map unlocked_reward reward_id), Hmap in Hnew.
    apply list_elem_of_In, in_map_iff in Hnew as (r & <- & Hr).
    apply filter_In in Hr as [_ Hr]. apply andb_prop in Hr as [Hr _].
    apply negb_true_iff in Hr.
    apply existsb_eqb_elem in Hi. congruence.
  - rewrite <- (map_map unlocked_reward reward_id), Hmap.
    by apply filter_ids_NoDup.
Qed.

Lemma award_points_no_repeat_witness :
  NoDup (map (fun u => reward_id (unlocked_reward u))
           (default []
              (unlocked_rewards
                 (snd (award_points (fun _ => "2024-03-10T09:00:00") 10
                         (mk_session None None (Some 95)
                            (Some [mk_reward "r1" "Tea" 100]) None)))))).
Proof.
  apply (award_points_no_repeat (fun _ => "2024-03-10T09:00:00") 10
           (mk_session None None (Some 95) (Some [mk_reward "r1" "Tea" 100])
              None) [mk_reward "r1" "Tea" 100]).
  - reflexivity.
  - apply NoDup_singleton.
  - apply NoDup_nil_2.
Defined.

Lemma award_points_frame c n st :
  let st' := snd (award_points c n st) in
  tasks st' = tasks st /\ points st' = Some (default 0 (points st) + n).
Proof.
  unfold award_points, check_for_unlockable_rewards. simpl.
  destruct (rewards st); done.
Qed.

(** X26. [complete_task] on an id that a task carries, whether that task
    is completed already or not: it returns [True], a task of the id is
    completed with the time of the call, and 10 points are added. *)
Theorem complete_task_awards c task_id st ts i t :
  tasks st = Some ts ->
  ts !! i = Some t ->
  id t = task_id ->
  exists st' ts' t',
    complete_task c task_id st = (true, st')
    /\ points st' = Some (default 0 (points st) + 10)
    /\ tasks st' = Some ts'
    /\ length ts' = length ts
    /\ t' ∈ ts' /\ id t' = task_id
    /\ completed t' = true /\ completed_at t' = Some (c 0%nat).
Proof.
  intros Hts Hi Hid. unfold complete_task, update_task. rewrite Hts.
  destruct (update_first_cases task_id
              [Completed true; CompletedAt (c 0%nat)] ts)
    as [(i0 & t0 & Hi0 & Hid0 & _ & ->)|[Hnone _]].
  - set (st1 := set_tasks st _).
    destruct (award_points_frame (later c) 10 st1) as [Htasks Hpoints].
    eexists _, _, _. split; [done|]. split; [exact Hpoints|].
    split; [exact Htasks|]. split; [apply length_insert|].
    split.
    { eapply list_elem_of_lookup_2. apply list_lookup_insert_eq.
      by eapply lookup_lt_Some. }
    by destruct t0.
  - destruct (Hnone t); [by eapply list_elem_of_lookup_2|done].
Qed.

Lemma complete_task_awards_witness :
  exists st' ts' t',
    complete_task (fun _ => "2024-03-10T09:00:00") "t1"
      (mk_session None
         (Some [mk_task "t1" "Call" "" None "2024-03-09T08:00:00" None true
                  (Some "2024-03-09T10:00:00") 3 3])
         (Some 10) None None)
    = (true, st')
    /\ points st' = Some (default 0 (Some 10) + 10)
    /\ tasks st' = Some ts'
    /\ length ts' = 1%nat
    /\ t' ∈ ts' /\ id t' = "t1"
    /\ completed t' = true
    /\ completed_at t' = Some "2024-03-10T09:00:00".
Proof.
  apply (complete_task_awards (fun _ => "2024-03-10T09:00:00") "t1"
           (mk_session None
              (Some [mk_task "t1" "Call" "" None "2024-03-09T08:00:00" None
                       true (Some "2024-03-09T10:00:00") 3 3])
              (Some 10) None None)
           [mk_task "t1" "Call" "" None "2024-03-09T08:00:00" None true
              (Some "2024-03-09T10:00:00") 3 3]
           0%nat
           (mk_task "t1" "Call" "" None "2024-03-09T08:00:00" None true
              (Some "2024-03-09T10:00:00") 3 3)).
  - reflexivity.
  - reflexivity.
  - reflexivity.
Defined.

Lemma mark_redeemed_elem now rid us :
  existsb (fun u => String.eqb (reward_id (unlocked_reward u)) rid) us
    = true ->
  exists u, u ∈ mark_redeemed now rid us
            /\ reward_id (unlocked_reward u) = rid
            /\ redeemed_at u = Some now.
Proof.
  induction us as [|u us IH]; simpl; [done|].
  destruct (String.eqb_spec (reward_id (unlocked_reward u)) rid) as [E|E];
    simpl.
  - intros _. eexists. split; [by left|done].
  - intros H. destruct (IH H) as (u' & Hu' & Hid & Hr).
    exists u'. split; [by right|done].
Qed.

(** X27. [redeem_reward] either returns [False] and leaves the session as
    it is, or returns [True]: then the first reward with the id costs no
    more than the balance, the balance is lowered by the cost and an
    unlocked reward of the id is marked as redeemed. The reward need not
    have been unlocked, and it may have been redeemed before. *)
Theorem redeem_reward_cases c rid st :
  let '(ok, st') := redeem_reward c rid st in
  if ok
  then
    exists rs balance r u,
      rewards st = Some rs /\ points st = Some balance
      /\ find (fun r => String.eqb (reward_id r) rid) rs = Some r
      /\ point_cost r <= balance
      /\ points st' = Some (balance - point_cost r)
      /\ rewards st' = Some rs /\ tasks st' = tasks st
      /\ u ∈ default [] (unlocked_rewards st')
      /\ reward_id (unlocked_reward u) = rid
      /\ is_Some (redeemed_at u)
  else st' = st.
Proof.
  unfold redeem_reward.
  destruct (rewards st) as [rs|] eqn:Hrs; [|done].
  destruct (points st) as [balance|] eqn:Hp; [|done].
  destruct (find _ rs) as [r|] eqn:Hfind; [|done].
  destruct (Z.ltb_spec balance (point_cost r)); [done|].
  cbn [set_points unlocked_rewards].
  destruct (existsb _ (default [] (unlocked_rewards st))) eqn:Hany;
    cbn [negb].
  - destruct (mark_redeemed_elem (c 0%nat) rid _ Hany) as (u & Hu & Hid & Hr).
    exists rs, balance, r, u. simpl. rewrite Hrs.
    repeat split; try done; try lia; by rewrite Hr.
  - exists rs, balance, r, (mk_unlocked r (Some (c 0%nat)) (Some (c 1%nat))).
    simpl. rewrite Hrs. repeat split; try done; try lia.
    + apply elem_of_app. right. by left.
    + apply find_some in Hfind as [_ E]. by apply String.eqb_eq.
Qed.

Lemma filter_keeps_all {A} (f : A -> bool) (l : list A) :
  length (List.filter f l) = length l <-> forall x, x ∈ l -> f x = true.
Proof.
  induction l as [|x l IH]; simpl.
  - split; [|done]. by intros _ x ?%elem_of_nil.
  - pose proof (List.filter_length_le f l) as Hle.
    destruct (f x) eqn:E; simpl.
    + split.
      * intros H y [->|Hy]%elem_of_cons; [done|]. apply IH; [lia|done].
      * intros H. f_equal. apply IH. intros y Hy. apply H. by right.
    + split; [lia|]. intros H. specialize (H x). rewrite E in H.
      discriminate H. by left.
Qed.

(** X28. [delete_task] removes every task that carries the id and keeps
    the others; it returns [True] exactly when there was such a task, and
    a second call with the id returns [False]. *)
Theorem delete_task_spec task_id st :
  let '(ok, st') := delete_task task_id st in
  (ok = true <-> exists t, t ∈ default [] (tasks st) /\ id t = task_id)
  /\ (forall t, t ∈ default [] (tasks st')
                <-> t ∈ default [] (tasks st) /\ id t <> task_id)
  /\ delete_task task_id st' = (false, st').
Proof.
  unfold delete_task. destruct (tasks st) as [ts|] eqn:Hts; simpl.
  - set (f := fun t => negb (String.eqb (id t) task_id)).
    assert (forall t, f t = true <-> id t <> task_id) as Hf.
    { intros t. unfold f.
      destruct (String.eqb_spec (id t) task_id); simpl; split; done. }
    split; [|split].
    + rewrite negb_true_iff, Nat.eqb_neq. split.
      * intros Hlen.
        destruct (existsb (fun t => negb (f t)) ts) eqn:E.
        -- apply existsb_exists in E as (t & Ht & Hft).
           exists t. split; [by apply list_elem_of_In|].
           apply negb_true_iff in Hft.
           destruct (String.eqb_spec (id t) task_id); [done|].
           unfold f in Hft. by destruct (String.eqb_spec (id t) task_id).
        -- destruct Hlen. symmetry. apply filter_keeps_all.
           intros x Hx.
           destruct (f x) eqn:Efx; [done|].
           assert (existsb (fun t => negb (f t)) ts = true); [|congruence].
           apply existsb_exists. exists x.
           split; [by apply list_elem_of_In|by rewrite Efx].
      * intros (t & Ht & Hid) Hlen. symmetry in Hlen.
        apply filter_keeps_all with (x := t) in Hlen; [|done].
        by apply Hf in Hlen.
    + intros t. rewrite !list_elem_of_In, filter_In, Hf. tauto.
    + rewrite (proj2 (filter_keeps_all f (List.filter f ts))).
      * rewrite Nat.eqb_refl. simpl. f_equal. unfold set_tasks. simpl.
        f_equal. f_equal. clear. induction ts as [|t ts IH]; [done|].
        simpl. destruct (f t) eqn:E; simpl; rewrite ?E; by rewrite IH.
      * intros x Hx%list_elem_of_In. by apply filter_In in Hx as [_ Hx].
  - rewrite Hts. simpl. split; [|split; [|done]].
    + split; [done|]. by intros (t & Ht%elem_of_nil & _).
    + intros t. split; [by intros ?%elem_of_nil|].
      by intros [?%elem_of_nil _].
Qed.

End StoreMore.
